(** * Secure to-do: encrypted records and token handling

    A shallow embedding of the Node.js application (utils/crypto.js,
    utils/hash.js, middleware/auth.js, models/User.js and the two
    controllers) together with the parts of its C# port that the
    specification also describes (HashService, TodoService, AuthService).

    Conventions.
    - A byte is an [ascii]; a buffer is a [list ascii].
    - A JavaScript string is the list of its UTF-16 code units, each an [N]
      below 65536.
    - Randomness ([crypto.randomBytes]) and the clock ([Date.now]) are
      explicit arguments; [process.env] is a record.
    - A function that throws returns [inl message]. *)

From Stdlib Require Import String Ascii NArith ZArith List Bool Lia.
Import ListNotations.

Local Open Scope N_scope.

Ltac Zify.zify_post_hook ::= Z.to_euclidean_division_equations.

(** ** Buffers and JavaScript strings *)

Definition byte := ascii.
Definition buffer := list byte.
Definition jsstring := list N.

Definition byte_of_N (n : N) : byte := ascii_of_N n.
Definition N_of_byte (b : byte) : N := N_of_ascii b.

(** A string literal of the source, as a JavaScript string. *)
Definition js (s : string) : jsstring := map N_of_ascii (list_ascii_of_string s).

Definition code_unit_ok (u : N) : bool := u <? 65536.
Definition is_jsstring (s : jsstring) : bool := forallb code_unit_ok s.

Fixpoint jsstring_eqb (a b : jsstring) : bool :=
  match a, b with
  | [], [] => true
  | x :: a', y :: b' => (x =? y) && jsstring_eqb a' b'
  | _, _ => false
  end.

Definition bxor (a b : byte) : byte :=
  match a, b with
  | Ascii a0 a1 a2 a3 a4 a5 a6 a7, Ascii b0 b1 b2 b3 b4 b5 b6 b7 =>
      Ascii (xorb a0 b0) (xorb a1 b1) (xorb a2 b2) (xorb a3 b3)
            (xorb a4 b4) (xorb a5 b5) (xorb a6 b6) (xorb a7 b7)
  end.

(** [xor_with data pad]: [data] xored with a pad at least as long; a pad
    that runs out leaves the rest of [data] unchanged. *)
Fixpoint xor_with (data pad : buffer) : buffer :=
  match data, pad with
  | d :: data', p :: pad' => bxor d p :: xor_with data' pad'
  | _, _ => data
  end.

Fixpoint buffer_eqb (a b : buffer) : bool :=
  match a, b with
  | [], [] => true
  | x :: a', y :: b' => Ascii.eqb x y && buffer_eqb a' b'
  | _, _ => false
  end.

(** ** Base64 ([Buffer.toString('base64')] and [Buffer.from(s, 'base64')]) *)

Module Base64.

Definition alphabet : jsstring :=
  js "ABCDEFGHIJKLMNOPQRSTUVWXYZabcdefghijklmnopqrstuvwxyz0123456789+/".

Definition url_alphabet : jsstring :=
  js "ABCDEFGHIJKLMNOPQRSTUVWXYZabcdefghijklmnopqrstuvwxyz0123456789-_".

Definition pad : N := 61.

Definition digit (table : jsstring) (sextet : N) : N :=
  nth (N.to_nat sextet) table 0.

(** Three bytes make four digits; a tail of one or two bytes makes two or
    three digits, and [padding] says whether '=' fills the group. *)
Fixpoint encode_with (table : jsstring) (padding : bool) (bs : buffer)
  : jsstring :=
  match bs with
  | [] => []
  | [a] =>
      let n := N_of_byte a in
      digit table (n / 4) :: digit table ((n mod 4) * 16)
        :: (if padding then [pad; pad] else [])
  | [a; b] =>
      let n := N_of_byte a * 256 + N_of_byte b in
      digit table (n / 1024) :: digit table ((n / 16) mod 64)
        :: digit table ((n mod 16) * 4)
        :: (if padding then [pad] else [])
  | a :: b :: c :: rest =>
      let n := N_of_byte a * 65536 + N_of_byte b * 256 + N_of_byte c in
      digit table (n / 262144) :: digit table ((n / 4096) mod 64)
        :: digit table ((n / 64) mod 64) :: digit table (n mod 64)
        :: encode_with table padding rest
  end.

Definition encode : buffer -> jsstring := encode_with alphabet true.
Definition encode_url : buffer -> jsstring := encode_with url_alphabet false.

(** Node accepts both alphabets when it decodes. *)
Definition unbase64 (c : N) : option N :=
  if (65 <=? c) && (c <=? 90) then Some (c - 65)
  else if (97 <=? c) && (c <=? 122) then Some (c - 71)
  else if (48 <=? c) && (c <=? 57) then Some (c + 4)
  else if (c =? 43) || (c =? 45) then Some 62
  else if (c =? 47) || (c =? 95) then Some 63
  else None.

(** The legal digits up to the first '='; any other character is skipped. *)
Fixpoint sextets (s : jsstring) : list N :=
  match s with
  | [] => []
  | c :: s' =>
      if c =? pad then []
      else match unbase64 c with
           | Some v => v :: sextets s'
           | None => sextets s'
           end
  end.

(** Four digits give three bytes; a last group of two or three digits
    gives one or two bytes, a lone digit none. *)
Fixpoint group (l : list N) : buffer :=
  match l with
  | a :: b :: c :: d :: rest =>
      let n := ((a * 64 + b) * 64 + c) * 64 + d in
      byte_of_N (n / 65536) :: byte_of_N ((n / 256) mod 256)
        :: byte_of_N (n mod 256) :: group rest
  | [a; b; c] =>
      let n := (a * 64 + b) * 64 + c in
      [byte_of_N (n / 1024); byte_of_N ((n / 4) mod 256)]
  | [a; b] => [byte_of_N ((a * 64 + b) / 16)]
  | _ => []
  end.

Definition decode (s : jsstring) : buffer := group (sextets s).

End Base64.

(** ** UTF-8 ([Buffer.from(s, 'utf8')] and [Buffer.toString('utf8')]) *)

Module Utf8.

Definition replacement : N := 0xFFFD.

Definition is_high (u : N) : bool := (0xD800 <=? u) && (u <? 0xDC00).
Definition is_low (u : N) : bool := (0xDC00 <=? u) && (u <? 0xE000).

Definition code_point (hi lo : N) : N :=
  0x10000 + (hi - 0xD800) * 0x400 + (lo - 0xDC00).

(** The bytes of one code point. *)
Definition bytes_of (cp : N) : list N :=
  if cp <? 0x80 then [cp]
  else if cp <? 0x800 then [0xC0 + cp / 64; 0x80 + cp mod 64]
  else if cp <? 0x10000 then
    [0xE0 + cp / 4096; 0x80 + (cp / 64) mod 64; 0x80 + cp mod 64]
  else
    [0xF0 + cp / 262144; 0x80 + (cp / 4096) mod 64;
     0x80 + (cp / 64) mod 64; 0x80 + cp mod 64].

(** Encoding walks the code units; a surrogate that is not half of a pair
    is written as U+FFFD. *)
Fixpoint encode_units (s : jsstring) : list N :=
  match s with
  | [] => []
  | u :: rest =>
      if is_high u then
        match rest with
        | v :: rest' =>
            if is_low v then bytes_of (code_point u v) ++ encode_units rest'
            else bytes_of replacement ++ encode_units rest
        | [] => bytes_of replacement
        end
      else if is_low u then bytes_of replacement ++ encode_units rest
      else bytes_of u ++ encode_units rest
  end.

Definition encode (s : jsstring) : buffer := map byte_of_N (encode_units s).

(** The code units of one decoded code point. *)
Definition units_of (cp : N) : jsstring :=
  if cp <? 0x10000 then [cp]
  else [0xD800 + (cp - 0x10000) / 0x400; 0xDC00 + (cp - 0x10000) mod 0x400].

(** A sequence under way: the bits read so far, the continuation bytes
    still expected, and the range allowed for the next byte. *)
Record pending := Pending { acc : N; more : nat; lower : N; upper : N }.

(** What a byte does when no sequence is under way. *)
Definition lead (b : N) : jsstring * option pending :=
  if b <? 0x80 then ([b], None)
  else if (0xC2 <=? b) && (b <=? 0xDF) then
    ([], Some (Pending (b - 0xC0) 0 0x80 0xBF))
  else if (0xE0 <=? b) && (b <=? 0xEF) then
    ([], Some (Pending (b - 0xE0) 1
                 (if b =? 0xE0 then 0xA0 else 0x80)
                 (if b =? 0xED then 0x9F else 0xBF)))
  else if (0xF0 <=? b) && (b <=? 0xF4) then
    ([], Some (Pending (b - 0xF0) 2
                 (if b =? 0xF0 then 0x90 else 0x80)
                 (if b =? 0xF4 then 0x8F else 0xBF)))
  else ([replacement], None).

(** The decoder replaces every ill-formed part by U+FFFD and goes on with
    the byte that broke the sequence. *)
Fixpoint decode_from (st : option pending) (bs : list N) : jsstring :=
  match bs with
  | [] => match st with None => [] | Some _ => [replacement] end
  | b :: rest =>
      match st with
      | None => let (out, st') := lead b in out ++ decode_from st' rest
      | Some p =>
          if (lower p <=? b) && (b <=? upper p) then
            let cp := acc p * 64 + (b - 0x80) in
            match more p with
            | O => units_of cp ++ decode_from None rest
            | S k => decode_from (Some (Pending cp k 0x80 0xBF)) rest
            end
          else
            let (out, st') := lead b in
            replacement :: out ++ decode_from st' rest
      end
  end.

Definition decode (bs : buffer) : jsstring :=
  decode_from None (map N_of_byte bs).

(** No code unit out of range and no surrogate outside a pair. *)
Fixpoint well_formed (s : jsstring) : bool :=
  match s with
  | [] => true
  | u :: rest =>
      if is_high u then
        match rest with
        | v :: rest' => is_low v && well_formed rest'
        | [] => false
        end
      else negb (is_low u) && code_unit_ok u && well_formed rest
  end.

End Utf8.

(** ** Hexadecimal ([digest('hex')]) *)

Module Hex.

Definition digit (n : N) : N := if n <? 10 then 48 + n else 87 + n.

Definition encode (bs : buffer) : jsstring :=
  flat_map (fun b => [digit (N_of_byte b / 16); digit (N_of_byte b mod 16)]) bs.

Definition upper_digit (n : N) : N := if n <? 10 then 48 + n else 55 + n.

Definition encode_upper (bs : buffer) : jsstring :=
  flat_map (fun b => [upper_digit (N_of_byte b / 16);
                      upper_digit (N_of_byte b mod 16)]) bs.

(** Upper and lower case of the ASCII letters. *)
Definition upper_char (c : N) : N :=
  if (97 <=? c) && (c <=? 122) then c - 32 else c.
Definition lower_char (c : N) : N :=
  if (65 <=? c) && (c <=? 90) then c + 32 else c.

Definition to_upper (s : jsstring) : jsstring := map upper_char s.
Definition to_lower (s : jsstring) : jsstring := map lower_char s.

End Hex.

(** ** SHA-256 ([crypto.createHash('sha256')], FIPS 180-4) *)

Module Sha256.

Definition w32 (x : N) : N := x mod 4294967296.
Definition add32 (x y : N) : N := w32 (x + y).
Definition rotr (n x : N) : N :=
  N.lor (N.shiftr x n) (w32 (N.shiftl x (32 - n))).
Definition not32 (x : N) : N := 4294967295 - x.

Definition ch (x y z : N) : N := N.lxor (N.land x y) (N.land (not32 x) z).
Definition maj (x y z : N) : N :=
  N.lxor (N.lxor (N.land x y) (N.land x z)) (N.land y z).
Definition bsig0 (x : N) : N :=
  N.lxor (N.lxor (rotr 2 x) (rotr 13 x)) (rotr 22 x).
Definition bsig1 (x : N) : N :=
  N.lxor (N.lxor (rotr 6 x) (rotr 11 x)) (rotr 25 x).
Definition ssig0 (x : N) : N :=
  N.lxor (N.lxor (rotr 7 x) (rotr 18 x)) (N.shiftr x 3).
Definition ssig1 (x : N) : N :=
  N.lxor (N.lxor (rotr 17 x) (rotr 19 x)) (N.shiftr x 10).

Definition primes : list N :=
  [2; 3; 5; 7; 11; 13; 17; 19; 23; 29; 31; 37; 41; 43; 47; 53; 59; 61; 67;
   71; 73; 79; 83; 89; 97; 101; 103; 107; 109; 113; 127; 131; 137; 139;
   149; 151; 157; 163; 167; 173; 179; 181; 191; 193; 197; 199; 211; 223;
   227; 229; 233; 239; 241; 251; 257; 263; 269; 271; 277; 281; 283; 293;
   307; 311].

(** The integer cube root, one bit at a time from bit [i] down. *)
Fixpoint cube_root_from (i : nat) (r n : N) : N :=
  let r' := r + 2 ^ N.of_nat i in
  let r := if r' * r' * r' <=? n then r' else r in
  match i with
  | O => r
  | S j => cube_root_from j r n
  end.

(** The round constants: 32 bits of the fractional part of the cube
    roots of the first 64 primes; the initial state: of the square roots
    of the first 8. *)
Definition K : list N :=
  Eval vm_compute in
    map (fun p => w32 (cube_root_from 40 0 (p * 2 ^ 96))) primes.

Definition H0 : list N :=
  Eval vm_compute in map (fun p => w32 (N.sqrt (p * 2 ^ 64))) (firstn 8 primes).

Definition be32 (bs : list N) : N :=
  fold_left (fun a b => a * 256 + b) bs 0.

Fixpoint words (n : nat) (bs : list N) : list N :=
  match n with
  | O => []
  | S n' => be32 (firstn 4 bs) :: words n' (skipn 4 bs)
  end.

(** The schedule is kept newest first while it grows. *)
Fixpoint extend (n : nat) (rev_w : list N) : list N :=
  match n with
  | O => rev_w
  | S n' =>
      let w :=
        add32 (add32 (ssig1 (nth 1 rev_w 0)) (nth 6 rev_w 0))
              (add32 (ssig0 (nth 14 rev_w 0)) (nth 15 rev_w 0)) in
      extend n' (w :: rev_w)
  end.

Definition schedule (block : list N) : list N :=
  rev (extend 48 (rev (words 16 block))).

Definition round (st : list N) (kw : N * N) : list N :=
  match st with
  | [a; b; c; d; e; f; g; h] =>
      let t1 :=
        add32 (add32 (add32 h (bsig1 e)) (add32 (ch e f g) (fst kw))) (snd kw) in
      let t2 := add32 (bsig0 a) (maj a b c) in
      [add32 t1 t2; a; b; c; add32 d t1; e; f; g]
  | _ => st
  end.

Definition compress (h : list N) (block : list N) : list N :=
  let st := fold_left round (combine K (schedule block)) h in
  map (fun p => add32 (fst p) (snd p)) (combine h st).

Fixpoint compress_all (fuel : nat) (h : list N) (bs : list N) : list N :=
  match fuel, bs with
  | S fuel', _ :: _ => compress_all fuel' (compress h (firstn 64 bs)) (skipn 64 bs)
  | _, _ => h
  end.

Definition be_bytes (width : nat) (x : N) : list N :=
  map (fun i => (x / 256 ^ N.of_nat i) mod 256) (rev (seq 0 width)).

Definition padded (msg : list N) : list N :=
  let len := length msg in
  let zeros := ((64 - (len + 9) mod 64) mod 64)%nat in
  msg ++ [128] ++ repeat 0 zeros ++ be_bytes 8 (8 * N.of_nat len).

Definition digest_N (msg : list N) : list N :=
  let p := padded msg in
  flat_map (be_bytes 4) (compress_all (length p) H0 p).

Definition digest (msg : buffer) : buffer :=
  map byte_of_N (digest_N (map N_of_byte msg)).

End Sha256.

(** ** HMAC-SHA256 (RFC 2104), the signature of an HS256 token *)

Module Hmac.

Definition block_size : nat := 64.

Definition block_key (key : buffer) : buffer :=
  let k := if Nat.ltb block_size (length key) then Sha256.digest key else key in
  k ++ repeat zero (block_size - length k)%nat.

Definition sha256 (key msg : buffer) : buffer :=
  let k := block_key key in
  let ipad := map (bxor (byte_of_N 0x36)) k in
  let opad := map (bxor (byte_of_N 0x5c)) k in
  Sha256.digest (opad ++ Sha256.digest (ipad ++ msg)).

End Hmac.

(** ** AES-256 (FIPS 197), the block cipher behind 'aes-256-gcm' *)

Module Aes.

(** Arithmetic in GF(2^8) modulo x^8 + x^4 + x^3 + x + 1. *)
Definition xtime (a : N) : N :=
  let d := a * 2 in if d <? 256 then d else N.lxor (d - 256) 0x1b.

Fixpoint gmul_bits (n : nat) (a b : N) : N :=
  match n with
  | O => 0
  | S n' =>
      N.lxor (if N.odd b then a else 0) (gmul_bits n' (xtime a) (b / 2))
  end.

Definition gmul (a b : N) : N := gmul_bits 8 a b.

Fixpoint gpow (n : nat) (a : N) : N :=
  match n with
  | O => 1
  | S n' => gmul a (gpow n' a)
  end.

Definition rotl8 (x n : N) : N := (x * 2 ^ n) mod 256 + x / 2 ^ (8 - n).

(** The S-box: the inverse in the field, then the affine map. *)
Definition sbox_of (x : N) : N :=
  let s := gpow 254 x in
  N.lxor (N.lxor (N.lxor s (rotl8 s 1)) (N.lxor (rotl8 s 2) (rotl8 s 3)))
         (N.lxor (rotl8 s 4) 0x63).

Definition sbox_table : list N :=
  Eval vm_compute in map (fun i => sbox_of (N.of_nat i)) (seq 0 256).

Definition sbox (x : N) : N := nth (N.to_nat x) sbox_table 0.

Definition xor_bytes (a b : list N) : list N :=
  map (fun p => N.lxor (fst p) (snd p)) (combine a b).

Definition rot_word (w : list N) : list N :=
  match w with
  | a :: r => r ++ [a]
  | [] => []
  end.

Fixpoint words_of (n : nat) (bs : list N) : list (list N) :=
  match n with
  | O => []
  | S n' => firstn 4 bs :: words_of n' (skipn 4 bs)
  end.

(** Key expansion for an eight-word key; the words are kept newest
    first while the schedule grows. *)
Fixpoint expand (n : nat) (i : N) (rcon : N) (rev_w : list (list N))
  : list (list N) :=
  match n with
  | O => rev_w
  | S n' =>
      let prev := nth 0 rev_w [] in
      let back := nth 7 rev_w [] in
      let temp :=
        if i mod 8 =? 0 then
          xor_bytes (map sbox (rot_word prev)) [rcon; 0; 0; 0]
        else if i mod 8 =? 4 then map sbox prev
        else prev in
      expand n' (i + 1) (if i mod 8 =? 0 then xtime rcon else rcon)
             (xor_bytes back temp :: rev_w)
  end.

Definition key_schedule (key : list N) : list N :=
  concat (rev (expand 52 8 1 (rev (words_of 8 key)))).

Definition round_key (ks : list N) (r : nat) : list N :=
  firstn 16 (skipn (16 * r) ks).

(** The state is the block in input order: byte [r + 4c] is row [r] of
    column [c]. *)
Definition shift_rows (st : list N) : list N :=
  map (fun i => nth (i mod 4 + 4 * ((i / 4 + i mod 4) mod 4))%nat st 0)
      (seq 0 16).

Definition mix_column (col : list N) : list N :=
  match col with
  | [a0; a1; a2; a3] =>
      [N.lxor (N.lxor (gmul 2 a0) (gmul 3 a1)) (N.lxor a2 a3);
       N.lxor (N.lxor a0 (gmul 2 a1)) (N.lxor (gmul 3 a2) a3);
       N.lxor (N.lxor a0 a1) (N.lxor (gmul 2 a2) (gmul 3 a3));
       N.lxor (N.lxor (gmul 3 a0) a1) (N.lxor a2 (gmul 2 a3))]
  | _ => col
  end.

Definition mix_columns (st : list N) : list N :=
  flat_map mix_column (words_of 4 st).

Definition middle_round (ks : list N) (st : list N) (r : nat) : list N :=
  xor_bytes (mix_columns (shift_rows (map sbox st))) (round_key ks r).

Definition cipher (ks : list N) (block : list N) : list N :=
  let st := xor_bytes block (round_key ks 0) in
  let st := fold_left (middle_round ks) (seq 1 13) st in
  xor_bytes (shift_rows (map sbox st)) (round_key ks 14).

(** A 128-bit block as a number, most significant byte first. *)
Definition block_of_bytes (bs : list N) : N :=
  fold_left (fun a b => a * 256 + b) bs 0.

Definition bytes_of_block (x : N) : list N :=
  map (fun i => (x / 256 ^ N.of_nat i) mod 256) (rev (seq 0 16)).

Definition encrypt_block (key : buffer) : N -> N :=
  let ks := key_schedule (map N_of_byte key) in
  fun x => block_of_bytes (cipher ks (bytes_of_block x)).

End Aes.

(** ** Galois/Counter mode (NIST SP 800-38D), over any block cipher *)

Module Gcm.
Section Mode.

(** The block cipher under the key, on 128-bit blocks. *)
Variable E : N -> N.

Definition block_bytes (x : N) : buffer :=
  map (fun i => byte_of_N ((x / 256 ^ N.of_nat i) mod 256)) (rev (seq 0 16)).

(** Up to 16 bytes as a block, zeros filling the right. *)
Definition block_of (bs : buffer) : N :=
  fold_left (fun a b => a * 256 + N_of_byte b) bs 0
    * 256 ^ N.of_nat (16 - length bs).

Fixpoint blocks (fuel : nat) (bs : buffer) : list N :=
  match fuel, bs with
  | S fuel', _ :: _ => block_of (firstn 16 bs) :: blocks fuel' (skipn 16 bs)
  | _, _ => []
  end.

(** Multiplication in GF(2^128): bit 0 is the most significant. *)
Definition R : N := 0xE1 * 2 ^ 120.

Fixpoint gf_mul_from (n : nat) (x v z : N) : N :=
  match n with
  | O => z
  | S n' =>
      let z := if N.testbit x (N.of_nat n') then N.lxor z v else z in
      let v := if N.odd v then N.lxor (v / 2) R else v / 2 in
      gf_mul_from n' x v z
  end.

Definition gf_mul (x y : N) : N := gf_mul_from 128 x y 0.

Definition ghash (h : N) (xs : list N) : N :=
  fold_left (fun y x => gf_mul (N.lxor y x) h) xs 0.

Definition inc32 (x : N) : N :=
  (x / 2 ^ 32) * 2 ^ 32 + (x mod 2 ^ 32 + 1) mod 2 ^ 32.

Definition bits (bs : buffer) : N := 8 * N.of_nat (length bs).

Definition hash_key : N := E 0.

(** The pre-counter block: the nonce itself when it has 96 bits. *)
Definition j0 (iv : buffer) : N :=
  if Nat.eqb (length iv) 12 then block_of iv + 1
  else ghash hash_key (blocks (length iv) iv ++ [bits iv]).

Fixpoint stream (n : nat) (ctr : N) : buffer :=
  match n with
  | O => []
  | S n' => block_bytes (E ctr) ++ stream n' (inc32 ctr)
  end.

Definition gctr (ctr : N) (data : buffer) : buffer :=
  xor_with data (stream (S (length data / 16)) ctr).

(** The full tag over the ciphertext (there is no associated data). *)
Definition tag (iv ciphertext : buffer) : buffer :=
  let s := ghash hash_key (blocks (length ciphertext) ciphertext
                            ++ [bits ciphertext]) in
  block_bytes (N.lxor (E (j0 iv)) s).

Definition seal (iv plaintext : buffer) : buffer * buffer :=
  let c := gctr (inc32 (j0 iv)) plaintext in
  (c, tag iv c).

(** Opening checks as many bytes of the tag as were given. *)
Definition open (iv ciphertext given_tag : buffer) : option buffer :=
  if buffer_eqb given_tag (firstn (length given_tag) (tag iv ciphertext))
  then Some (gctr (inc32 (j0 iv)) ciphertext)
  else None.

End Mode.
End Gcm.

(** ** Decimal numerals ([String(n)] for a non-negative integer) *)

Module Decimal10.

Fixpoint digits_from (fuel : nat) (n : N) (acc : jsstring) : jsstring :=
  match fuel with
  | O => acc
  | S fuel' =>
      let acc' := (48 + n mod 10) :: acc in
      if n <? 10 then acc' else digits_from fuel' (n / 10) acc'
  end.

Definition print (n : N) : jsstring :=
  digits_from (S (N.to_nat (N.log2 n))) n [].

Definition is_digit (c : N) : bool := (48 <=? c) && (c <=? 57).

End Decimal10.

(** ** JSON, as far as token headers and payloads go: one flat object whose
    members are strings and non-negative integers *)

Module Json.

Inductive value :=
| Str (s : jsstring)
| Num (n : N).

Definition object := list (jsstring * value).

Definition quote_mark : N := 34.
Definition backslash : N := 92.

(** [JSON.stringify] on a string of ASCII characters. *)
Definition escape (c : N) : jsstring :=
  if c =? quote_mark then [backslash; quote_mark]
  else if c =? backslash then [backslash; backslash]
  else if c =? 8 then [backslash; 98]
  else if c =? 9 then [backslash; 116]
  else if c =? 10 then [backslash; 110]
  else if c =? 12 then [backslash; 102]
  else if c =? 13 then [backslash; 114]
  else if c <? 32 then
    [backslash; 117; 48; 48; Hex.digit (c / 16); Hex.digit (c mod 16)]
  else [c].

Definition quote (s : jsstring) : jsstring :=
  quote_mark :: flat_map escape s ++ [quote_mark].

Definition print_value (v : value) : jsstring :=
  match v with
  | Str s => quote s
  | Num n => Decimal10.print n
  end.

Definition print_member (m : jsstring * value) : jsstring :=
  quote (fst m) ++ [58] ++ print_value (snd m).

Fixpoint print_members (o : object) : jsstring :=
  match o with
  | [] => []
  | [m] => print_member m
  | m :: o' => print_member m ++ [44] ++ print_members o'
  end.

Definition stringify (o : object) : jsstring :=
  [123] ++ print_members o ++ [125].

(** Reading: first the tokens, then the members.  Strings with escapes,
    white space, nesting and other literals are outside this fragment and
    are refused. *)
Inductive token :=
| TOpen | TClose | TColon | TComma
| TStr (s : jsstring)
| TNum (n : N).

Inductive lexer :=
| Idle
| InStr (rev_chars : jsstring)
| InNum (n : N)
| AfterZero.

Definition punct (c : N) : option token :=
  if c =? 123 then Some TOpen
  else if c =? 125 then Some TClose
  else if c =? 58 then Some TColon
  else if c =? 44 then Some TComma
  else None.

Fixpoint lex (st : lexer) (s : jsstring) : option (list token) :=
  match s with
  | [] =>
      match st with
      | Idle => Some []
      | InStr _ => None
      | InNum n => Some [TNum n]
      | AfterZero => Some [TNum 0]
      end
  | c :: rest =>
      match st with
      | InStr acc =>
          if c =? quote_mark then option_map (cons (TStr (rev acc))) (lex Idle rest)
          else if (c =? backslash) || (c <? 32) then None
          else lex (InStr (c :: acc)) rest
      | Idle =>
          if c =? quote_mark then lex (InStr []) rest
          else if c =? 48 then lex AfterZero rest
          else if Decimal10.is_digit c then lex (InNum (c - 48)) rest
          else match punct c with
               | Some t => option_map (cons t) (lex Idle rest)
               | None => None
               end
      | InNum n =>
          if Decimal10.is_digit c then lex (InNum (10 * n + (c - 48))) rest
          else match punct c with
               | Some t => option_map (fun ts => TNum n :: t :: ts) (lex Idle rest)
               | None => None
               end
      | AfterZero =>
          match punct c with
          | Some t => option_map (fun ts => TNum 0 :: t :: ts) (lex Idle rest)
          | None => None
          end
      end
  end.

Definition value_of (t : token) : option value :=
  match t with
  | TStr s => Some (Str s)
  | TNum n => Some (Num n)
  | _ => None
  end.

Fixpoint members (ts : list token) : option object :=
  match ts with
  | TStr k :: TColon :: v :: sep :: rest =>
      match value_of v, sep with
      | Some x, TComma => option_map (cons (k, x)) (members rest)
      | Some x, TClose =>
          match rest with
          | [] => Some [(k, x)]
          | _ :: _ => None
          end
      | _, _ => None
      end
  | _ => None
  end.

Definition parse (s : jsstring) : option object :=
  match lex Idle s with
  | Some [TOpen; TClose] => Some []
  | Some (TOpen :: ts) => members ts
  | _ => None
  end.

(** Property lookup: of two members with one name the later one counts. *)
Fixpoint get (k : jsstring) (o : object) : option value :=
  match o with
  | [] => None
  | (k', v) :: o' =>
      match get k o' with
      | Some v' => Some v'
      | None => if jsstring_eqb k' k then Some v else None
      end
  end.

End Json.

(** ** Object ids: twelve bytes, written as 24 hexadecimal digits *)

Module ObjectId.

Definition t := buffer.

Definition toString (id : t) : jsstring := Hex.encode id.

Definition hex_value (c : N) : option N :=
  if (48 <=? c) && (c <=? 57) then Some (c - 48)
  else if (97 <=? c) && (c <=? 102) then Some (c - 87)
  else if (65 <=? c) && (c <=? 70) then Some (c - 55)
  else None.

Fixpoint bytes_of_hex (s : jsstring) : option buffer :=
  match s with
  | [] => Some []
  | hi :: lo :: rest =>
      match hex_value hi, hex_value lo, bytes_of_hex rest with
      | Some h, Some l, Some bs => Some (byte_of_N (16 * h + l) :: bs)
      | _, _, _ => None
      end
  | [_] => None
  end.

(** The cast Mongoose applies to a string used as an id; only the
    24-digit form is modelled. *)
Definition parse (s : jsstring) : option t :=
  if Nat.eqb (length s) 24 then bytes_of_hex s else None.

Definition eqb (a b : t) : bool := buffer_eqb a b.

Definition valid (id : t) : bool := Nat.eqb (length id) 12.

End ObjectId.

(** ** JSON web tokens ([jsonwebtoken]: HS256 tokens with a JSON payload) *)

Module Jwt.

Inductive error :=
| TokenExpiredError (message : jsstring)
| JsonWebTokenError (message : jsstring).

Definition dot : N := 46.

Definition header : Json.object :=
  [(js "alg", Json.Str (js "HS256")); (js "typ", Json.Str (js "JWT"))].

Definition segment (o : Json.object) : jsstring :=
  Base64.encode_url (Utf8.encode (Json.stringify o)).

Definition signature (secret input : jsstring) : jsstring :=
  Base64.encode_url (Hmac.sha256 (Utf8.encode secret) (Utf8.encode input)).

(** [jwt.sign(payload, secret, { expiresIn })] at [now] milliseconds;
    [expiresIn] is the span in seconds. *)
Definition sign (payload : Json.object) (secret : option jsstring)
           (expiresIn now : N) : jsstring + jsstring :=
  match secret with
  | Some (c :: k) =>
      let iat := now / 1000 in
      let claims :=
        payload ++ [(js "iat", Json.Num iat); (js "exp", Json.Num (iat + expiresIn))] in
      let input := segment header ++ [dot] ++ segment claims in
      inr (input ++ [dot] ++ signature (c :: k) input)
  | _ => inl (js "secretOrPrivateKey must have a value")
  end.

(** [String.prototype.split] on one character. *)
Fixpoint split (sep : N) (s : jsstring) : list jsstring :=
  match s with
  | [] => [[]]
  | c :: r =>
      if c =? sep then [] :: split sep r
      else match split sep r with
           | h :: t => (c :: h) :: t
           | [] => [[c]]
           end
  end.

Definition is_url_char (c : N) : bool :=
  ((65 <=? c) && (c <=? 90)) || ((97 <=? c) && (c <=? 122))
  || ((48 <=? c) && (c <=? 57)) || (c =? 45) || (c =? 95).

(** The shape [jws] asks of a token before it decodes anything. *)
Definition well_shaped (h p s : jsstring) : bool :=
  match h, p with
  | _ :: _, _ :: _ => forallb is_url_char (h ++ p ++ s)
  | _, _ => false
  end.

Definition latin1 (bs : buffer) : jsstring := map N_of_byte bs.

(** [jwt.verify(token, secret)] at [now] milliseconds.  Only HS256 is
    modelled, and only headers and payloads that are flat objects of
    strings and whole numbers, which is what this application signs; a
    missing secret fails every token. *)
Definition verify (token : jsstring) (secret : option jsstring) (now : N)
  : error + Json.object :=
  match split dot token with
  | [h; p; s] =>
      if negb (well_shaped h p s) then inl (JsonWebTokenError (js "invalid token"))
      else
        match Json.parse (latin1 (Base64.decode h)),
              Json.parse (Utf8.decode (Base64.decode p)) with
        | Some hd, Some payload =>
            match s, secret with
            | [], _ => inl (JsonWebTokenError (js "jwt signature is required"))
            | _, Some (c :: k) =>
                match Json.get (js "alg") hd with
                | Some (Json.Str alg) =>
                    if negb (jsstring_eqb alg (js "HS256")) then
                      inl (JsonWebTokenError (js "invalid algorithm"))
                    else if negb (jsstring_eqb s (signature (c :: k) (h ++ [dot] ++ p)))
                    then inl (JsonWebTokenError (js "invalid signature"))
                    else
                      match Json.get (js "exp") payload with
                      | Some (Json.Num exp) =>
                          if exp <=? now / 1000
                          then inl (TokenExpiredError (js "jwt expired"))
                          else inr payload
                      | Some (Json.Str _) =>
                          inl (JsonWebTokenError (js "invalid exp value"))
                      | None => inr payload
                      end
                | _ => inl (JsonWebTokenError (js "invalid algorithm"))
                end
            | _, _ =>
                inl (JsonWebTokenError (js "secret or public key must be provided"))
            end
        | _, _ => inl (JsonWebTokenError (js "invalid token"))
        end
  | _ => inl (JsonWebTokenError (js "jwt malformed"))
  end.

(** Three non-empty runs of base64url characters between two dots: what
    a signed token looks like from the outside. *)
Definition jwt_shaped (token : jsstring) : bool :=
  match split dot token with
  | [h; p; s] =>
      well_shaped h p s && negb (Nat.eqb (length s) 0)
  | _ => false
  end.

End Jwt.

(** * The Node.js application *)

(** [process.env].  The two spans are what the token library reads from
    JWT_EXPIRES_IN and JWT_REFRESH_EXPIRES_IN, in seconds. *)
Record Env := {
  AES_KEY : option jsstring;
  JWT_SECRET : option jsstring;
  JWT_REFRESH_SECRET : option jsstring;
  JWT_EXPIRES_IN : option N;
  JWT_REFRESH_EXPIRES_IN : option N
}.

(** A variable that is unset or empty is falsy; [a || b]. *)
Definition truthy (v : option jsstring) : bool :=
  match v with
  | Some (_ :: _) => true
  | _ => false
  end.

Definition or_else (a b : option jsstring) : option jsstring :=
  if truthy a then a else b.

Definition or_span (a : option N) (b : N) : N :=
  match a with
  | Some n => n
  | None => b
  end.

(** [crypto.randomBytes(n)]: the [n] low bytes of the entropy drawn. *)
Definition randomBytes (n : nat) (entropy : N) : buffer :=
  map (fun i => byte_of_N ((entropy / 256 ^ N.of_nat i) mod 256)) (rev (seq 0 n)).

(** ** utils/crypto.js *)

Module Crypto.

Definition IV_LENGTH : nat := 12.
Definition AUTH_TAG_LENGTH : nat := 16.

Definition getEncryptionKey (env : Env) : jsstring + buffer :=
  match AES_KEY env with
  | Some (c :: s) =>
      let key := Base64.decode (c :: s) in
      if Nat.eqb (length key) 32 then inr key
      else inl (js "AES key must be 32 bytes (256 bits), got "
                  ++ Decimal10.print (N.of_nat (length key)) ++ js " bytes")
  | _ => inl (js "AES_KEY environment variable is not set")
  end.

Record encrypted := {
  encryptedContent : jsstring;
  iv : jsstring;
  authTag : jsstring
}.

(** [entropy] is what [crypto.randomBytes] draws for the nonce. *)
Definition encrypt (env : Env) (entropy : N) (plaintext : jsstring)
  : jsstring + encrypted :=
  match getEncryptionKey env with
  | inl message => inl (js "Encryption failed: " ++ message)
  | inr key =>
      let iv := randomBytes IV_LENGTH entropy in
      let (ciphertext, authTag) :=
        Gcm.seal (Aes.encrypt_block key) iv (Utf8.encode plaintext) in
      inr {| encryptedContent := Base64.encode ciphertext;
             iv := Base64.encode iv;
             authTag := Base64.encode authTag |}
  end.

(** The nonce lengths OpenSSL takes for GCM, and the tag lengths
    [setAuthTag] takes. *)
Definition valid_iv_length (n : nat) : bool :=
  Nat.leb 1 n && Nat.leb n 128.

Definition valid_tag_length (n : nat) : bool :=
  Nat.eqb n 4 || Nat.eqb n 8 || (Nat.leb 12 n && Nat.leb n 16).

Definition decrypt (env : Env) (encryptedContent ivBase64 authTagBase64 : jsstring)
  : jsstring + jsstring :=
  match getEncryptionKey env with
  | inl message => inl (js "Decryption failed: " ++ message)
  | inr key =>
      let iv := Base64.decode ivBase64 in
      let authTag := Base64.decode authTagBase64 in
      if negb (valid_iv_length (length iv)) then
        inl (js "Decryption failed: Invalid initialization vector")
      else if negb (valid_tag_length (length authTag)) then
        inl (js "Decryption failed: Invalid authentication tag length: "
               ++ Decimal10.print (N.of_nat (length authTag)))
      else
        match Gcm.open (Aes.encrypt_block key) iv
                       (Base64.decode encryptedContent) authTag with
        | Some plaintext => inr (Utf8.decode plaintext)
        | None =>
            inl (js "Decryption failed: Unsupported state or unable to authenticate data")
        end
  end.

Record key_report := {
  configured : bool;
  keyLength : option nat;
  valid : option bool;
  error : option jsstring
}.

Definition verifyKeyConfiguration (env : Env) : key_report :=
  match getEncryptionKey env with
  | inr key =>
      {| configured := true;
         keyLength := Some (length key);
         valid := Some (Nat.eqb (length key) 32);
         error := None |}
  | inl message =>
      {| configured := false; keyLength := None; valid := None;
         error := Some message |}
  end.

End Crypto.

(** ** utils/hash.js *)

Module Hash.

Definition computeSHA256 (content : jsstring) : jsstring :=
  Hex.encode (Sha256.digest (Utf8.encode content)).

Definition verifyIntegrity (content storedHash : jsstring) : bool :=
  let currentHash := computeSHA256 content in
  jsstring_eqb currentHash storedHash.

End Hash.

(** ** middleware/auth.js: issuing and checking tokens *)

Module Auth.

Definition user_claim (userId : ObjectId.t) : jsstring * Json.value :=
  (js "userId", Json.Str (ObjectId.toString userId)).

Definition generateAccessToken (env : Env) (now : N) (userId : ObjectId.t)
  : jsstring + jsstring :=
  Jwt.sign [user_claim userId]
           (JWT_SECRET env)
           (or_span (JWT_EXPIRES_IN env) 3600) now.

Definition generateRefreshToken (env : Env) (now : N) (userId : ObjectId.t)
  : jsstring + jsstring :=
  Jwt.sign [user_claim userId; (js "type", Json.Str (js "refresh"))]
           (or_else (JWT_REFRESH_SECRET env) (JWT_SECRET env))
           (or_span (JWT_REFRESH_EXPIRES_IN env) 604800) now.

Definition verifyRefreshToken (env : Env) (now : N) (token : jsstring)
  : Jwt.error + Json.object :=
  Jwt.verify token (or_else (JWT_REFRESH_SECRET env) (JWT_SECRET env)) now.

End Auth.

(** ** Strings as the schemas see them *)

(** White space and line terminators of ECMAScript: what
    [String.prototype.trim] strips and what \s matches in a pattern. *)
Definition is_space (c : N) : bool :=
  ((9 <=? c) && (c <=? 13)) || (c =? 32) || (c =? 0xA0) || (c =? 0x1680)
  || ((0x2000 <=? c) && (c <=? 0x200A)) || (c =? 0x2028) || (c =? 0x2029)
  || (c =? 0x202F) || (c =? 0x205F) || (c =? 0x3000) || (c =? 0xFEFF).

Fixpoint trimStart (s : jsstring) : jsstring :=
  match s with
  | c :: r => if is_space c then trimStart r else s
  | [] => []
  end.

Definition trimEnd (s : jsstring) : jsstring := rev (trimStart (rev s)).

Definition trim (s : jsstring) : jsstring := trimEnd (trimStart s).

(** [String.prototype.toLowerCase] on text of ASCII characters: the
    letters A to Z are lowered.  Code units beyond ASCII are left as they
    are; where the case of such text would matter, a property is stated
    for ASCII text. *)
Definition toLowerCase (s : jsstring) : jsstring := Hex.to_lower s.

(** ** models/User.js *)

(** The two bcrypt calls the model makes; the digest function itself is
    not part of this development. *)
Record bcrypt := {
  bcrypt_hash : jsstring -> N -> jsstring;
  bcrypt_compare : jsstring -> jsstring -> bool
}.

Module User.

Record t := {
  _id : ObjectId.t;
  username : jsstring;
  email : jsstring;
  passwordHash : option jsstring;
  googleId : option jsstring;
  createdAt : N
}.

(** The pre-save hook: a password that was set is replaced by its digest. *)
Definition pre_save (lib : bcrypt) (salt : N) (modified : bool) (u : t) : t :=
  if modified then
    match passwordHash u with
    | Some password =>
        {| _id := _id u; username := username u; email := email u;
           passwordHash := Some (bcrypt_hash lib password salt);
           googleId := googleId u; createdAt := createdAt u |}
    | None => u
    end
  else u.

Definition comparePassword (lib : bcrypt) (this : t) (candidatePassword : jsstring)
  : bool :=
  if negb (truthy (passwordHash this)) then false
  else match passwordHash this with
       | Some hash => bcrypt_compare lib candidatePassword hash
       | None => false
       end.

(** The setters of the schema.  The email path has [lowercase] and
    [trim], the username path [trim]; Mongoose runs them on a value that
    is set on a document and on a value a query filters by. *)
Definition cast_email (e : jsstring) : jsstring := toLowerCase (trim e).

Definition cast_username (n : jsstring) : jsstring := trim n.

(** [User.findOne({ email })]: the filter is cast by the schema, the
    stored values are compared as they are. *)
Definition findOne_email (users : list t) (e : jsstring) : option t :=
  find (fun u => jsstring_eqb (email u) (cast_email e)) users.

(** The pattern of the email path, /^\S+@\S+\.\S+$/: no white space
    anywhere, an @ after at least one character and, after the @, a dot
    with at least one character on either side. *)
Fixpoint dot_inside (s : jsstring) : bool :=
  match s with
  | _ :: r =>
      match r with
      | d :: _ :: _ => (d =? 46) || dot_inside r
      | _ => false
      end
  | [] => false
  end.

Fixpoint at_then_dot (s : jsstring) : bool :=
  match s with
  | c :: r => ((c =? 64) && dot_inside r) || at_then_dot r
  | [] => false
  end.

Definition email_pattern (e : jsstring) : bool :=
  forallb (fun c => negb (is_space c)) e
  && match e with
     | _ :: r => at_then_dot r
     | [] => false
     end.

(** The validators of a path, in the order they run; the message of the
    first that fails. *)
Definition validate_username (n : jsstring) : option jsstring :=
  if Nat.eqb (length n) 0 then Some (js "Path `username` is required.")
  else if Nat.ltb (length n) 3 then
    Some (js "Path `username` (`" ++ n
            ++ js "`) is shorter than the minimum allowed length (3).")
  else if Nat.ltb 50 (length n) then
    Some (js "Path `username` (`" ++ n
            ++ js "`) is longer than the maximum allowed length (50).")
  else None.

Definition validate_email (e : jsstring) : option jsstring :=
  if Nat.eqb (length e) 0 then Some (js "Path `email` is required.")
  else if negb (email_pattern e) then Some (js "Please enter a valid email address")
  else None.

(** Validation of a new document: the message of the ValidationError,
    which names the failing paths in the order [create] was given them,
    or nothing when the document passes. *)
Definition validate (u : t) : option jsstring :=
  match validate_email (email u), validate_username (username u) with
  | None, None => None
  | Some m, None => Some (js "User validation failed: email: " ++ m)
  | None, Some m => Some (js "User validation failed: username: " ++ m)
  | Some m, Some m' =>
      Some (js "User validation failed: email: " ++ m ++ js ", username: " ++ m')
  end.

(** [User.create({ email, username, passwordHash })]: the setters, the
    validators, the pre-save hook, and the insert.  [fresh] is the id the
    new document gets and [salt] what bcrypt draws. *)
Definition create (lib : bcrypt) (users : list t) (now : N) (fresh : ObjectId.t)
           (salt : N) (email username password : jsstring)
  : jsstring + t * list t :=
  let doc :=
    {| _id := fresh; username := cast_username username; email := cast_email email;
       passwordHash := Some password; googleId := None; createdAt := now |} in
  match validate doc with
  | Some message => inl message
  | None =>
      let user := pre_save lib salt true doc in
      inr (user, users ++ [user])
  end.

(** [User.findById] on a value read from a token: nothing for a missing
    value, a cast error for anything that is not the 24-digit form. *)
Definition findById (users : list t) (id : option Json.value)
  : jsstring + option t :=
  match id with
  | None => inr None
  | Some (Json.Str s) =>
      match ObjectId.parse s with
      | Some oid => inr (find (fun u => ObjectId.eqb (_id u) oid) users)
      | None => inl (js "Cast to ObjectId failed")
      end
  | Some (Json.Num _) => inl (js "Cast to ObjectId failed")
  end.

End User.

(** ** controllers/authController.js *)

Module AuthController.

Record user_view := {
  view_id : ObjectId.t;
  view_email : jsstring;
  view_username : jsstring
}.

Definition view (u : User.t) : user_view :=
  {| view_id := User._id u; view_email := User.email u;
     view_username := User.username u |}.

Inductive body :=
| Tokens (message : jsstring) (user : user_view) (accessToken refreshToken : jsstring)
| Refreshed (message : jsstring) (accessToken : jsstring)
| Failure (error : jsstring) (message : option jsstring).

Record response := {
  status : N;
  cookie : option jsstring;
  payload : body
}.

Definition fail (code : N) (error : jsstring) (message : option jsstring)
  : response :=
  {| status := code; cookie := None; payload := Failure error message |}.

(** Both tokens for a user, or the message of what was thrown. *)
Definition issue (env : Env) (now : N) (u : User.t)
  : jsstring + jsstring * jsstring :=
  match Auth.generateAccessToken env now (User._id u) with
  | inl message => inl message
  | inr accessToken =>
      match Auth.generateRefreshToken env now (User._id u) with
      | inl message => inl message
      | inr refreshToken => inr (accessToken, refreshToken)
      end
  end.

(** [fresh] is the id the database gives the new document and [salt]
    what bcrypt draws. *)
Definition register (lib : bcrypt) (env : Env) (users : list User.t)
           (now : N) (fresh : ObjectId.t) (salt : N)
           (email username password : jsstring)
  : response * list User.t :=
  match User.findOne_email users email with
  | Some _ => (fail 400 (js "User with this email already exists") None, users)
  | None =>
      match User.create lib users now fresh salt email username password with
      | inl message => (fail 500 (js "Registration failed") (Some message), users)
      | inr (user, users') =>
          match issue env now user with
          | inl message =>
              (fail 500 (js "Registration failed") (Some message), users')
          | inr (accessToken, refreshToken) =>
              ({| status := 201; cookie := Some accessToken;
                  payload := Tokens (js "User registered successfully") (view user)
                                    accessToken refreshToken |}, users')
          end
      end
  end.

Definition login (lib : bcrypt) (env : Env) (users : list User.t) (now : N)
           (email password : jsstring) : response :=
  match User.findOne_email users email with
  | None => fail 401 (js "Invalid email or password") None
  | Some user =>
      if negb (truthy (User.passwordHash user)) then
        fail 401 (js "This account uses Google Sign-In. Please login with Google.") None
      else if negb (User.comparePassword lib user password) then
        fail 401 (js "Invalid email or password") None
      else
        match issue env now user with
        | inl message => fail 500 (js "Login failed") (Some message)
        | inr (accessToken, refreshToken) =>
            {| status := 200; cookie := Some accessToken;
               payload := Tokens (js "Login successful") (view user)
                                 accessToken refreshToken |}
        end
  end.

(** [refresh] reads the user store and writes nothing. *)
Definition refresh (env : Env) (users : list User.t) (now : N)
           (refreshToken : option jsstring) : response :=
  match refreshToken with
  | Some (c :: t) =>
      match Auth.verifyRefreshToken env now (c :: t) with
      | inl _ => fail 401 (js "Invalid or expired refresh token") None
      | inr decoded =>
          match User.findById users (Json.get (js "userId") decoded) with
          | inl _ => fail 500 (js "Token refresh failed") None
          | inr None => fail 401 (js "User not found") None
          | inr (Some user) =>
              match Auth.generateAccessToken env now (User._id user) with
              | inl _ => fail 500 (js "Token refresh failed") None
              | inr accessToken =>
                  {| status := 200; cookie := Some accessToken;
                     payload := Refreshed (js "Token refreshed successfully")
                                          accessToken |}
              end
          end
      end
  | _ => fail 400 (js "Refresh token is required") None
  end.

End AuthController.

(** ** models/Todo.js and controllers/todoController.js *)

Module Todo.

Record t := {
  _id : ObjectId.t;
  userId : ObjectId.t;
  encryptedContent : jsstring;
  iv : jsstring;
  authTag : jsstring;
  integrityHash : jsstring;
  createdAt : N;
  updatedAt : N
}.

Definition owned_by (owner : ObjectId.t) (d : t) : bool :=
  ObjectId.eqb (userId d) owner.

Definition matches (id owner : ObjectId.t) (d : t) : bool :=
  ObjectId.eqb (_id d) id && owned_by owner d.

(** [sort({ createdAt: -1 })]: newest first; documents of one instant
    keep their order. *)
Fixpoint insert_newest (d : t) (l : list t) : list t :=
  match l with
  | [] => [d]
  | x :: l' =>
      if createdAt x <=? createdAt d then d :: l else x :: insert_newest d l'
  end.

Definition newest_first (l : list t) : list t :=
  fold_right insert_newest [] l.

Definition find_by_user (store : list t) (owner : ObjectId.t) : list t :=
  newest_first (filter (owned_by owner) store).

Definition findOne (store : list t) (id owner : ObjectId.t) : option t :=
  find (matches id owner) store.

(** [deleteOne]: the first match goes; the count says whether there was one. *)
Fixpoint deleteOne (store : list t) (id owner : ObjectId.t) : nat * list t :=
  match store with
  | [] => (O, [])
  | d :: store' =>
      if matches id owner d then (1%nat, store')
      else let (n, rest) := deleteOne store' id owner in (n, d :: rest)
  end.

(** The validators of the schema: the four text fields are required, and
    an empty string does not satisfy [required].  The message of the
    ValidationError, or nothing when the document passes. *)
Definition required (path value : jsstring) : list jsstring :=
  match value with
  | [] => [path ++ js ": Path `" ++ path ++ js "` is required."]
  | _ :: _ => []
  end.

Fixpoint join (sep : jsstring) (l : list jsstring) : jsstring :=
  match l with
  | [] => []
  | [x] => x
  | x :: l' => x ++ sep ++ join sep l'
  end.

Definition validate (d : t) : option jsstring :=
  match required (js "encryptedContent") (encryptedContent d)
        ++ required (js "iv") (iv d)
        ++ required (js "authTag") (authTag d)
        ++ required (js "integrityHash") (integrityHash d) with
  | [] => None
  | errors => Some (js "Todo validation failed: " ++ join (js ", ") errors)
  end.

(** [doc.save()]: the stored document with the id of [d] becomes [d]. *)
Fixpoint save (store : list t) (d : t) : list t :=
  match store with
  | [] => []
  | x :: store' =>
      if ObjectId.eqb (_id x) (_id d) then d :: store' else x :: save store' d
  end.

End Todo.

Module TodoController.

Record view := {
  id : ObjectId.t;
  content : jsstring;
  tampered : option bool;
  error : option jsstring;
  createdAt : N;
  updatedAt : N
}.

Inductive body :=
| Todos (todos : list view)
| Saved (message : jsstring) (todo : view)
| Done (message : jsstring)
| Failure (error : jsstring) (message : option jsstring).

Record response := { status : N; payload : body }.

Definition integrity_violation : jsstring :=
  js "[INTEGRITY VIOLATION - Content may have been tampered with]".

Definition decryption_failed : jsstring :=
  js "[DECRYPTION FAILED - Content is corrupted]".

(** The body of the loop in [getTodos]: what one stored document adds to
    the answer. *)
Definition read_one (env : Env) (todo : Todo.t) : view :=
  match Crypto.decrypt env (Todo.encryptedContent todo) (Todo.iv todo)
                       (Todo.authTag todo) with
  | inr plaintext =>
      let isIntegrityValid := Hash.verifyIntegrity plaintext (Todo.integrityHash todo) in
      if negb isIntegrityValid then
        {| id := Todo._id todo; content := integrity_violation;
           tampered := Some true; error := None;
           createdAt := Todo.createdAt todo; updatedAt := Todo.updatedAt todo |}
      else
        {| id := Todo._id todo; content := plaintext;
           tampered := Some false; error := None;
           createdAt := Todo.createdAt todo; updatedAt := Todo.updatedAt todo |}
  | inl message =>
      {| id := Todo._id todo; content := decryption_failed;
         tampered := Some true; error := Some message;
         createdAt := Todo.createdAt todo; updatedAt := Todo.updatedAt todo |}
  end.

(** The loop itself: [decryptedTodos.push] once per document. *)
Definition read_all (env : Env) (todos : list Todo.t) : list view :=
  fold_left (fun decryptedTodos todo => decryptedTodos ++ [read_one env todo])
            todos [].

Definition getTodos (env : Env) (store : list Todo.t) (userId : ObjectId.t)
  : response :=
  let todos := Todo.find_by_user store userId in
  {| status := 200; payload := Todos (read_all env todos) |}.

Definition plain_view (d : Todo.t) (content : jsstring) : view :=
  {| id := Todo._id d; content := content; tampered := None; error := None;
     createdAt := Todo.createdAt d; updatedAt := Todo.updatedAt d |}.

Definition createTodo (env : Env) (store : list Todo.t) (now : N)
           (fresh : ObjectId.t) (entropy : N)
           (userId : ObjectId.t) (content : jsstring)
  : response * list Todo.t :=
  let integrityHash := Hash.computeSHA256 content in
  match Crypto.encrypt env entropy content with
  | inl message =>
      ({| status := 500; payload := Failure (js "Failed to create todo") (Some message) |},
       store)
  | inr e =>
      let todo :=
        {| Todo._id := fresh; Todo.userId := userId;
           Todo.encryptedContent := Crypto.encryptedContent e;
           Todo.iv := Crypto.iv e; Todo.authTag := Crypto.authTag e;
           Todo.integrityHash := integrityHash;
           Todo.createdAt := now; Todo.updatedAt := now |} in
      match Todo.validate todo with
      | Some message =>
          ({| status := 500;
              payload := Failure (js "Failed to create todo") (Some message) |}, store)
      | None =>
          ({| status := 201;
              payload := Saved (js "Todo created successfully")
                               (plain_view todo content) |},
           store ++ [todo])
      end
  end.

(** [todoId] is the path parameter, a string.  Of the message of a cast
    error only the first words are kept. *)
Definition updateTodo (env : Env) (store : list Todo.t) (now : N) (entropy : N)
           (userId : ObjectId.t) (todoId content : jsstring)
  : response * list Todo.t :=
  match ObjectId.parse todoId with
  | None =>
      ({| status := 500;
          payload := Failure (js "Failed to update todo")
                             (Some (js "Cast to ObjectId failed")) |}, store)
  | Some oid =>
      match Todo.findOne store oid userId with
      | None => ({| status := 404; payload := Failure (js "Todo not found") None |}, store)
      | Some todo =>
          let integrityHash := Hash.computeSHA256 content in
          match Crypto.encrypt env entropy content with
          | inl message =>
              ({| status := 500;
                  payload := Failure (js "Failed to update todo") (Some message) |},
               store)
          | inr e =>
              let todo' :=
                {| Todo._id := Todo._id todo; Todo.userId := Todo.userId todo;
                   Todo.encryptedContent := Crypto.encryptedContent e;
                   Todo.iv := Crypto.iv e; Todo.authTag := Crypto.authTag e;
                   Todo.integrityHash := integrityHash;
                   Todo.createdAt := Todo.createdAt todo;
                   Todo.updatedAt := now |} in
              match Todo.validate todo' with
              | Some message =>
                  ({| status := 500;
                      payload := Failure (js "Failed to update todo") (Some message) |},
                   store)
              | None =>
                  ({| status := 200;
                      payload := Saved (js "Todo updated successfully")
                                       (plain_view todo' content) |},
                   Todo.save store todo')
              end
          end
      end
  end.

Definition deleteTodo (store : list Todo.t) (userId : ObjectId.t) (todoId : jsstring)
  : response * list Todo.t :=
  match ObjectId.parse todoId with
  | None => ({| status := 500; payload := Failure (js "Failed to delete todo") None |}, store)
  | Some oid =>
      let (deletedCount, store') := Todo.deleteOne store oid userId in
      if Nat.eqb deletedCount 0 then
        ({| status := 404; payload := Failure (js "Todo not found") None |}, store')
      else
        ({| status := 200; payload := Done (js "Todo deleted successfully") |}, store')
  end.

End TodoController.

(** * The C# port: HashService, TodoService and AuthService *)

Module CSharp.

Definition Guid := N.

Inductive exn :=
| BusinessException (message : jsstring)
| NotFoundException (message : jsstring)
| UnauthorizedException (message : jsstring)
| DbUpdateException.

Module ErrorMessages.
Definition UserAlreadyExists := js "User with this email already exists".
Definition InvalidCredentials := js "Invalid email or password".
Definition InvalidToken := js "Invalid or expired token".
Definition GoogleUserNoPassword :=
  js "This account uses Google Sign-In. Please login with Google.".
End ErrorMessages.

(** [string.Equals(a, b, StringComparison.OrdinalIgnoreCase)], for ASCII
    letters: no other character folds to a hexadecimal digit. *)
Definition equals_ignore_case (a b : jsstring) : bool :=
  jsstring_eqb (Hex.to_upper a) (Hex.to_upper b).

Module HashService.

Definition ComputeSHA256 (content : jsstring) : jsstring :=
  let bytes := Utf8.encode content in
  let hashBytes := Sha256.digest bytes in
  Hex.to_lower (Hex.encode_upper hashBytes).

Definition VerifyIntegrity (content storedHash : jsstring) : bool :=
  let currentHash := ComputeSHA256 content in
  equals_ignore_case currentHash storedHash.

End HashService.

Record Todo := {
  Id : Guid;
  UserId : Guid;
  EncryptedContent : jsstring;
  IV : jsstring;
  AuthTag : jsstring;
  IntegrityHash : jsstring;
CreatedAt : N;
UpdatedAt : N
}.

Record TodoDto := {
  dto_Id : Guid;
  Content : jsstring;
  Tampered : bool;
  dto_CreatedAt : N;
  dto_UpdatedAt : N
}.

Record RefreshToken := {
  rt_Id : Guid;
  rt_UserId : Guid;
  Token : jsstring;
  ExpiresAt : N;
  rt_CreatedAt : N;
  IsRevoked : bool
}.

Record User := {
  user_Id : Guid;
  Username : jsstring;
  Email : jsstring;
  PasswordHash : option jsstring;
  GoogleId : option jsstring;
  user_CreatedAt : N;
  user_UpdatedAt : N;
  RefreshTokens : list RefreshToken
}.

Record LoginResponseDto := {
  AccessToken : jsstring;
  NewRefreshToken : jsstring;
  UserDto : Guid * jsstring * jsstring * N
}.

Definition ToLower (s : jsstring) : jsstring := Hex.to_lower s.

Definition revoke (rt : RefreshToken) : RefreshToken :=
  {| rt_Id := rt_Id rt; rt_UserId := rt_UserId rt; Token := Token rt;
     ExpiresAt := ExpiresAt rt; rt_CreatedAt := rt_CreatedAt rt;
     IsRevoked := true |}.

Definition with_tokens (u : User) (rts : list RefreshToken) : User :=
  {| user_Id := user_Id u; Username := Username u; Email := Email u;
     PasswordHash := PasswordHash u; GoogleId := GoogleId u;
     user_CreatedAt := user_CreatedAt u; user_UpdatedAt := user_UpdatedAt u;
     RefreshTokens := rts |}.

(** Changing the tracked user: the row with this key is rewritten. *)
Definition update_user (users : list User) (id : Guid) (f : User -> User)
  : list User :=
  map (fun u => if user_Id u =? id then f u else u) users.

(** [First(rt => rt.Token == token)] with [IsRevoked] set. *)
Fixpoint revoke_first (token : jsstring) (rts : list RefreshToken)
  : list RefreshToken :=
  match rts with
  | [] => []
  | rt :: rts' =>
      if jsstring_eqb (Token rt) token then revoke rt :: rts'
      else rt :: revoke_first token rts'
  end.

Definition usable (token : jsstring) (now : N) (rt : RefreshToken) : bool :=
  jsstring_eqb (Token rt) token && negb (IsRevoked rt) && (now <? ExpiresAt rt).

Definition token_stored (token : jsstring) (users : list User) : bool :=
  existsb (fun u => existsb (fun rt => jsstring_eqb (Token rt) token)
                            (RefreshTokens u)) users.

Section Services.

(** What the services are constructed with: the decryption of
    CryptoService, the two operations of PasswordHasher, the access
    tokens of IJwtService and the configured life of a refresh token. *)
Variable Decrypt : jsstring -> jsstring -> jsstring -> jsstring + jsstring.
Variable HashPassword : jsstring -> N -> jsstring.
Variable VerifyPassword : jsstring -> jsstring -> bool.
Variable GenerateAccessToken : Guid -> jsstring -> N -> jsstring.
Variable RefreshTokenExpirationDays : N.

(** *** TodoService *)

Definition DecryptTodoAsync (todo : Todo) : TodoDto :=
  match Decrypt (EncryptedContent todo) (IV todo) (AuthTag todo) with
  | inr plaintext =>
      let isValid := HashService.VerifyIntegrity plaintext (IntegrityHash todo) in
      if negb isValid then
        {| dto_Id := Id todo;
           Content := js "[INTEGRITY VIOLATION - Content may have been tampered with]";
           Tampered := true;
           dto_CreatedAt := CreatedAt todo; dto_UpdatedAt := UpdatedAt todo |}
      else
        {| dto_Id := Id todo; Content := plaintext; Tampered := false;
           dto_CreatedAt := CreatedAt todo; dto_UpdatedAt := UpdatedAt todo |}
  | inl _ =>
      {| dto_Id := Id todo;
         Content := js "[DECRYPTION FAILED - Content is corrupted]";
         Tampered := true;
         dto_CreatedAt := CreatedAt todo; dto_UpdatedAt := UpdatedAt todo |}
  end.

(** *** AuthService.  [now] is [DateTime.UtcNow] in milliseconds; [token]
    is what [GenerateRefreshToken()] returned and [id], [guid] what
    [Guid.NewGuid()] returned.  Every operation gives what it returns or
    throws, and the store it leaves.  The generic repository is not among
    the sources: a user it hands out is taken to come with its refresh
    tokens, which is what the service, reading [user.RefreshTokens] right
    after the query, counts on. *)

Definition outcome : Type := (exn + LoginResponseDto) * list User.

(** The table has a unique index on the token: a second row with the
    same token is refused and nothing of the pending changes is saved. *)
Definition StoreRefreshTokenAsync (users : list User) (now : N) (guid : Guid)
           (userId : Guid) (token : jsstring) : option (list User) :=
  let refreshToken :=
    {| rt_Id := guid; rt_UserId := userId; Token := token;
       ExpiresAt := now + RefreshTokenExpirationDays * 86400000;
       rt_CreatedAt := now; IsRevoked := false |} in
  if existsb (fun u => user_Id u =? userId) users && token_stored token users
  then None
  else Some (update_user users userId
               (fun u => with_tokens u (RefreshTokens u ++ [refreshToken]))).

Definition respond (user : User) (now : N) (refreshToken : jsstring)
  : LoginResponseDto :=
  {| AccessToken := GenerateAccessToken (user_Id user) (Email user) now;
     NewRefreshToken := refreshToken;
     UserDto := (user_Id user, Username user, Email user, user_CreatedAt user) |}.

(** Tokens for [user]: stored from [saved] on; should the store refuse the
    row, [kept] is what the database still holds. *)
Definition issue (saved kept : list User) (user : User) (now : N) (guid : Guid)
           (token : jsstring) : outcome :=
  match StoreRefreshTokenAsync saved now guid (user_Id user) token with
  | None => (inl DbUpdateException, kept)
  | Some users' => (inr (respond user now token), users')
  end.

Definition same_email (email : jsstring) (u : User) : bool :=
  jsstring_eqb (ToLower (Email u)) (ToLower email).

Definition GetByEmailAsync (users : list User) (email : jsstring) : option User :=
  find (same_email email) users.

Definition EmailExistsAsync (users : list User) (email : jsstring) : bool :=
  existsb (same_email email) users.

Definition GetByGoogleIdAsync (users : list User) (googleId : jsstring)
  : option User :=
  find (fun u => match GoogleId u with
                 | Some g => jsstring_eqb g googleId
                 | None => false
                 end) users.

Definition RegisterAsync (users : list User) (now : N) (id guid : Guid) (salt : N)
           (token : jsstring) (username email password : jsstring) : outcome :=
  if EmailExistsAsync users email then
    (inl (BusinessException ErrorMessages.UserAlreadyExists), users)
  else
    let user :=
      {| user_Id := id; Username := username; Email := ToLower email;
         PasswordHash := Some (HashPassword password salt); GoogleId := None;
         user_CreatedAt := now; user_UpdatedAt := now; RefreshTokens := [] |} in
    issue (users ++ [user]) (users ++ [user]) user now guid token.

Definition LoginAsync (users : list User) (now : N) (guid : Guid)
           (token : jsstring) (email password : jsstring) : outcome :=
  match GetByEmailAsync users email with
  | None => (inl (UnauthorizedException ErrorMessages.InvalidCredentials), users)
  | Some user =>
      match PasswordHash user with
      | Some (c :: h) =>
          if negb (VerifyPassword password (c :: h)) then
            (inl (UnauthorizedException ErrorMessages.InvalidCredentials), users)
          else issue users users user now guid token
      | _ => (inl (BusinessException ErrorMessages.GoogleUserNoPassword), users)
      end
  end.

Definition RefreshTokenAsync (users : list User) (now : N) (guid : Guid)
           (token : jsstring) (RefreshToken : jsstring) : outcome :=
  let storedToken :=
    filter (fun u => existsb (usable RefreshToken now) (RefreshTokens u)) users in
  match storedToken with
  | [] => (inl (UnauthorizedException ErrorMessages.InvalidToken), users)
  | user :: _ =>
      let revoked :=
        update_user users (user_Id user)
          (fun u => with_tokens u (revoke_first RefreshToken (RefreshTokens u))) in
      issue revoked users user now guid token
  end.

Definition link_google (googleId : jsstring) (now : N) (u : User) : User :=
  {| user_Id := user_Id u; Username := Username u; Email := Email u;
     PasswordHash := PasswordHash u; GoogleId := Some googleId;
     user_CreatedAt := user_CreatedAt u; user_UpdatedAt := now;
     RefreshTokens := RefreshTokens u |}.

Definition GoogleLoginAsync (users : list User) (now : N) (id guid : Guid)
           (token : jsstring) (googleId email username : jsstring) : outcome :=
  match GetByGoogleIdAsync users googleId with
  | Some user => issue users users user now guid token
  | None =>
      match GetByEmailAsync users email with
      | Some user =>
          let linked := update_user users (user_Id user) (link_google googleId now) in
          issue linked linked (link_google googleId now user) now guid token
      | None =>
          let user :=
            {| user_Id := id; Username := username; Email := ToLower email;
               PasswordHash := None; GoogleId := Some googleId;
               user_CreatedAt := now; user_UpdatedAt := now; RefreshTokens := [] |} in
          issue (users ++ [user]) (users ++ [user]) user now guid token
      end
  end.

Definition LogoutAsync (users : list User) (userId : Guid) : list User :=
  update_user users userId
    (fun u => with_tokens u (map revoke (RefreshTokens u))).

(** One call on the service, and the store it leaves. *)
Inductive call :=
| Register (now : N) (id guid : Guid) (salt : N) (token username email password : jsstring)
| Login (now : N) (guid : Guid) (token email password : jsstring)
| Refresh (now : N) (guid : Guid) (token RefreshToken : jsstring)
| GoogleLogin (now : N) (id guid : Guid) (token googleId email username : jsstring)
| Logout (userId : Guid).

Definition after (users : list User) (c : call) : list User :=
  match c with
  | Register now id guid salt token username email password =>
      snd (RegisterAsync users now id guid salt token username email password)
  | Login now guid token email password =>
      snd (LoginAsync users now guid token email password)
  | Refresh now guid token old =>
      snd (RefreshTokenAsync users now guid token old)
  | GoogleLogin now id guid token googleId email username =>
      snd (GoogleLoginAsync users now id guid token googleId email username)
  | Logout userId => LogoutAsync users userId
  end.

Definition after_all (users : list User) (calls : list call) : list User :=
  fold_left after calls users.

End Services.
End CSharp.

(** * Vocabulary of the properties *)

Definition scalar (cp : N) : Prop :=
  cp < 0x110000 /\ ~ (0xD800 <= cp < 0xE000).

Definition key_ok (env : Env) : Prop :=
  exists key, Crypto.getEncryptionKey env = inr key.

Definition digit_step (v c : N) : N := 10 * v + (c - 48).

Definition plain_char (c : N) : bool :=
  (32 <=? c) && (c <? 127) && negb (c =? 34) && negb (c =? 92).

Definition plain (s : jsstring) : bool := forallb plain_char s.

Definition plain_value (v : Json.value) : bool :=
  match v with
  | Json.Str s => plain s
  | Json.Num _ => true
  end.

Definition plain_object (o : Json.object) : bool :=
  forallb (fun m => plain (fst m) && plain_value (snd m)) o.

Definition is_punct (c : N) (t : Json.token) : Prop :=
  (c = 123 /\ t = Json.TOpen) \/ (c = 125 /\ t = Json.TClose)
  \/ (c = 58 /\ t = Json.TColon) \/ (c = 44 /\ t = Json.TComma).

Definition token_of (v : Json.value) : Json.token :=
  match v with
  | Json.Str s => Json.TStr s
  | Json.Num n => Json.TNum n
  end.

Fixpoint member_tokens (o : Json.object) : list Json.token :=
  match o with
  | [] => []
  | [(k, v)] => [Json.TStr k; Json.TColon; token_of v; Json.TClose]
  | (k, v) :: o' =>
      Json.TStr k :: Json.TColon :: token_of v :: Json.TComma :: member_tokens o'
  end.

Definition ascii_text (s : jsstring) : bool := forallb (fun c => c <? 128) s.

Definition claims_of (payload : Json.object) (span now : N) : Json.object :=
  payload ++ [(js "iat", Json.Num (now / 1000));
              (js "exp", Json.Num (now / 1000 + span))].

Definition token_of_claims (claims : Json.object) (secret : jsstring) : jsstring :=
  let input := Jwt.segment Jwt.header ++ [Jwt.dot] ++ Jwt.segment claims in
  input ++ [Jwt.dot] ++ Jwt.signature secret input.

Definition lower_hex_char (c : N) : bool :=
  ((48 <=? c) && (c <=? 57)) || ((97 <=? c) && (c <=? 102)).

Definition access_claims (env : Env) (now : N) (userId : ObjectId.t) : Json.object :=
  claims_of [Auth.user_claim userId] (or_span (JWT_EXPIRES_IN env) 3600) now.

Definition refresh_claims (env : Env) (now : N) (userId : ObjectId.t) : Json.object :=
  claims_of [Auth.user_claim userId; (js "type", Json.Str (js "refresh"))]
            (or_span (JWT_REFRESH_EXPIRES_IN env) 604800) now.

Definition foreign (owner : ObjectId.t) (d : Todo.t) : bool :=
  negb (Todo.owned_by owner d).

Definition not_found : TodoController.response :=
  {| TodoController.status := 404;
     TodoController.payload := TodoController.Failure (js "Todo not found") None |}.

Definition refreshed (accessToken : jsstring) : AuthController.response :=
  {| AuthController.status := 200;
     AuthController.cookie := Some accessToken;
     AuthController.payload :=
       AuthController.Refreshed (js "Token refreshed successfully") accessToken |}.

(** ** Refresh-token rows of the C# store *)

Module Rotation.
Import CSharp.

Definition named (T : jsstring) (rt : RefreshToken) : bool := jsstring_eqb (Token rt) T.

Definition has (T : jsstring) (rts : list RefreshToken) : bool := existsb (named T) rts.

Definition live (T : jsstring) (rts : list RefreshToken) : bool :=
  existsb (fun rt => named T rt && negb (IsRevoked rt)) rts.

Definition count (T : jsstring) (rts : list RefreshToken) : nat :=
  length (filter (named T) rts).

(** [T] is in the store and no row with it can be used again. *)
Definition spent (T : jsstring) (users : list User) : Prop :=
  token_stored T users = true
  /\ forall u, In u users -> live T (RefreshTokens u) = false.

(** [T] is held at most once by a user, and only by users with key [id]. *)
Definition single (T : jsstring) (id : Guid) (users : list User) : Prop :=
  forall u, In u users ->
    (count T (RefreshTokens u) <= 1)%nat
    /\ (has T (RefreshTokens u) = true -> user_Id u = id).

Definition row (RefreshTokenExpirationDays now : N) (guid userId : Guid) (token : jsstring) : RefreshToken :=
  {| rt_Id := guid; rt_UserId := userId; Token := token;
     ExpiresAt := now + RefreshTokenExpirationDays * 86400000;
     rt_CreatedAt := now; IsRevoked := false |}.

Definition add_row (RefreshTokenExpirationDays now : N) (guid userId : Guid) (token : jsstring) (u : User) : User :=
  with_tokens u (RefreshTokens u ++ [row RefreshTokenExpirationDays now guid userId token]).

(** The store right after [T] was issued to the users with key [id]. *)
Definition just_issued (RefreshTokenExpirationDays : N) (T : jsstring) (id : Guid) (now : N) (users : list User) : Prop :=
  single T id users
  /\ exists u, In u users
       /\ forall later, later < now + RefreshTokenExpirationDays * 86400000 ->
                        existsb (usable T later) (RefreshTokens u) = true.

End Rotation.

(** * Values for the examples *)

Module Example.

Definition key : buffer := map (fun i => byte_of_N (N.of_nat i)) (seq 0 32).

Definition env : Env :=
  {| AES_KEY := Some (Base64.encode key);
     JWT_SECRET := Some (js "an example secret for signing");
     JWT_REFRESH_SECRET := None;
     JWT_EXPIRES_IN := None;
     JWT_REFRESH_EXPIRES_IN := None |}.

Definition alice : ObjectId.t := map byte_of_N [100; 183; 240; 194; 161; 211; 228; 245; 166; 183; 200; 217].
Definition bob : ObjectId.t := map byte_of_N [100; 183; 240; 194; 161; 211; 228; 245; 166; 183; 200; 218].
Definition first_id : ObjectId.t := map byte_of_N [101; 1; 2; 3; 4; 5; 6; 7; 8; 9; 10; 11].
Definition second_id : ObjectId.t := map byte_of_N [101; 1; 2; 3; 4; 5; 6; 7; 8; 9; 10; 12].

(** What [encrypt] returns for the text 'buy milk' under the example key. *)
Definition sealed_milk : Crypto.encrypted :=
  Eval vm_compute in
    match Crypto.encrypt env 0x0102030405060708090a0b0c (js "buy milk") with
    | inr e => e
    | inl _ => {| Crypto.encryptedContent := []; Crypto.iv := []; Crypto.authTag := [] |}
    end.

Definition milk_digest : jsstring := Eval vm_compute in Hash.computeSHA256 (js "buy milk").

(** The record [createTodo] stores for it. *)
Definition milk : Todo.t :=
  {| Todo._id := first_id; Todo.userId := alice;
     Todo.encryptedContent := Crypto.encryptedContent sealed_milk;
     Todo.iv := Crypto.iv sealed_milk; Todo.authTag := Crypto.authTag sealed_milk;
     Todo.integrityHash := milk_digest;
     Todo.createdAt := 1700000000000; Todo.updatedAt := 1700000000000 |}.

Definition with_tag (d : Todo.t) (tag : jsstring) : Todo.t :=
  {| Todo._id := Todo._id d; Todo.userId := Todo.userId d;
     Todo.encryptedContent := Todo.encryptedContent d; Todo.iv := Todo.iv d;
     Todo.authTag := tag; Todo.integrityHash := Todo.integrityHash d;
     Todo.createdAt := Todo.createdAt d; Todo.updatedAt := Todo.updatedAt d |}.

Definition with_hash (d : Todo.t) (hash : jsstring) : Todo.t :=
  {| Todo._id := Todo._id d; Todo.userId := Todo.userId d;
     Todo.encryptedContent := Todo.encryptedContent d; Todo.iv := Todo.iv d;
     Todo.authTag := Todo.authTag d; Todo.integrityHash := hash;
     Todo.createdAt := Todo.createdAt d; Todo.updatedAt := Todo.updatedAt d |}.

(** The same record with a tag of sixteen zero bytes, and with the digest
    in capitals. *)
Definition milk_bad_tag : Todo.t := with_tag milk (Base64.encode (repeat zero 16)).
Definition milk_capitals : Todo.t := with_hash milk (Hex.to_upper milk_digest).

Definition bobs : Todo.t :=
  {| Todo._id := second_id; Todo.userId := bob;
     Todo.encryptedContent := Todo.encryptedContent milk; Todo.iv := Todo.iv milk;
     Todo.authTag := Todo.authTag milk; Todo.integrityHash := Todo.integrityHash milk;
     Todo.createdAt := 1700000005000; Todo.updatedAt := 1700000005000 |}.

Definition store : list Todo.t := [milk; bobs].

(** A bcrypt that takes every password: what is proved with it holds
    whatever bcrypt answers. *)
Definition lenient : bcrypt :=
  {| bcrypt_hash := fun password _ => password;
     bcrypt_compare := fun _ _ => true |}.

Definition google_user : User.t :=
  {| User._id := bob; User.username := js "bob"; User.email := js "bob@example.com";
     User.passwordHash := None; User.googleId := Some (js "1234567890");
     User.createdAt := 1700000000000 |}.

Definition alice_user : User.t :=
  {| User._id := alice; User.username := js "alice"; User.email := js "alice@example.com";
     User.passwordHash := Some (js "Passw0rd1"); User.googleId := None;
     User.createdAt := 1700000000000 |}.

End Example.

(** * Two sessions, one against each implementation *)

Module Scenario.

(** A user of the port with a password, and services that accept it. *)
Definition carol : CSharp.User :=
  {| CSharp.user_Id := 1; CSharp.Username := js "carol";
     CSharp.Email := js "carol@example.com";
     CSharp.PasswordHash := Some (js "$2a$12$digest"); CSharp.GoogleId := None;
     CSharp.user_CreatedAt := 1700000000000; CSharp.user_UpdatedAt := 1700000000000;
     CSharp.RefreshTokens := [] |}.

Definition accept (password hash : jsstring) : bool := true.
Definition access (id : CSharp.Guid) (email : jsstring) (now : N) : jsstring := email.
Definition hashed (password : jsstring) (salt : N) : jsstring := password.

Definition login :=
  CSharp.LoginAsync accept access 7 [carol] 1700000000000 11 (js "first-token")
                    (js "carol@example.com") (js "Passw0rd1").



(** Alice registers with the Node.js application. *)
Definition registration :=
  AuthController.register Example.lenient Example.env [] 1700000000000 Example.alice 0
                          (js "alice@example.com") (js "alice") (js "Passw0rd1").

Definition issued_refresh_token : jsstring :=
  match AuthController.payload (fst registration) with
  | AuthController.Tokens _ _ _ refreshToken => refreshToken
  | _ => []
  end.

End Scenario.

From Stdlib Require Import Sorted Permutation.

(** * More of the Node.js application *)

(** ** middleware/auth.js: the [authenticate] middleware *)

Module Middleware.

(** What [authenticate] reads of a request: the Authorization header and,
    when cookie-parser has put [req.cookies] there, its [token] entry. *)
Record request := {
  authorization : option jsstring;
  cookies : option (option jsstring)
}.

Definition startsWith (s prefix : jsstring) : bool :=
  jsstring_eqb (firstn (length prefix) s) prefix.

Definition substring (start : nat) (s : jsstring) : jsstring := skipn start s.

(** Either [next()] with the user attached, or the answer sent. *)
Inductive outcome :=
| Next (user : User.t)
| Reply (status : N) (error : jsstring).

Definition bearer (req : request) : option jsstring :=
  match authorization req with
  | Some (c :: h) =>
      if startsWith (c :: h) (js "Bearer ") then Some (substring 7 (c :: h)) else None
  | _ => None
  end.

Definition token_of (req : request) : option jsstring :=
  let token := bearer req in
  if negb (truthy token) then
    match cookies req with
    | Some (Some (c :: t)) => Some (c :: t)
    | _ => token
    end
  else token.

Definition authenticate (env : Env) (users : list User.t) (now : N) (req : request)
  : outcome :=
  match token_of req with
  | Some (c :: t) =>
      match Jwt.verify (c :: t) (JWT_SECRET env) now with
      | inl (Jwt.TokenExpiredError _) => Reply 401 (js "Token expired. Please login again.")
      | inl (Jwt.JsonWebTokenError _) => Reply 401 (js "Invalid token.")
      | inr decoded =>
          match User.findById users (Json.get (js "userId") decoded) with
          | inl _ => Reply 500 (js "Authentication failed.")
          | inr None => Reply 401 (js "User not found.")
          | inr (Some user) => Next user
          end
      end
  | _ => Reply 401 (js "Authentication required. No token provided.")
  end.

End Middleware.

(** ** middleware/validation.js: the check of an id in the path *)

Module Validation.

Record detail := { field : jsstring; message : jsstring }.

Definition is_hex_digit (c : N) : bool :=
  ((48 <=? c) && (c <=? 57)) || ((97 <=? c) && (c <=? 102))
  || ((65 <=? c) && (c <=? 70)).

(** [/^[0-9a-fA-F]{24}$/] *)
Definition object_id_pattern (id : jsstring) : bool :=
  Nat.eqb (length id) 24 && forallb is_hex_digit id.

(** The errors the chain of [validateObjectId] records for [req.params.id]. *)
Definition validateObjectId (id : jsstring) : list detail :=
  if object_id_pattern id then []
  else [{| field := js "id"; message := js "Invalid ID format" |}].

End Validation.

(** ** routes/todoRoutes.js: the to-do routes behind their middleware *)

Module TodoRoutes.

Inductive reply :=
| Rejected (status : N) (error : jsstring)
| ValidationFailed (details : list Validation.detail)
| Handled (r : TodoController.response).

(** [validate]: 400 with the details when the chain recorded any error. *)
Definition validate (errors : list Validation.detail) (next : reply * list Todo.t)
           (store : list Todo.t) : reply * list Todo.t :=
  match errors with
  | [] => next
  | _ :: _ => (ValidationFailed errors, store)
  end.

(** GET /api/todos *)
Definition get (env : Env) (users : list User.t) (store : list Todo.t) (now : N)
           (req : Middleware.request) : reply :=
  match Middleware.authenticate env users now req with
  | Middleware.Reply status error => Rejected status error
  | Middleware.Next user =>
      Handled (TodoController.getTodos env store (User._id user))
  end.

(** DELETE /api/todos/:id *)
Definition delete (env : Env) (users : list User.t) (store : list Todo.t) (now : N)
           (req : Middleware.request) (id : jsstring) : reply * list Todo.t :=
  match Middleware.authenticate env users now req with
  | Middleware.Reply status error => (Rejected status error, store)
  | Middleware.Next user =>
      validate (Validation.validateObjectId id)
               (let (r, store') := TodoController.deleteTodo store (User._id user) id in
                (Handled r, store'))
               store
  end.

End TodoRoutes.

(** * More of the C# port *)

(** ** CryptoService *)

Module CryptoService.

(** [Convert.FromBase64String]: blanks, tabs and line ends are skipped;
    what is left must be groups of four characters of the standard
    alphabet, with '=' only as the last one or two characters of the last
    group.  [None] is the FormatException. *)
Definition is_white (c : N) : bool :=
  (c =? 32) || (c =? 9) || (c =? 10) || (c =? 13).

Definition sextet (c : N) : option N :=
  if (65 <=? c) && (c <=? 90) then Some (c - 65)
  else if (97 <=? c) && (c <=? 122) then Some (c - 71)
  else if (48 <=? c) && (c <=? 57) then Some (c + 4)
  else if c =? 43 then Some 62
  else if c =? 47 then Some 63
  else None.

Definition last_quad (a b c d : N) : option buffer :=
  match sextet a, sextet b with
  | Some x, Some y =>
      if d =? Base64.pad then
        if c =? Base64.pad then Some [byte_of_N ((x * 64 + y) / 16)]
        else match sextet c with
             | Some z =>
                 let n := (x * 64 + y) * 64 + z in
                 Some [byte_of_N (n / 1024); byte_of_N ((n / 4) mod 256)]
             | None => None
             end
      else match sextet c, sextet d with
           | Some z, Some w =>
               let n := ((x * 64 + y) * 64 + z) * 64 + w in
               Some [byte_of_N (n / 65536); byte_of_N ((n / 256) mod 256);
                     byte_of_N (n mod 256)]
           | _, _ => None
           end
  | _, _ => None
  end.

Fixpoint quads (s : jsstring) : option buffer :=
  match s with
  | [] => Some []
  | a :: b :: c :: d :: rest =>
      match rest with
      | [] => last_quad a b c d
      | _ :: _ =>
          match sextet a, sextet b, sextet c, sextet d, quads rest with
          | Some x, Some y, Some z, Some w, Some bs =>
              let n := ((x * 64 + y) * 64 + z) * 64 + w in
              Some (byte_of_N (n / 65536) :: byte_of_N ((n / 256) mod 256)
                      :: byte_of_N (n mod 256) :: bs)
          | _, _, _, _, _ => None
          end
      end
  | _ => None
  end.

Definition FromBase64String (s : jsstring) : option buffer :=
  quads (filter (fun c => negb (is_white c)) s).

Definition ToBase64String (bs : buffer) : jsstring := Base64.encode bs.

Definition IVLength : nat := 12.
Definition AuthTagLength : nat := 16.

Inductive failure :=
| InvalidOperationException (message : jsstring)
| FormatException.

(** The constructor: the key it keeps, or what it throws.  [base64Key] is
    [configuration["EncryptionSettings:AesKey"]]. *)
Definition create (base64Key : option jsstring) : failure + buffer :=
  match base64Key with
  | Some (c :: s) =>
      match FromBase64String (c :: s) with
      | None => inl FormatException
      | Some aesKey =>
          if negb (Nat.eqb (length aesKey) 32) then
            inl (InvalidOperationException
                   (js "AES key must be 32 bytes (256 bits), got "
                      ++ Decimal10.print (N.of_nat (length aesKey)) ++ js " bytes"))
          else inr aesKey
      end
  | _ => inl (InvalidOperationException (js "AES_KEY is not configured"))
  end.

(** [Encrypt] under the key the constructor kept; [entropy] is what
    [RandomNumberGenerator.Fill] draws. *)
Definition Encrypt (aesKey : buffer) (entropy : N) (plaintext : jsstring)
  : jsstring * jsstring * jsstring :=
  let iv := randomBytes IVLength entropy in
  let plaintextBytes := Utf8.encode plaintext in
  let (ciphertext, authTag) := Gcm.seal (Aes.encrypt_block aesKey) iv plaintextBytes in
  (ToBase64String ciphertext, ToBase64String iv, ToBase64String authTag).

(** Why [Decrypt] threw; each one reaches the caller as an
    InvalidOperationException 'Decryption failed: ...'. *)
Inductive cause :=
| BadFormat
| BadNonceSize
| BadTagSize
| TagMismatch.

Definition Decrypt (aesKey : buffer) (encryptedContent ivBase64 authTagBase64 : jsstring)
  : cause + jsstring :=
  match FromBase64String encryptedContent, FromBase64String ivBase64,
        FromBase64String authTagBase64 with
  | Some ciphertext, Some iv, Some authTag =>
      if negb (Nat.eqb (length iv) IVLength) then inl BadNonceSize
      else if negb (Nat.eqb (length authTag) AuthTagLength) then inl BadTagSize
      else match Gcm.open (Aes.encrypt_block aesKey) iv ciphertext authTag with
           | Some plaintext => inr (Utf8.decode plaintext)
           | None => inl TagMismatch
           end
  | _, _, _ => inl BadFormat
  end.

(** [Decrypt] as TodoService sees it: the text, or the message thrown. *)
Definition decrypt_for (aesKey : buffer) (c i t : jsstring) : jsstring + jsstring :=
  match Decrypt aesKey c i t with
  | inr plaintext => inr plaintext
  | inl _ => inl (js "Decryption failed")
  end.

End CryptoService.

(** ** TodoRepository *)

Module TodoRepository.
Import CSharp.

(** [OrderByDescending(t => t.CreatedAt)]; rows of one instant are taken
    in stored order. *)
Fixpoint insert_latest (t : Todo) (l : list Todo) : list Todo :=
  match l with
  | [] => [t]
  | x :: l' =>
      if CreatedAt x <=? CreatedAt t then t :: l else x :: insert_latest t l'
  end.

Definition GetByUserIdAsync (todos : list Todo) (userId : Guid) : list Todo :=
  fold_right insert_latest [] (filter (fun t => UserId t =? userId) todos).

Definition GetByIdAndUserIdAsync (todos : list Todo) (id userId : Guid) : option Todo :=
  find (fun t => (Id t =? id) && (UserId t =? userId)) todos.

End TodoRepository.

(** ** TodoService *)

Module TodoService.
Import CSharp.

Definition TodoNotFound : jsstring := js "Todo not found".

Section Service.

(** What the service is constructed with: the key CryptoService holds,
    and the three writes of the generic repository, each with the
    SaveChangesAsync that follows it. *)
Variable aesKey : buffer.
Variable Todos_AddAsync : list Todo -> Todo -> list Todo.
Variable Todos_UpdateAsync : list Todo -> Todo -> list Todo.
Variable Todos_DeleteAsync : list Todo -> Todo -> list Todo.

Definition DecryptTodoAsync : Todo -> TodoDto :=
  CSharp.DecryptTodoAsync (CryptoService.decrypt_for aesKey).

Definition GetAllAsync (todos : list Todo) (userId : Guid) : list TodoDto :=
  fold_left (fun result todo => result ++ [DecryptTodoAsync todo])
            (TodoRepository.GetByUserIdAsync todos userId) [].

Definition GetByIdAsync (todos : list Todo) (id userId : Guid) : option TodoDto :=
  match TodoRepository.GetByIdAndUserIdAsync todos id userId with
  | None => None
  | Some todo => Some (DecryptTodoAsync todo)
  end.

(** The entity [CreateAsync] builds; [id] is what [Guid.NewGuid()]
    returned, [entropy] what the nonce is drawn from. *)
Definition new_todo (now : N) (id : Guid) (entropy : N) (Content : jsstring)
           (userId : Guid) : Todo :=
  let integrityHash := HashService.ComputeSHA256 Content in
  match CryptoService.Encrypt aesKey entropy Content with
  | (encryptedContent, iv, authTag) =>
      {| Id := id; UserId := userId; EncryptedContent := encryptedContent;
         IV := iv; AuthTag := authTag; IntegrityHash := integrityHash;
         CreatedAt := now; UpdatedAt := now |}
  end.

Definition CreateAsync (todos : list Todo) (now : N) (id : Guid) (entropy : N)
           (Content : jsstring) (userId : Guid) : TodoDto * list Todo :=
  let todo := new_todo now id entropy Content userId in
  ({| dto_Id := Id todo; CSharp.Content := Content; Tampered := false;
      dto_CreatedAt := CreatedAt todo; dto_UpdatedAt := UpdatedAt todo |},
   Todos_AddAsync todos todo).

Definition UpdateAsync (todos : list Todo) (now : N) (entropy : N) (id : Guid)
           (Content : jsstring) (userId : Guid) : (exn + TodoDto) * list Todo :=
  match TodoRepository.GetByIdAndUserIdAsync todos id userId with
  | None => (inl (NotFoundException TodoNotFound), todos)
  | Some todo =>
      let integrityHash := HashService.ComputeSHA256 Content in
      match CryptoService.Encrypt aesKey entropy Content with
      | (encryptedContent, iv, authTag) =>
          let todo' :=
            {| Id := Id todo; UserId := UserId todo;
               EncryptedContent := encryptedContent; IV := iv; AuthTag := authTag;
               IntegrityHash := integrityHash;
               CreatedAt := CreatedAt todo; UpdatedAt := now |} in
          (inr {| dto_Id := Id todo'; CSharp.Content := Content; Tampered := false;
                  dto_CreatedAt := CreatedAt todo'; dto_UpdatedAt := UpdatedAt todo' |},
           Todos_UpdateAsync todos todo')
      end
  end.

Definition DeleteAsync (todos : list Todo) (id userId : Guid)
  : (exn + unit) * list Todo :=
  match TodoRepository.GetByIdAndUserIdAsync todos id userId with
  | None => (inl (NotFoundException TodoNotFound), todos)
  | Some todo => (inr tt, Todos_DeleteAsync todos todo)
  end.

End Service.
End TodoService.

(** ** TodosController *)

Module TodosController.
Import CSharp.

Inductive data :=
| NoData
| Text (s : jsstring)
| One (todo : TodoDto)
| Many (todos : list TodoDto).

(** An action's answer: the status and the [Result<T>] in the body. *)
Record response := {
  status : N;
  Success : bool;
  Data : data;
  Message : jsstring;
  Errors : list jsstring
}.

Definition SuccessResult (code : N) (d : data) (message : jsstring) : response :=
  {| status := code; Success := true; Data := d; Message := message; Errors := [] |}.

Definition FailureResult (code : N) (message error : jsstring) : response :=
  {| status := code; Success := false; Data := NoData; Message := message;
     Errors := [error] |}.

Definition starts_with (s sub : jsstring) : bool :=
  jsstring_eqb (firstn (length sub) s) sub.

(** [s.Contains(sub)], by code units. *)
Fixpoint Contains (s sub : jsstring) : bool :=
  starts_with s sub
  || match s with
     | [] => false
     | _ :: s' => Contains s' sub
     end.

Definition ex_Message (e : exn) : jsstring :=
  match e with
  | BusinessException m | NotFoundException m | UnauthorizedException m => m
  | DbUpdateException =>
      js "An error occurred while saving the entity changes. See the inner exception for details."
  end.

Section Controller.

Variable aesKey : buffer.
Variable Todos_AddAsync : list Todo -> Todo -> list Todo.
Variable Todos_UpdateAsync : list Todo -> Todo -> list Todo.
Variable Todos_DeleteAsync : list Todo -> Todo -> list Todo.

(** [userId] is what [GetUserId()] reads from the caller's claims. *)
Definition GetAll (todos : list Todo) (userId : Guid) : response :=
  SuccessResult 200 (Many (TodoService.GetAllAsync aesKey todos userId))
                (js "Todos retrieved successfully").

Definition GetById (todos : list Todo) (userId id : Guid) : response :=
  match TodoService.GetByIdAsync aesKey todos id userId with
  | None => FailureResult 404 (js "Todo not found") (js "The requested todo does not exist")
  | Some todo => SuccessResult 200 (One todo) (js "Todo retrieved successfully")
  end.

Definition Create (todos : list Todo) (now : N) (fresh : Guid) (entropy : N)
           (userId : Guid) (Content : jsstring) : response * list Todo :=
  let (todo, todos') :=
    TodoService.CreateAsync aesKey Todos_AddAsync todos now fresh entropy Content userId in
  (SuccessResult 201 (One todo) (js "Todo created successfully"), todos').

Definition Update (todos : list Todo) (now entropy : N) (userId id : Guid)
           (Content : jsstring) : response * list Todo :=
  match TodoService.UpdateAsync aesKey Todos_UpdateAsync todos now entropy id Content userId
  with
  | (inr todo, todos') =>
      (SuccessResult 200 (One todo) (js "Todo updated successfully"), todos')
  | (inl ex, todos') =>
      if Contains (ex_Message ex) (js "not found") then
        (FailureResult 404 (js "Todo not found") (ex_Message ex), todos')
      else (FailureResult 500 (js "Failed to update todo") (ex_Message ex), todos')
  end.

Definition Delete (todos : list Todo) (userId id : Guid) : response * list Todo :=
  match TodoService.DeleteAsync Todos_DeleteAsync todos id userId with
  | (inr _, todos') =>
      (SuccessResult 200 (Text (js "Todo deleted successfully"))
                     (js "Todo deleted successfully"), todos')
  | (inl ex, todos') =>
      if Contains (ex_Message ex) (js "not found") then
        (FailureResult 404 (js "Todo not found") (ex_Message ex), todos')
      else (FailureResult 500 (js "Failed to delete todo") (ex_Message ex), todos')
  end.

End Controller.
End TodosController.

(** ** Vocabulary of the further properties *)

Definition not_older (a b : Todo.t) : Prop := Todo.createdAt b <= Todo.createdAt a.

(** The user [register] stores. *)
Definition registered (lib : bcrypt) (now : N) (fresh : ObjectId.t) (salt : N)
           (email username password : jsstring) : User.t :=
  {| User._id := fresh; User.username := User.cast_username username;
     User.email := User.cast_email email;
     User.passwordHash := Some (bcrypt_hash lib password salt);
     User.googleId := None; User.createdAt := now |}.

(** A bcrypt that knows one password. *)
Definition strict : bcrypt :=
  {| bcrypt_hash := fun password salt => js "$2b$12$" ++ password;
     bcrypt_compare := fun candidate hash =>
                         jsstring_eqb hash (js "$2b$12$" ++ candidate) |}.

(** A row with one field replaced, as a write to the database would. *)
Definition with_AuthTag (t : CSharp.Todo) (tag : jsstring) : CSharp.Todo :=
  {| CSharp.Id := CSharp.Id t; CSharp.UserId := CSharp.UserId t;
     CSharp.EncryptedContent := CSharp.EncryptedContent t;
     CSharp.IV := CSharp.IV t; CSharp.AuthTag := tag;
     CSharp.IntegrityHash := CSharp.IntegrityHash t;
     CSharp.CreatedAt := CSharp.CreatedAt t; CSharp.UpdatedAt := CSharp.UpdatedAt t |}.

Definition with_IntegrityHash (t : CSharp.Todo) (hash : jsstring) : CSharp.Todo :=
  {| CSharp.Id := CSharp.Id t; CSharp.UserId := CSharp.UserId t;
     CSharp.EncryptedContent := CSharp.EncryptedContent t;
     CSharp.IV := CSharp.IV t; CSharp.AuthTag := CSharp.AuthTag t;
     CSharp.IntegrityHash := hash;
     CSharp.CreatedAt := CSharp.CreatedAt t; CSharp.UpdatedAt := CSharp.UpdatedAt t |}.

Module Sessions.
Import CSharp Rotation.

(** The rows that carry a token just issued all expire when it does. *)
Definition expires_at (T : jsstring) (expiry : N) (users : list User) : Prop :=
  forall u rt, In u users -> In rt (RefreshTokens u) -> named T rt = true ->
               ExpiresAt rt = expiry.

Definition email_key (u : User) : jsstring := ToLower (Email u).

Definition keeps_email (f : User -> User) : Prop :=
  forall u, Email (f u) = Email u /\ PasswordHash (f u) = PasswordHash u.

End Sessions.

(** * Properties *)

(** * Facts about buffers and strings *)

Lemma N_of_byte_bound (b : byte) : N_of_byte b < 256.
Proof. apply N_ascii_bounded. Qed.

Lemma byte_of_N_of_byte (b : byte) : byte_of_N (N_of_byte b) = b.
Proof. apply ascii_N_embedding. Qed.

Lemma byte_of_N_eq (n : N) (b : byte) : n = N_of_byte b -> byte_of_N n = b.
Proof. intros ->. apply byte_of_N_of_byte. Qed.

Lemma N_of_byte_of_N (n : N) : n < 256 -> N_of_byte (byte_of_N n) = n.
Proof. apply N_ascii_embedding. Qed.

Lemma jsstring_eqb_eq (a b : jsstring) : jsstring_eqb a b = true <-> a = b.
Proof.
  revert b; induction a as [|x a IH]; intros [|y b]; simpl; try easy.
  rewrite andb_true_iff, N.eqb_eq, IH.
  split; [intros [-> ->]; reflexivity | intros H; inversion H; auto].
Qed.

Lemma jsstring_eqb_refl (a : jsstring) : jsstring_eqb a a = true.
Proof. apply jsstring_eqb_eq; reflexivity. Qed.

Lemma buffer_eqb_eq (a b : buffer) : buffer_eqb a b = true <-> a = b.
Proof.
  revert b; induction a as [|x a IH]; intros [|y b]; simpl; try easy.
  rewrite andb_true_iff, Ascii.eqb_eq, IH.
  split; [intros [-> ->]; reflexivity | intros H; inversion H; auto].
Qed.

Lemma bxor_involutive (a p : byte) : bxor (bxor a p) p = a.
Proof.
  destruct a, p; simpl.
  repeat match goal with |- context [xorb (xorb ?x ?y) ?y] =>
    replace (xorb (xorb x y) y) with x by (destruct x, y; reflexivity) end.
  reflexivity.
Qed.

Lemma xor_with_length (data pad : buffer) :
  length (xor_with data pad) = length data.
Proof.
  revert pad; induction data as [|d data IH]; intros [|p pad]; simpl; auto.
Qed.

Lemma xor_with_involutive (data pad : buffer) :
  (length data <= length pad)%nat -> xor_with (xor_with data pad) pad = data.
Proof.
  revert pad; induction data as [|d data IH]; intros [|p pad] H; simpl in *;
    try reflexivity; try lia.
  rewrite bxor_involutive, IH by lia. reflexivity.
Qed.

(** Induction over a list three elements at a time. *)
Lemma list_ind3 {A} (P : list A -> Prop) :
  P [] -> (forall a, P [a]) -> (forall a b, P [a; b]) ->
  (forall a b c l, P l -> P (a :: b :: c :: l)) ->
  forall l, P l.
Proof.
  intros H0 H1 H2 H3.
  assert (H : forall l, P l /\ (forall a, P (a :: l)) /\ (forall a b, P (a :: b :: l))).
  { induction l as [|x l [Ha [Hb Hc]]]; repeat split; auto. }
  intros l; apply H.
Qed.

(** * Base64 *)

Lemma unbase64_digit (s : N) :
  s < 64 -> Base64.unbase64 (Base64.digit Base64.alphabet s) = Some s.
Proof.
  intros H.
  assert (E : forallb (fun k => match Base64.unbase64 (Base64.digit Base64.alphabet (N.of_nat k)) with
                                | Some v => v =? N.of_nat k | None => false end)
                      (seq 0 64) = true) by (vm_compute; reflexivity).
  rewrite forallb_forall in E.
  specialize (E (N.to_nat s)). rewrite N2Nat.id in E.
  destruct (Base64.unbase64 _) as [v|].
  - f_equal. apply N.eqb_eq, E, in_seq. lia.
  - discriminate E. apply in_seq. lia.
Qed.

Lemma unbase64_url_digit (s : N) :
  s < 64 -> Base64.unbase64 (Base64.digit Base64.url_alphabet s) = Some s.
Proof.
  intros H.
  assert (E : forallb (fun k => match Base64.unbase64 (Base64.digit Base64.url_alphabet (N.of_nat k)) with
                                | Some v => v =? N.of_nat k | None => false end)
                      (seq 0 64) = true) by (vm_compute; reflexivity).
  rewrite forallb_forall in E.
  specialize (E (N.to_nat s)). rewrite N2Nat.id in E.
  destruct (Base64.unbase64 _) as [v|].
  - f_equal. apply N.eqb_eq, E, in_seq. lia.
  - discriminate E. apply in_seq. lia.
Qed.

Lemma digit_not_pad (table : jsstring) (s : N) :
  Base64.unbase64 (Base64.digit table s) = Some s ->
  (Base64.digit table s =? Base64.pad) = false.
Proof.
  intros H. destruct (N.eqb_spec (Base64.digit table s) Base64.pad) as [E|]; auto.
  rewrite E in H. discriminate H.
Qed.

Section Base64_roundtrip.

Variable table : jsstring.
Variable padding : bool.
Hypothesis table_ok :
  forall s, s < 64 -> Base64.unbase64 (Base64.digit table s) = Some s.

Lemma sextets_digit (s : N) (rest : jsstring) :
  s < 64 ->
  Base64.sextets (Base64.digit table s :: rest) = s :: Base64.sextets rest.
Proof.
  intros H. simpl.
  rewrite (digit_not_pad _ _ (table_ok s H)), (table_ok s H). reflexivity.
Qed.

Lemma decode_encode_with (bs : buffer) :
  Base64.decode (Base64.encode_with table padding bs) = bs.
Proof.
  unfold Base64.decode.
  induction bs as [|a|a b|a b c l IH] using list_ind3;
    cbn [Base64.encode_with];
    try pose proof (N_of_byte_bound a);
    try pose proof (N_of_byte_bound b);
    try pose proof (N_of_byte_bound c);
    rewrite ?sextets_digit by lia;
    try replace (Base64.sextets (if padding then _ else _)) with (@nil N)
      by (destruct padding; reflexivity);
    cbn [Base64.group]; rewrite ?IH;
    repeat (f_equal; try (apply byte_of_N_eq; lia)); reflexivity.
Qed.

End Base64_roundtrip.

Lemma base64_decode_encode (bs : buffer) : Base64.decode (Base64.encode bs) = bs.
Proof. apply decode_encode_with, unbase64_digit. Qed.

Lemma base64_decode_encode_url (bs : buffer) :
  Base64.decode (Base64.encode_url bs) = bs.
Proof. apply decode_encode_with, unbase64_url_digit. Qed.

(** * UTF-8 *)

(** Settle every comparison of the goal that arithmetic decides. *)
Ltac decide_tests :=
  repeat match goal with
    | |- context [?a <? ?b] =>
        first [ replace (a <? b) with true by (symmetry; apply N.ltb_lt; lia)
              | replace (a <? b) with false by (symmetry; apply N.ltb_ge; lia) ]
    | |- context [?a <=? ?b] =>
        first [ replace (a <=? b) with true by (symmetry; apply N.leb_le; lia)
              | replace (a <=? b) with false by (symmetry; apply N.leb_gt; lia) ]
    | |- context [?a =? ?b] =>
        first [ replace (a =? b) with true by (symmetry; apply N.eqb_eq; lia)
              | replace (a =? b) with false by (symmetry; apply N.eqb_neq; lia) ]
    end.

(** Turn the comparisons among the hypotheses into arithmetic. *)
Ltac read_tests :=
  repeat match goal with
    | H : _ && _ = true |- _ => apply andb_true_iff in H; destruct H
    | H : _ && _ = false |- _ => apply andb_false_iff in H; destruct H
    | H : _ || _ = true |- _ => apply orb_true_iff in H; destruct H
    | H : _ || _ = false |- _ => apply orb_false_iff in H; destruct H
    | H : negb _ = true |- _ => apply negb_true_iff in H
    | H : negb _ = false |- _ => apply negb_false_iff in H
    | H : (_ <=? _) = true |- _ => apply N.leb_le in H
    | H : (_ <=? _) = false |- _ => apply N.leb_gt in H
    | H : (_ <? _) = true |- _ => apply N.ltb_lt in H
    | H : (_ <? _) = false |- _ => apply N.ltb_ge in H
    | H : (_ =? _) = true |- _ => apply N.eqb_eq in H
    | H : (_ =? _) = false |- _ => apply N.eqb_neq in H
    end.

Lemma bytes_of_bound (cp : N) :
  cp < 0x110000 -> Forall (fun b => b < 256) (Utf8.bytes_of cp).
Proof.
  intros H. unfold Utf8.bytes_of.
  destruct (N.ltb_spec cp 0x80); [|destruct (N.ltb_spec cp 0x800);
    [|destruct (N.ltb_spec cp 0x10000)]];
    repeat constructor; lia.
Qed.

Ltac utf8_step :=
  cbn [andb app Utf8.decode_from Utf8.lower Utf8.upper Utf8.acc Utf8.more];
  unfold Utf8.lead, Utf8.units_of; decide_tests.

Lemma decode_bytes_of (cp : N) (rest : list N) :
  scalar cp ->
  Utf8.decode_from None (Utf8.bytes_of cp ++ rest)
  = Utf8.units_of cp ++ Utf8.decode_from None rest.
Proof.
  intros [Hlt Hns]. unfold Utf8.bytes_of.
  destruct (N.ltb_spec cp 0x80); [|destruct (N.ltb_spec cp 0x800);
    [|destruct (N.ltb_spec cp 0x10000)]].
  - do 2 utf8_step. reflexivity.
  - remember (cp / 64) as q1 eqn:E1. remember (cp mod 64) as q2 eqn:E2.
    assert (cp = 64 * q1 + q2 /\ q2 < 64) as [-> ?] by lia. clear E1 E2.
    do 3 utf8_step. cbn [app]. f_equal. lia.
  - remember (cp / 4096) as q1 eqn:E1. remember (cp / 64 mod 64) as q2 eqn:E2.
    remember (cp mod 64) as q3 eqn:E3.
    assert (cp = 4096 * q1 + 64 * q2 + q3 /\ q2 < 64 /\ q3 < 64) as (-> & ? & ?) by lia.
    clear E1 E2 E3.
    utf8_step. utf8_step.
    destruct (N.eqb_spec (0xE0 + q1) 0xE0); destruct (N.eqb_spec (0xE0 + q1) 0xED);
      do 4 utf8_step; cbn [app]; f_equal; lia.
  - remember (cp / 262144) as q1 eqn:E1. remember (cp / 4096 mod 64) as q2 eqn:E2.
    remember (cp / 64 mod 64) as q3 eqn:E3. remember (cp mod 64) as q4 eqn:E4.
    assert (cp = 262144 * q1 + 4096 * q2 + 64 * q3 + q4 /\ q2 < 64 /\ q3 < 64 /\ q4 < 64)
      as (-> & ? & ? & ?) by lia.
    clear E1 E2 E3 E4.
    utf8_step. utf8_step.
    destruct (N.eqb_spec (0xF0 + q1) 0xF0); destruct (N.eqb_spec (0xF0 + q1) 0xF4);
      do 5 utf8_step; cbn [app]; repeat (f_equal; try lia).
Qed.

Lemma encode_units_bound_upto (n : nat) :
  forall s, (length s <= n)%nat -> Utf8.well_formed s = true ->
            Forall (fun b => b < 256) (Utf8.encode_units s).
Proof.
  induction n as [|n IH]; intros [|u s] Hn Hw; simpl in Hn; try lia;
    try constructor.
  cbn [Utf8.encode_units Utf8.well_formed] in *.
  destruct (Utf8.is_high u) eqn:Eh.
  - destruct s as [|v s]; [discriminate|].
    apply andb_true_iff in Hw as [Hl Hw]. rewrite Hl.
    apply Forall_app; split; [|apply IH; [simpl in Hn; lia|exact Hw]].
    apply bytes_of_bound. unfold Utf8.code_point, Utf8.is_high, Utf8.is_low in *.
    read_tests. lia.
  - apply andb_true_iff in Hw as [Hw Hs]. apply andb_true_iff in Hw as [Hl Hu].
    apply negb_true_iff in Hl. rewrite Hl.
    apply Forall_app; split; [|apply IH; [lia|exact Hs]].
    apply bytes_of_bound. unfold code_unit_ok in Hu. read_tests. lia.
Qed.

Lemma decode_encode_units_upto (n : nat) :
  forall s, (length s <= n)%nat -> Utf8.well_formed s = true ->
            Utf8.decode_from None (Utf8.encode_units s) = s.
Proof.
  induction n as [|n IH]; intros [|u s] Hn Hw; simpl in Hn; try lia;
    try reflexivity.
  cbn [Utf8.encode_units Utf8.well_formed] in *.
  destruct (Utf8.is_high u) eqn:Eh.
  - destruct s as [|v s]; [discriminate|].
    apply andb_true_iff in Hw as [Hl Hw]. rewrite Hl.
    unfold Utf8.is_high, Utf8.is_low in *. read_tests.
    rewrite decode_bytes_of by (unfold scalar, Utf8.code_point; lia).
    rewrite IH by (simpl in Hn; auto; lia).
    unfold Utf8.units_of, Utf8.code_point. decide_tests.
    cbn [app]. repeat (f_equal; try lia).
  - apply andb_true_iff in Hw as [Hw Hs]. apply andb_true_iff in Hw as [Hl Hu].
    apply negb_true_iff in Hl. rewrite Hl.
    unfold Utf8.is_high, Utf8.is_low, code_unit_ok in *. read_tests.
    all: rewrite decode_bytes_of by (unfold scalar; lia).
    all: rewrite IH by (auto; lia).
    all: unfold Utf8.units_of; decide_tests; reflexivity.
Qed.

Lemma map_N_of_byte_of_N (l : list N) :
  Forall (fun b => b < 256) l -> map N_of_byte (map byte_of_N l) = l.
Proof.
  induction 1 as [|b l Hb _ IH]; simpl; [reflexivity|].
  rewrite N_of_byte_of_N, IH by exact Hb. reflexivity.
Qed.

Theorem utf8_decode_encode (s : jsstring) :
  Utf8.well_formed s = true -> Utf8.decode (Utf8.encode s) = s.
Proof.
  intros Hw. unfold Utf8.decode, Utf8.encode.
  rewrite map_N_of_byte_of_N by (apply (encode_units_bound_upto (length s)); auto).
  apply (decode_encode_units_upto (length s)); auto.
Qed.

(** * Galois/Counter mode *)

Section Gcm_facts.

Variable E : N -> N.

Lemma block_bytes_length (x : N) : length (Gcm.block_bytes x) = 16%nat.
Proof. reflexivity. Qed.

Lemma stream_length (n : nat) (ctr : N) :
  length (Gcm.stream E n ctr) = (16 * n)%nat.
Proof.
  revert ctr; induction n as [|n IH]; intros ctr; [reflexivity|].
  cbn [Gcm.stream]. rewrite length_app, block_bytes_length, IH. lia.
Qed.

Lemma gctr_length (ctr : N) (data : buffer) :
  length (Gcm.gctr E ctr data) = length data.
Proof. apply xor_with_length. Qed.

Lemma gctr_involutive (ctr : N) (data : buffer) :
  Gcm.gctr E ctr (Gcm.gctr E ctr data) = data.
Proof.
  unfold Gcm.gctr at 1. rewrite gctr_length. unfold Gcm.gctr.
  apply xor_with_involutive. rewrite stream_length.
  pose proof (Nat.div_mod_eq (length data) 16).
  pose proof (Nat.mod_upper_bound (length data) 16). lia.
Qed.

Lemma tag_length (iv c : buffer) : length (Gcm.tag E iv c) = 16%nat.
Proof. reflexivity. Qed.

Lemma open_seal (iv plaintext : buffer) :
  Gcm.open E iv (fst (Gcm.seal E iv plaintext)) (snd (Gcm.seal E iv plaintext))
  = Some plaintext.
Proof.
  unfold Gcm.open, Gcm.seal. cbn [fst snd].
  rewrite firstn_all.
  rewrite (proj2 (buffer_eqb_eq _ _) eq_refl).
  rewrite gctr_involutive. reflexivity.
Qed.

(** Opening never gives bytes for a tag that does not match. *)
Lemma open_checks_tag (iv c t p : buffer) :
  Gcm.open E iv c t = Some p ->
  t = firstn (length t) (Gcm.tag E iv c) /\ p = Gcm.gctr E (Gcm.inc32 (Gcm.j0 E iv)) c.
Proof.
  unfold Gcm.open. destruct (buffer_eqb _ _) eqn:Eq; [|discriminate].
  apply buffer_eqb_eq in Eq. intros [= <-]. split; [exact Eq | reflexivity].
Qed.

End Gcm_facts.

(** * utils/crypto.js *)

Lemma randomBytes_length (n : nat) (entropy : N) :
  length (randomBytes n entropy) = n.
Proof. unfold randomBytes. rewrite length_map, length_rev, length_seq. reflexivity. Qed.

Lemma getEncryptionKey_length (env : Env) (key : buffer) :
  Crypto.getEncryptionKey env = inr key -> length key = 32%nat.
Proof.
  unfold Crypto.getEncryptionKey.
  destruct (AES_KEY env) as [[|c s]|]; try discriminate.
  destruct (Nat.eqb_spec (length (Base64.decode (c :: s))) 32); [|discriminate].
  intros [= <-]. assumption.
Qed.

Lemma decrypt_encrypt (env : Env) (entropy : N) (plaintext : jsstring) (e : Crypto.encrypted) :
  Utf8.well_formed plaintext = true ->
  Crypto.encrypt env entropy plaintext = inr e ->
  Crypto.decrypt env (Crypto.encryptedContent e) (Crypto.iv e) (Crypto.authTag e)
  = inr plaintext.
Proof.
  intros Hw. unfold Crypto.encrypt, Crypto.decrypt.
  destruct (Crypto.getEncryptionKey env) as [m|key]; [discriminate|].
  pose proof (open_seal (Aes.encrypt_block key) (randomBytes Crypto.IV_LENGTH entropy)
                        (Utf8.encode plaintext)) as Ho.
  destruct (Gcm.seal _ _ _) as [c t] eqn:Es. cbn [fst snd] in Ho.
  intros [= <-]. cbn [Crypto.encryptedContent Crypto.iv Crypto.authTag].
  rewrite !base64_decode_encode.
  rewrite randomBytes_length.
  assert (Ht : length t = 16%nat).
  { unfold Gcm.seal in Es. injection Es as _ <-. reflexivity. }
  rewrite Ht. cbn [Crypto.valid_iv_length Crypto.valid_tag_length Crypto.IV_LENGTH
                   Nat.leb Nat.eqb andb orb negb].
  rewrite Ho, utf8_decode_encode by exact Hw. reflexivity.
Qed.

(** * Decimal numerals *)

Lemma digits_from_spec (fuel : nat) :
  forall n acc, 0 < n -> n < 2 ^ N.of_nat fuel ->
  exists d ds,
    Decimal10.digits_from fuel n acc = d :: ds ++ acc
    /\ 49 <= d <= 57
    /\ Forall (fun c => Decimal10.is_digit c = true) ds
    /\ fold_left digit_step (d :: ds) 0 = n.
Proof.
  induction fuel as [|fuel IH]; intros n acc Hpos Hlt.
  - simpl in Hlt. lia.
  - cbn [Decimal10.digits_from].
    destruct (N.ltb_spec n 10) as [Hs|Hb].
    + exists (48 + n mod 10), []. repeat split; try lia; [constructor|].
      cbn [fold_left]. unfold digit_step. lia.
    + assert (Hq : 0 < n / 10) by lia.
      assert (Hf : n / 10 < 2 ^ N.of_nat fuel).
      { rewrite Nat2N.inj_succ, N.pow_succ_r' in Hlt. lia. }
      destruct (IH (n / 10) ((48 + n mod 10) :: acc) Hq Hf)
        as (d & ds & E & Hd & Hds & Hv).
      exists d, (ds ++ [48 + n mod 10]). rewrite E.
      repeat split; try lia.
      * rewrite <- app_assoc. reflexivity.
      * apply Forall_app; split; [exact Hds|].
        constructor; [|constructor]. unfold Decimal10.is_digit.
        apply andb_true_iff; split; [apply N.leb_le | apply N.leb_le]; lia.
      * rewrite app_comm_cons, fold_left_app, Hv. cbn [fold_left].
        unfold digit_step. lia.
Qed.

Lemma print_spec (n : N) :
  0 < n ->
  exists d ds,
    Decimal10.print n = d :: ds
    /\ 49 <= d <= 57
    /\ Forall (fun c => Decimal10.is_digit c = true) ds
    /\ fold_left digit_step (d :: ds) 0 = n.
Proof.
  intros Hpos. unfold Decimal10.print.
  destruct (digits_from_spec (S (N.to_nat (N.log2 n))) n [] Hpos)
    as (d & ds & E & H).
  - rewrite Nat2N.inj_succ, N2Nat.id. apply N.log2_spec, Hpos.
  - exists d, ds. rewrite E, app_nil_r. split; [reflexivity | exact H].
Qed.

Lemma print_zero : Decimal10.print 0 = [48].
Proof. reflexivity. Qed.

(** * JSON *)

Lemma escape_plain (s : jsstring) : plain s = true -> flat_map Json.escape s = s.
Proof.
  induction s as [|c s IH]; simpl; [reflexivity|].
  intros H. apply andb_true_iff in H as [Hc Hs]. rewrite (IH Hs).
  unfold plain_char in Hc. read_tests.
  unfold Json.escape, Json.quote_mark, Json.backslash. decide_tests. reflexivity.
Qed.

Lemma lex_in_string (s acc rest : jsstring) :
  plain s = true ->
  Json.lex (Json.InStr acc) (s ++ Json.quote_mark :: rest)
  = option_map (cons (Json.TStr (rev acc ++ s))) (Json.lex Json.Idle rest).
Proof.
  revert acc; induction s as [|c s IH]; intros acc H.
  - cbn [app Json.lex]. rewrite N.eqb_refl, app_nil_r. reflexivity.
  - simpl in H. apply andb_true_iff in H as [Hc Hs].
    cbn [app Json.lex]. unfold plain_char in Hc. read_tests.
    unfold Json.quote_mark, Json.backslash in *. decide_tests. cbn [orb].
    rewrite (IH (c :: acc) Hs). cbn [rev]. rewrite <- app_assoc. reflexivity.
Qed.

Lemma lex_quote (s rest : jsstring) :
  plain s = true ->
  Json.lex Json.Idle (Json.quote s ++ rest)
  = option_map (cons (Json.TStr s)) (Json.lex Json.Idle rest).
Proof.
  intros H. unfold Json.quote. rewrite (escape_plain s H).
  cbn [app Json.lex]. rewrite N.eqb_refl.
  rewrite <- app_assoc. cbn [app]. apply (lex_in_string s [] rest H).
Qed.

Lemma lex_punct (c : N) (t : Json.token) (rest : jsstring) :
  is_punct c t ->
  Json.lex Json.Idle (c :: rest) = option_map (cons t) (Json.lex Json.Idle rest).
Proof. intros [[-> ->]|[[-> ->]|[[-> ->]|[-> ->]]]]; reflexivity. Qed.

Lemma lex_in_number (ds : jsstring) (v c : N) (t : Json.token) (rest : jsstring) :
  Forall (fun c => Decimal10.is_digit c = true) ds -> is_punct c t ->
  Json.lex (Json.InNum v) (ds ++ c :: rest)
  = option_map (fun ts => Json.TNum (fold_left digit_step ds v) :: t :: ts)
               (Json.lex Json.Idle rest).
Proof.
  intros Hds Hp. revert v. induction Hds as [|d ds Hd _ IH]; intros v.
  - cbn [app Json.lex fold_left].
    destruct Hp as [[-> ->]|[[-> ->]|[[-> ->]|[-> ->]]]]; reflexivity.
  - cbn [app Json.lex fold_left]. rewrite Hd. apply IH.
Qed.

Lemma lex_number (n c : N) (t : Json.token) (rest : jsstring) :
  is_punct c t ->
  Json.lex Json.Idle (Decimal10.print n ++ c :: rest)
  = option_map (fun ts => Json.TNum n :: t :: ts) (Json.lex Json.Idle rest).
Proof.
  intros Hp. destruct (N.eq_dec n 0) as [->|Hn].
  - rewrite print_zero. cbn [app Json.lex].
    destruct Hp as [[-> ->]|[[-> ->]|[[-> ->]|[-> ->]]]]; reflexivity.
  - destruct (print_spec n) as (d & ds & -> & Hd & Hds & Hv); [lia|].
    cbn [app Json.lex]. unfold Json.quote_mark, Decimal10.is_digit.
    decide_tests. cbn [andb].
    rewrite (lex_in_number ds _ c t rest Hds Hp).
    cbn [fold_left] in Hv. unfold digit_step at 2 in Hv.
    replace (10 * 0 + (d - 48)) with (d - 48) in Hv by lia.
    rewrite Hv. reflexivity.
Qed.

Lemma lex_member (k : jsstring) (v : Json.value) (c : N) (t : Json.token)
      (rest : jsstring) :
  plain k = true -> plain_value v = true -> is_punct c t ->
  Json.lex Json.Idle (Json.print_member (k, v) ++ c :: rest)
  = option_map (fun ts => Json.TStr k :: Json.TColon :: token_of v :: t :: ts)
               (Json.lex Json.Idle rest).
Proof.
  intros Hk Hv Hp. unfold Json.print_member. cbn [fst snd].
  rewrite <- !app_assoc. rewrite (lex_quote k _ Hk).
  cbn [app]. rewrite (lex_punct 58 Json.TColon) by (unfold is_punct; auto).
  destruct v as [s|n]; cbn [Json.print_value token_of].
  - rewrite (lex_quote s _ Hv), (lex_punct c t _ Hp).
    destruct (Json.lex Json.Idle rest); reflexivity.
  - rewrite (lex_number n c t rest Hp).
    destruct (Json.lex Json.Idle rest); reflexivity.
Qed.

Lemma lex_members (o : Json.object) :
  o <> [] -> plain_object o = true ->
  Json.lex Json.Idle (Json.print_members o ++ [125]) = Some (member_tokens o).
Proof.
  induction o as [|[k v] o IH]; intros Hne Hp; [contradiction|].
  simpl in Hp. apply andb_true_iff in Hp as [Hm Ho].
  apply andb_true_iff in Hm as [Hk Hv].
  destruct o as [|m o].
  - cbn [Json.print_members member_tokens].
    rewrite (lex_member k v 125 Json.TClose []) by (unfold is_punct; auto).
    reflexivity.
  - change (Json.print_members ((k, v) :: m :: o))
      with (Json.print_member (k, v) ++ [44] ++ Json.print_members (m :: o)).
    change (member_tokens ((k, v) :: m :: o))
      with (Json.TStr k :: Json.TColon :: token_of v :: Json.TComma
              :: member_tokens (m :: o)).
    rewrite <- !app_assoc. cbn [app].
    rewrite (lex_member k v 44 Json.TComma) by (unfold is_punct; auto).
    rewrite IH by (auto; discriminate). reflexivity.
Qed.

Lemma members_tokens (o : Json.object) :
  o <> [] -> Json.members (member_tokens o) = Some o.
Proof.
  induction o as [|[k v] o IH]; intros Hne; [contradiction|].
  destruct o as [|m o].
  - destruct v; reflexivity.
  - change (member_tokens ((k, v) :: m :: o))
      with (Json.TStr k :: Json.TColon :: token_of v :: Json.TComma
              :: member_tokens (m :: o)).
    cbn [Json.members].
    replace (Json.value_of (token_of v)) with (Some v) by (destruct v; reflexivity).
    rewrite IH by discriminate. reflexivity.
Qed.

Theorem json_parse_stringify (o : Json.object) :
  plain_object o = true -> Json.parse (Json.stringify o) = Some o.
Proof.
  intros Hp. unfold Json.parse, Json.stringify.
  cbn [app]. rewrite (lex_punct 123 Json.TOpen) by (unfold is_punct; auto).
  destruct o as [|m o].
  - reflexivity.
  - rewrite lex_members by (auto; discriminate). cbn [option_map].
    destruct m as [k v]. destruct o as [|m' o].
    + destruct v; reflexivity.
    + change (Json.members (member_tokens ((k, v) :: m' :: o)) = Some ((k, v) :: m' :: o)).
      apply members_tokens. discriminate.
Qed.

(** * SHA-256: the digest has 32 bytes *)

Lemma round_length (st : list N) (kw : N * N) :
  length st = 8%nat -> length (Sha256.round st kw) = 8%nat.
Proof.
  intros H. do 9 (destruct st as [|? st]; try discriminate H). reflexivity.
Qed.

Lemma rounds_length (kws : list (N * N)) (st : list N) :
  length st = 8%nat -> length (fold_left Sha256.round kws st) = 8%nat.
Proof.
  revert st; induction kws as [|kw kws IH]; intros st H; [exact H|].
  simpl. apply IH, round_length, H.
Qed.

Lemma compress_length (h block : list N) :
  length h = 8%nat -> length (Sha256.compress h block) = 8%nat.
Proof.
  intros H. unfold Sha256.compress.
  rewrite length_map, length_combine, rounds_length, H by exact H. reflexivity.
Qed.

Lemma compress_all_length (fuel : nat) :
  forall h bs, length h = 8%nat -> length (Sha256.compress_all fuel h bs) = 8%nat.
Proof.
  induction fuel as [|fuel IH]; intros h bs H; [exact H|].
  destruct bs as [|b bs]; [exact H|].
  cbn [Sha256.compress_all]. apply IH, compress_length, H.
Qed.

Lemma flat_map_length_const {A B} (f : A -> list B) (k : nat) (l : list A) :
  (forall x, length (f x) = k) -> length (flat_map f l) = (k * length l)%nat.
Proof.
  intros H. induction l as [|x l IH]; simpl; [lia|].
  rewrite length_app, H, IH. lia.
Qed.

Lemma digest_length (msg : buffer) : length (Sha256.digest msg) = 32%nat.
Proof.
  unfold Sha256.digest, Sha256.digest_N. rewrite length_map.
  rewrite (flat_map_length_const _ 4) by reflexivity.
  rewrite compress_all_length by reflexivity. reflexivity.
Qed.

Lemma hmac_length (key msg : buffer) : length (Hmac.sha256 key msg) = 32%nat.
Proof. apply digest_length. Qed.

Lemma hex_encode_length (bs : buffer) : length (Hex.encode bs) = (2 * length bs)%nat.
Proof. unfold Hex.encode. apply flat_map_length_const. reflexivity. Qed.

(** * Text of ASCII characters *)

Lemma ascii_encode_units (s : jsstring) :
  ascii_text s = true -> Utf8.encode_units s = s.
Proof.
  induction s as [|c s IH]; simpl; [reflexivity|].
  intros H. apply andb_true_iff in H as [Hc Hs]. read_tests.
  unfold Utf8.is_high, Utf8.is_low, Utf8.bytes_of. decide_tests.
  cbn [andb app]. rewrite (IH Hs). reflexivity.
Qed.

Lemma ascii_well_formed (s : jsstring) :
  ascii_text s = true -> Utf8.well_formed s = true.
Proof.
  induction s as [|c s IH]; simpl; [reflexivity|].
  intros H. apply andb_true_iff in H as [Hc Hs]. read_tests.
  unfold Utf8.is_high, Utf8.is_low, code_unit_ok. decide_tests.
  cbn [andb negb]. exact (IH Hs).
Qed.

Lemma ascii_latin1 (s : jsstring) :
  ascii_text s = true -> Jwt.latin1 (Utf8.encode s) = s.
Proof.
  intros H. unfold Jwt.latin1, Utf8.encode. rewrite (ascii_encode_units s H).
  apply map_N_of_byte_of_N.
  unfold ascii_text in H. rewrite forallb_forall in H.
  apply Forall_forall. intros c Hc. specialize (H c Hc). read_tests. lia.
Qed.

Lemma ascii_text_app (a b : jsstring) :
  ascii_text (a ++ b) = ascii_text a && ascii_text b.
Proof. apply forallb_app. Qed.

Lemma plain_ascii (s : jsstring) : plain s = true -> ascii_text s = true.
Proof.
  unfold plain, ascii_text. rewrite !forallb_forall. intros H c Hc.
  specialize (H c Hc). unfold plain_char in H. read_tests.
  apply N.ltb_lt. lia.
Qed.

Lemma print_ascii (n : N) : ascii_text (Decimal10.print n) = true.
Proof.
  destruct (N.eq_dec n 0) as [->|Hn]; [reflexivity|].
  destruct (print_spec n) as (d & ds & -> & Hd & Hds & _); [lia|].
  simpl. apply andb_true_iff; split; [apply N.ltb_lt; lia|].
  apply forallb_forall. intros c Hc.
  rewrite Forall_forall in Hds. specialize (Hds c Hc).
  unfold Decimal10.is_digit in Hds. read_tests. apply N.ltb_lt. lia.
Qed.

Lemma quote_ascii (s : jsstring) : plain s = true -> ascii_text (Json.quote s) = true.
Proof.
  intros H. unfold Json.quote. rewrite (escape_plain s H).
  cbn [ascii_text forallb]. change (forallb _ (s ++ [Json.quote_mark]))
    with (ascii_text (s ++ [Json.quote_mark])).
  rewrite ascii_text_app, (plain_ascii s H). reflexivity.
Qed.

Lemma print_member_ascii (m : jsstring * Json.value) :
  plain (fst m) && plain_value (snd m) = true ->
  ascii_text (Json.print_member m) = true.
Proof.
  intros H. apply andb_true_iff in H as [Hk Hv]. unfold Json.print_member.
  rewrite !ascii_text_app, (quote_ascii _ Hk). cbn [andb].
  destruct (snd m) as [s|n]; cbn [Json.print_value].
  - rewrite (quote_ascii s Hv). reflexivity.
  - rewrite print_ascii. reflexivity.
Qed.

Lemma print_members_ascii (o : Json.object) :
  plain_object o = true -> ascii_text (Json.print_members o) = true.
Proof.
  induction o as [|m o IH]; intros H; [reflexivity|].
  simpl in H. apply andb_true_iff in H as [Hm Ho].
  destruct o as [|m' o].
  - apply print_member_ascii, Hm.
  - change (Json.print_members (m :: m' :: o))
      with (Json.print_member m ++ [44] ++ Json.print_members (m' :: o)).
    rewrite !ascii_text_app, (print_member_ascii m Hm), (IH Ho). reflexivity.
Qed.

Lemma stringify_ascii (o : Json.object) :
  plain_object o = true -> ascii_text (Json.stringify o) = true.
Proof.
  intros H. unfold Json.stringify.
  rewrite !ascii_text_app, (print_members_ascii o H). reflexivity.
Qed.

(** * Base64url text *)

Lemma url_digit_char (s : N) :
  s < 64 -> Jwt.is_url_char (Base64.digit Base64.url_alphabet s) = true.
Proof.
  intros H.
  assert (E : forallb (fun k => Jwt.is_url_char (Base64.digit Base64.url_alphabet (N.of_nat k)))
                      (seq 0 64) = true) by (vm_compute; reflexivity).
  rewrite forallb_forall in E.
  specialize (E (N.to_nat s)). rewrite N2Nat.id in E. apply E, in_seq. lia.
Qed.

Lemma encode_url_chars (bs : buffer) :
  forallb Jwt.is_url_char (Base64.encode_url bs) = true.
Proof.
  unfold Base64.encode_url.
  induction bs as [|a|a b|a b c l IH] using list_ind3;
    cbn [Base64.encode_with forallb];
    try pose proof (N_of_byte_bound a);
    try pose proof (N_of_byte_bound b);
    try pose proof (N_of_byte_bound c);
    rewrite ?url_digit_char by lia; try rewrite IH; reflexivity.
Qed.

Lemma encode_url_nonempty (bs : buffer) :
  bs <> [] -> Base64.encode_url bs <> [].
Proof.
  destruct bs as [|a [|b [|c l]]]; intros H; try contradiction; discriminate.
Qed.

Lemma url_char_not_dot (c : N) : Jwt.is_url_char c = true -> (c =? Jwt.dot) = false.
Proof.
  intros H. destruct (N.eqb_spec c Jwt.dot) as [->|]; [discriminate H|reflexivity].
Qed.

Lemma split_segment (h rest : jsstring) :
  forallb Jwt.is_url_char h = true ->
  Jwt.split Jwt.dot (h ++ Jwt.dot :: rest) = h :: Jwt.split Jwt.dot rest.
Proof.
  induction h as [|c h IH]; intros H.
  - cbn [app Jwt.split]. rewrite N.eqb_refl. reflexivity.
  - simpl in H. apply andb_true_iff in H as [Hc Hh].
    cbn [app Jwt.split]. rewrite (url_char_not_dot c Hc), (IH Hh). reflexivity.
Qed.

Lemma split_last (s : jsstring) :
  forallb Jwt.is_url_char s = true -> Jwt.split Jwt.dot s = [s].
Proof.
  induction s as [|c s IH]; intros H; [reflexivity|].
  simpl in H. apply andb_true_iff in H as [Hc Hs].
  cbn [Jwt.split]. rewrite (url_char_not_dot c Hc), (IH Hs). reflexivity.
Qed.

(** * JSON web tokens: what is signed verifies *)

Lemma get_last (k : jsstring) (v : Json.value) (o : Json.object) :
  Json.get k (o ++ [(k, v)]) = Some v.
Proof.
  induction o as [|[k' v'] o IH]; cbn [app Json.get].
  - rewrite jsstring_eqb_refl. reflexivity.
  - rewrite IH. reflexivity.
Qed.

Lemma get_app_other (k k' : jsstring) (v : Json.value) (o : Json.object) :
  jsstring_eqb k' k = false -> Json.get k (o ++ [(k', v)]) = Json.get k o.
Proof.
  intros H. induction o as [|[k1 v1] o IH]; cbn [app Json.get].
  - rewrite H. reflexivity.
  - rewrite IH. reflexivity.
Qed.

Lemma segment_chars (o : Json.object) :
  forallb Jwt.is_url_char (Jwt.segment o) = true.
Proof. apply encode_url_chars. Qed.

Lemma segment_nonempty (o : Json.object) :
  plain_object o = true -> Jwt.segment o <> [].
Proof.
  intros H. apply encode_url_nonempty. unfold Utf8.encode.
  rewrite (ascii_encode_units _ (stringify_ascii o H)). discriminate.
Qed.

Lemma segment_decodes_utf8 (o : Json.object) :
  plain_object o = true ->
  Json.parse (Utf8.decode (Base64.decode (Jwt.segment o))) = Some o.
Proof.
  intros H. unfold Jwt.segment. rewrite base64_decode_encode_url.
  rewrite utf8_decode_encode by (apply ascii_well_formed, stringify_ascii, H).
  apply json_parse_stringify, H.
Qed.

Lemma segment_decodes_latin1 (o : Json.object) :
  plain_object o = true ->
  Json.parse (Jwt.latin1 (Base64.decode (Jwt.segment o))) = Some o.
Proof.
  intros H. unfold Jwt.segment. rewrite base64_decode_encode_url.
  rewrite ascii_latin1 by (apply stringify_ascii, H).
  apply json_parse_stringify, H.
Qed.

Lemma signature_chars (secret input : jsstring) :
  forallb Jwt.is_url_char (Jwt.signature secret input) = true.
Proof. apply encode_url_chars. Qed.

Lemma signature_nonempty (secret input : jsstring) :
  exists c s, Jwt.signature secret input = c :: s.
Proof.
  unfold Jwt.signature.
  pose proof (hmac_length (Utf8.encode secret) (Utf8.encode input)) as H.
  destruct (Hmac.sha256 _ _) as [|a [|b [|c l]]]; try discriminate H.
  cbn [Base64.encode_url Base64.encode_with]. eauto.
Qed.

Lemma claims_plain (payload : Json.object) (span now : N) :
  plain_object payload = true -> plain_object (claims_of payload span now) = true.
Proof.
  intros H. unfold claims_of, plain_object. rewrite forallb_app.
  change (forallb _ payload) with (plain_object payload). rewrite H. reflexivity.
Qed.

Lemma claims_exp (payload : Json.object) (span now : N) :
  Json.get (js "exp") (claims_of payload span now) = Some (Json.Num (now / 1000 + span)).
Proof.
  unfold claims_of.
  change [(js "iat", Json.Num (now / 1000)); (js "exp", Json.Num (now / 1000 + span))]
    with ([(js "iat", Json.Num (now / 1000))] ++ [(js "exp", Json.Num (now / 1000 + span))]).
  rewrite app_assoc. apply get_last.
Qed.

Lemma sign_eq (payload : Json.object) (c : N) (k : jsstring) (span now : N) :
  Jwt.sign payload (Some (c :: k)) span now
  = inr (token_of_claims (claims_of payload span now) (c :: k)).
Proof. reflexivity. Qed.

Lemma split_token (claims : Json.object) (secret : jsstring) :
  Jwt.split Jwt.dot (token_of_claims claims secret)
  = [Jwt.segment Jwt.header; Jwt.segment claims;
     Jwt.signature secret (Jwt.segment Jwt.header ++ [Jwt.dot] ++ Jwt.segment claims)].
Proof.
  unfold token_of_claims. cbv zeta.
  rewrite <- !app_assoc. cbn [app].
  rewrite split_segment by apply segment_chars.
  rewrite split_segment by apply segment_chars.
  rewrite split_last by apply signature_chars. reflexivity.
Qed.

Lemma well_shaped_ok (h p s : jsstring) :
  h <> [] -> p <> [] ->
  forallb Jwt.is_url_char h = true -> forallb Jwt.is_url_char p = true ->
  forallb Jwt.is_url_char s = true ->
  Jwt.well_shaped h p s = true.
Proof.
  intros Hh Hp Ch Cp Cs. unfold Jwt.well_shaped.
  destruct h as [|? ?]; [contradiction|]. destruct p as [|? ?]; [contradiction|].
  rewrite !forallb_app, Ch, Cp, Cs. reflexivity.
Qed.

Theorem verify_token (claims : Json.object) (c : N) (k : jsstring) (later exp : N) :
  plain_object claims = true ->
  Json.get (js "exp") claims = Some (Json.Num exp) ->
  Jwt.verify (token_of_claims claims (c :: k)) (Some (c :: k)) later
  = if exp <=? later / 1000
    then inl (Jwt.TokenExpiredError (js "jwt expired"))
    else inr claims.
Proof.
  intros Hp He. unfold Jwt.verify. rewrite split_token.
  rewrite well_shaped_ok;
    [ | apply segment_nonempty; reflexivity | apply segment_nonempty, Hp
      | apply segment_chars | apply segment_chars | apply signature_chars ].
  cbn [negb].
  rewrite (segment_decodes_latin1 Jwt.header) by reflexivity.
  rewrite (segment_decodes_utf8 claims Hp).
  destruct (signature_nonempty (c :: k)
              (Jwt.segment Jwt.header ++ [Jwt.dot] ++ Jwt.segment claims))
    as (s0 & s & Es).
  rewrite Es at 1.
  change (Json.get (js "alg") Jwt.header) with (Some (Json.Str (js "HS256"))).
  rewrite jsstring_eqb_refl. cbn [negb].
  rewrite jsstring_eqb_refl. cbn [negb].
  rewrite He. reflexivity.
Qed.

(** * Hexadecimal text and object ids *)

Lemma hex_digit_lower (n : N) : n < 16 -> lower_hex_char (Hex.digit n) = true.
Proof.
  intros H. unfold Hex.digit, lower_hex_char.
  destruct (N.ltb_spec n 10); decide_tests; reflexivity.
Qed.

Lemma hex_digit_value (n : N) : n < 16 -> ObjectId.hex_value (Hex.digit n) = Some n.
Proof.
  intros H. unfold Hex.digit, ObjectId.hex_value.
  destruct (N.ltb_spec n 10); decide_tests; cbn [andb]; f_equal; lia.
Qed.

Lemma hex_encode_lower (bs : buffer) : forallb lower_hex_char (Hex.encode bs) = true.
Proof.
  induction bs as [|b bs IH]; [reflexivity|].
  pose proof (N_of_byte_bound b).
  unfold Hex.encode in *. cbn [flat_map app forallb].
  rewrite !hex_digit_lower by lia. exact IH.
Qed.

Lemma lower_hex_plain (s : jsstring) :
  forallb lower_hex_char s = true -> plain s = true.
Proof.
  unfold plain. rewrite !forallb_forall. intros H c Hc. specialize (H c Hc).
  unfold lower_hex_char in H. unfold plain_char.
  read_tests; decide_tests; reflexivity.
Qed.

Lemma bytes_of_hex_encode (bs : buffer) :
  ObjectId.bytes_of_hex (Hex.encode bs) = Some bs.
Proof.
  induction bs as [|b bs IH]; [reflexivity|].
  pose proof (N_of_byte_bound b).
  unfold Hex.encode in *. cbn [flat_map app ObjectId.bytes_of_hex].
  rewrite !hex_digit_value, IH by lia.
  do 2 f_equal. apply byte_of_N_eq. lia.
Qed.

Lemma objectid_parse_toString (id : ObjectId.t) :
  ObjectId.valid id = true -> ObjectId.parse (ObjectId.toString id) = Some id.
Proof.
  unfold ObjectId.valid, ObjectId.parse, ObjectId.toString. intros H.
  apply Nat.eqb_eq in H. rewrite hex_encode_length, H. cbn [Nat.mul Nat.add Nat.eqb].
  apply bytes_of_hex_encode.
Qed.

Lemma objectid_eqb_eq (a b : ObjectId.t) : ObjectId.eqb a b = true <-> a = b.
Proof. apply buffer_eqb_eq. Qed.

Lemma objectid_eqb_refl (a : ObjectId.t) : ObjectId.eqb a a = true.
Proof. apply objectid_eqb_eq. reflexivity. Qed.

(** * middleware/auth.js *)

Lemma user_claim_plain (userId : ObjectId.t) :
  plain (fst (Auth.user_claim userId)) && plain_value (snd (Auth.user_claim userId)) = true.
Proof.
  unfold Auth.user_claim, ObjectId.toString. cbn [fst snd plain_value].
  rewrite (lower_hex_plain _ (hex_encode_lower userId)). reflexivity.
Qed.

Lemma access_claims_plain env now userId :
  plain_object (access_claims env now userId) = true.
Proof.
  apply claims_plain. cbn [plain_object forallb].
  rewrite user_claim_plain. reflexivity.
Qed.

Lemma refresh_claims_plain env now userId :
  plain_object (refresh_claims env now userId) = true.
Proof.
  apply claims_plain. cbn [plain_object forallb].
  rewrite user_claim_plain. reflexivity.
Qed.

Lemma truthy_inv (v : option jsstring) :
  truthy v = true -> exists c k, v = Some (c :: k).
Proof. destruct v as [[|c k]|]; try discriminate. eauto. Qed.

Lemma generateAccessToken_ok env now userId :
  truthy (JWT_SECRET env) = true ->
  exists c k, JWT_SECRET env = Some (c :: k)
    /\ Auth.generateAccessToken env now userId
       = inr (token_of_claims (access_claims env now userId) (c :: k)).
Proof.
  intros H. destruct (truthy_inv _ H) as (c & k & E). exists c, k.
  split; [exact E|]. unfold Auth.generateAccessToken. rewrite E. apply sign_eq.
Qed.

Lemma generateRefreshToken_ok env now userId :
  truthy (or_else (JWT_REFRESH_SECRET env) (JWT_SECRET env)) = true ->
  exists c k, or_else (JWT_REFRESH_SECRET env) (JWT_SECRET env) = Some (c :: k)
    /\ Auth.generateRefreshToken env now userId
       = inr (token_of_claims (refresh_claims env now userId) (c :: k)).
Proof.
  intros H. destruct (truthy_inv _ H) as (c & k & E). exists c, k.
  split; [exact E|]. unfold Auth.generateRefreshToken. rewrite E. apply sign_eq.
Qed.

Lemma or_else_truthy (a b : option jsstring) :
  truthy b = true -> truthy (or_else a b) = true.
Proof. intros H. unfold or_else. destruct (truthy a) eqn:E; assumption. Qed.

Lemma token_shaped (claims : Json.object) (secret : jsstring) :
  plain_object claims = true -> Jwt.jwt_shaped (token_of_claims claims secret) = true.
Proof.
  intros H. unfold Jwt.jwt_shaped. rewrite split_token.
  rewrite well_shaped_ok;
    [ | apply segment_nonempty; reflexivity | apply segment_nonempty, H
      | apply segment_chars | apply segment_chars | apply signature_chars ].
  destruct (signature_nonempty secret
              (Jwt.segment Jwt.header ++ [Jwt.dot] ++ Jwt.segment claims))
    as (s0 & s & ->).
  reflexivity.
Qed.

Lemma findById_stored (users : list User.t) (uid : ObjectId.t) :
  ObjectId.valid uid = true ->
  User.findById users (Some (Json.Str (ObjectId.toString uid)))
  = inr (find (fun u => ObjectId.eqb (User._id u) uid) users).
Proof.
  intros H. unfold User.findById. rewrite (objectid_parse_toString uid H). reflexivity.
Qed.

(** A token of claims that name a stored user and have not run out is
    taken by [refresh], whatever else the claims say. *)
Lemma refresh_accepts env users later (claims : Json.object) (c : N) (k : jsstring)
      (uid : ObjectId.t) (exp : N) (u : User.t) :
  or_else (JWT_REFRESH_SECRET env) (JWT_SECRET env) = Some (c :: k) ->
  truthy (JWT_SECRET env) = true ->
  plain_object claims = true ->
  Json.get (js "exp") claims = Some (Json.Num exp) ->
  Json.get (js "userId") claims = Some (Json.Str (ObjectId.toString uid)) ->
  ObjectId.valid uid = true ->
  find (fun x => ObjectId.eqb (User._id x) uid) users = Some u ->
  later / 1000 < exp ->
  exists accessToken,
    Auth.generateAccessToken env later (User._id u) = inr accessToken
    /\ AuthController.refresh env users later (Some (token_of_claims claims (c :: k)))
       = {| AuthController.status := 200;
            AuthController.cookie := Some accessToken;
            AuthController.payload :=
              AuthController.Refreshed (js "Token refreshed successfully") accessToken |}.
Proof.
  intros Hs Hj Hp He Hu Hv Hf Hl.
  destruct (generateAccessToken_ok env later (User._id u) Hj) as (c' & k' & _ & Ea).
  eexists. split; [exact Ea|].
  unfold AuthController.refresh.
  destruct (signature_nonempty (c :: k)
              (Jwt.segment Jwt.header ++ [Jwt.dot] ++ Jwt.segment claims)) as (s0 & s & Es).
  assert (Et : exists t0 t, token_of_claims claims (c :: k) = t0 :: t).
  { unfold token_of_claims. cbv zeta.
    pose proof (segment_nonempty Jwt.header eq_refl) as Hn.
    destruct (Jwt.segment Jwt.header) as [|t0 t]; [contradiction|].
    cbn [app]. eauto. }
  destruct Et as (t0 & t & Et). rewrite Et at 1. rewrite <- Et.
  unfold Auth.verifyRefreshToken. rewrite Hs.
  rewrite (verify_token claims c k later exp Hp He).
  replace (exp <=? later / 1000) with false by (symmetry; apply N.leb_gt; lia).
  rewrite Hu, (findById_stored users uid Hv), Hf, Ea. reflexivity.
Qed.

(** * The to-do store *)

Lemma owned_by_eq (owner : ObjectId.t) (d : Todo.t) :
  Todo.owned_by owner d = true <-> Todo.userId d = owner.
Proof. apply objectid_eqb_eq. Qed.

Lemma matches_eq (id owner : ObjectId.t) (d : Todo.t) :
  Todo.matches id owner d = true <-> Todo._id d = id /\ Todo.userId d = owner.
Proof.
  unfold Todo.matches. rewrite andb_true_iff, objectid_eqb_eq, owned_by_eq. tauto.
Qed.

Lemma in_insert_newest (x d : Todo.t) (l : list Todo.t) :
  In x (Todo.insert_newest d l) <-> x = d \/ In x l.
Proof.
  induction l as [|y l IH]; simpl.
  - intuition congruence.
  - destruct (Todo.createdAt y <=? Todo.createdAt d); simpl; rewrite ?IH;
      intuition congruence.
Qed.

Lemma in_newest_first (x : Todo.t) (l : list Todo.t) :
  In x (Todo.newest_first l) <-> In x l.
Proof.
  induction l as [|d l IH]; simpl; [tauto|].
  rewrite in_insert_newest, IH. intuition congruence.
Qed.

Lemma insert_newest_length (d : Todo.t) (l : list Todo.t) :
  length (Todo.insert_newest d l) = S (length l).
Proof.
  induction l as [|y l IH]; simpl; [reflexivity|].
  destruct (Todo.createdAt y <=? Todo.createdAt d); simpl; rewrite ?IH; reflexivity.
Qed.

Lemma newest_first_length (l : list Todo.t) :
  length (Todo.newest_first l) = length l.
Proof.
  induction l as [|d l IH]; simpl; [reflexivity|].
  rewrite insert_newest_length, IH. reflexivity.
Qed.

Lemma in_find_by_user (store : list Todo.t) (owner : ObjectId.t) (d : Todo.t) :
  In d (Todo.find_by_user store owner) <-> In d store /\ Todo.userId d = owner.
Proof.
  unfold Todo.find_by_user. rewrite in_newest_first, filter_In, owned_by_eq. tauto.
Qed.

Lemma findOne_none (store : list Todo.t) (id owner : ObjectId.t) :
  Todo.findOne store id owner = None <->
  forall d, In d store -> Todo._id d = id -> Todo.userId d <> owner.
Proof.
  unfold Todo.findOne. split.
  - intros H d Hd Hi Ho. apply (find_none _ _ H) in Hd.
    assert (Todo.matches id owner d = true) by (apply matches_eq; auto). congruence.
  - intros H. destruct (find _ store) as [d|] eqn:E; [|reflexivity].
    apply find_some in E as [Hd Hm]. apply matches_eq in Hm as [Hi Ho].
    exfalso. exact (H d Hd Hi Ho).
Qed.

Lemma findOne_some (store : list Todo.t) (id owner : ObjectId.t) (d : Todo.t) :
  Todo.findOne store id owner = Some d ->
  In d store /\ Todo._id d = id /\ Todo.userId d = owner.
Proof.
  unfold Todo.findOne. intros H. apply find_some in H as [Hd Hm].
  apply matches_eq in Hm. tauto.
Qed.

(** With ids that are keys, a document of another owner under the id hides
    the id from the caller. *)
Lemma foreign_id_not_found (store : list Todo.t) (id owner : ObjectId.t) (d : Todo.t) :
  NoDup (map Todo._id store) ->
  In d store -> Todo._id d = id -> Todo.userId d <> owner ->
  Todo.findOne store id owner = None.
Proof.
  intros Hk Hd Hi Ho. apply findOne_none. intros d' Hd' Hi' Ho'.
  assert (d' = d); [|congruence].
  clear Ho Ho'. subst id. induction store as [|x store IH]; [contradiction|].
  simpl in Hk. inversion Hk as [|? ? Hx Hk']; subst.
  destruct Hd as [->|Hd], Hd' as [->|Hd']; auto.
  - exfalso. apply Hx. rewrite <- Hi'. apply in_map, Hd'.
  - exfalso. apply Hx. rewrite Hi'. apply in_map, Hd.
Qed.

Lemma deleteOne_none (store : list Todo.t) (id owner : ObjectId.t) :
  Todo.findOne store id owner = None ->
  Todo.deleteOne store id owner = (O, store).
Proof.
  unfold Todo.findOne. induction store as [|d store IH]; simpl; [reflexivity|].
  destruct (Todo.matches id owner d); [discriminate|].
  intros H. rewrite (IH H). reflexivity.
Qed.

Lemma deleteOne_some (store : list Todo.t) (id owner : ObjectId.t) (d : Todo.t) :
  Todo.findOne store id owner = Some d ->
  exists before rest,
    store = before ++ d :: rest
    /\ Todo.deleteOne store id owner = (1%nat, before ++ rest).
Proof.
  unfold Todo.findOne. induction store as [|x store IH]; simpl; [discriminate|].
  destruct (Todo.matches id owner x) eqn:E.
  - intros [= ->]. exists [], store. split; reflexivity.
  - intros H. destruct (IH H) as (before & rest & -> & Ed).
    exists (x :: before), rest. rewrite Ed. split; reflexivity.
Qed.

Lemma foreign_owned (owner : ObjectId.t) (d : Todo.t) :
  Todo.userId d = owner -> foreign owner d = false.
Proof.
  intros H. unfold foreign. rewrite (proj2 (owned_by_eq owner d) H). reflexivity.
Qed.

Lemma save_foreign (store : list Todo.t) (owner : ObjectId.t) (d d' : Todo.t) :
  NoDup (map Todo._id store) -> In d store ->
  Todo._id d' = Todo._id d ->
  Todo.userId d = owner -> Todo.userId d' = owner ->
  filter (foreign owner) (Todo.save store d') = filter (foreign owner) store
  /\ map Todo._id (Todo.save store d') = map Todo._id store.
Proof.
  intros Hk Hd Hi Ho Ho'.
  induction store as [|x store IH]; [contradiction|].
  simpl in Hk. inversion Hk as [|? ? Hx Hk']; subst.
  cbn [Todo.save]. destruct (ObjectId.eqb (Todo._id x) (Todo._id d')) eqn:E.
  - apply objectid_eqb_eq in E.
    assert (x = d).
    { destruct Hd as [->|Hd]; [reflexivity|]. exfalso. apply Hx.
      rewrite E, Hi. apply in_map, Hd. }
    subst x. cbn [filter map].
    rewrite (foreign_owned _ d eq_refl), (foreign_owned _ d' Ho').
    split; [reflexivity | congruence].
  - destruct Hd as [->|Hd].
    + rewrite Hi, objectid_eqb_refl in E. discriminate.
    + destruct (IH Hk' Hd) as [IH1 IH2]. cbn [filter map].
      rewrite IH1, IH2. split; reflexivity.
Qed.

Lemma filter_remove_owned (owner : ObjectId.t) (before rest : list Todo.t) (d : Todo.t) :
  Todo.userId d = owner ->
  filter (foreign owner) (before ++ rest) = filter (foreign owner) (before ++ d :: rest).
Proof.
  intros H. rewrite !filter_app. cbn [filter].
  rewrite (foreign_owned owner d H). reflexivity.
Qed.

(** * The read loop *)

Lemma read_all_map (env : Env) (todos : list Todo.t) :
  TodoController.read_all env todos = map (TodoController.read_one env) todos.
Proof.
  unfold TodoController.read_all.
  assert (G : forall acc,
             fold_left (fun a t => a ++ [TodoController.read_one env t]) todos acc
             = acc ++ map (TodoController.read_one env) todos).
  { induction todos as [|t todos IH]; intros acc; simpl.
    - rewrite app_nil_r. reflexivity.
    - rewrite IH, <- app_assoc. reflexivity. }
  apply (G []).
Qed.

(** * The C# AuthService: a used refresh token stays used *)

Module RotationFacts.
Import CSharp Rotation.

Lemma token_stored_has (T : jsstring) (users : list User) :
  token_stored T users = existsb (fun u => has T (RefreshTokens u)) users.
Proof. reflexivity. Qed.

Lemma has_false_live (T : jsstring) (rts : list RefreshToken) :
  has T rts = false -> live T rts = false.
Proof.
  unfold has, live. induction rts as [|rt rts IH]; simpl; [reflexivity|].
  intros H. apply orb_false_iff in H as [H1 H2]. rewrite H1, (IH H2). reflexivity.
Qed.

Lemma has_false_count (T : jsstring) (rts : list RefreshToken) :
  has T rts = false -> count T rts = O.
Proof.
  unfold has, count. induction rts as [|rt rts IH]; simpl; [reflexivity|].
  intros H. apply orb_false_iff in H as [H1 H2]. rewrite H1. exact (IH H2).
Qed.


Lemma usable_live (T : jsstring) (now : N) (rts : list RefreshToken) :
  live T rts = false -> existsb (usable T now) rts = false.
Proof.
  unfold live. induction rts as [|rt rts IH]; simpl; [reflexivity|].
  intros H. apply orb_false_iff in H as [H1 H2]. rewrite (IH H2).
  unfold usable. unfold named in H1. rewrite H1. reflexivity.
Qed.

Lemma usable_has (T : jsstring) (now : N) (rts : list RefreshToken) :
  existsb (usable T now) rts = true -> has T rts = true.
Proof.
  intros H. destruct (has T rts) eqn:E; [reflexivity|].
  rewrite (usable_live T now rts (has_false_live T rts E)) in H. discriminate.
Qed.

Lemma has_app (T : jsstring) (a b : list RefreshToken) :
  has T (a ++ b) = has T a || has T b.
Proof. apply existsb_app. Qed.

Lemma live_app (T : jsstring) (a b : list RefreshToken) :
  live T (a ++ b) = live T a || live T b.
Proof. apply existsb_app. Qed.

Lemma count_app (T : jsstring) (a b : list RefreshToken) :
  count T (a ++ b) = (count T a + count T b)%nat.
Proof. unfold count. rewrite filter_app, length_app. reflexivity. Qed.

Lemma has_revoke_first (T R : jsstring) (rts : list RefreshToken) :
  has T (revoke_first R rts) = has T rts.
Proof.
  unfold has. induction rts as [|rt rts IH]; simpl; [reflexivity|].
  destruct (jsstring_eqb (Token rt) R); simpl; [reflexivity|]. rewrite IH. reflexivity.
Qed.

Lemma live_revoke_first (T R : jsstring) (rts : list RefreshToken) :
  live T rts = false -> live T (revoke_first R rts) = false.
Proof.
  unfold live. induction rts as [|rt rts IH]; simpl; [reflexivity|].
  intros H. apply orb_false_iff in H as [H1 H2].
  destruct (jsstring_eqb (Token rt) R); simpl.
  - rewrite H2, andb_false_r. reflexivity.
  - rewrite H1, (IH H2). reflexivity.
Qed.


Lemma has_map_revoke (T : jsstring) (rts : list RefreshToken) :
  has T (map revoke rts) = has T rts.
Proof.
  unfold has. induction rts as [|rt rts IH]; simpl; [reflexivity|].
  rewrite IH. reflexivity.
Qed.

Lemma live_map_revoke (T : jsstring) (rts : list RefreshToken) :
  live T (map revoke rts) = false.
Proof.
  unfold live. induction rts as [|rt rts IH]; simpl; [reflexivity|].
  rewrite IH, andb_false_r. reflexivity.
Qed.

(** Rewriting users one by one keeps a token spent when each user keeps
    the token and brings none back to life. *)
Lemma spent_update (T : jsstring) (users : list User) (id : Guid) (f : User -> User) :
  (forall u, has T (RefreshTokens (f u)) = has T (RefreshTokens u)) ->
  (forall u, live T (RefreshTokens u) = false -> live T (RefreshTokens (f u)) = false) ->
  spent T users -> spent T (update_user users id f).
Proof.
  intros Hh Hl [Hs Hn]. split.
  - rewrite token_stored_has in *. unfold update_user.
    rewrite existsb_exists in *. destruct Hs as (u & Hu & Ht).
    exists (if user_Id u =? id then f u else u). split.
    + apply (in_map (fun u => if user_Id u =? id then f u else u)), Hu.
    + destruct (user_Id u =? id); [rewrite Hh|]; exact Ht.
  - intros u Hu. unfold update_user in Hu. apply in_map_iff in Hu as (u0 & <- & Hu0).
    destruct (user_Id u0 =? id); [apply Hl|]; apply Hn, Hu0.
Qed.

Lemma update_user_absent (users : list User) (id : Guid) (f : User -> User) :
  existsb (fun u => user_Id u =? id) users = false -> update_user users id f = users.
Proof.
  unfold update_user. induction users as [|u users IH]; simpl; [reflexivity|].
  intros H. apply orb_false_iff in H as [H1 H2]. rewrite H1, (IH H2). reflexivity.
Qed.

Lemma token_stored_update (T : jsstring) (users : list User) (id : Guid) (f : User -> User) :
  (forall u, has T (RefreshTokens (f u)) = has T (RefreshTokens u)) ->
  token_stored T (update_user users id f) = token_stored T users.
Proof.
  intros H. rewrite !token_stored_has. unfold update_user.
  induction users as [|u users IH]; simpl; [reflexivity|].
  rewrite IH. destruct (user_Id u =? id); [rewrite H|]; reflexivity.
Qed.

Lemma spent_app (T : jsstring) (users : list User) (u : User) :
  RefreshTokens u = [] -> spent T users -> spent T (users ++ [u]).
Proof.
  intros He [Hs Hn]. split.
  - unfold token_stored in *. rewrite existsb_app, Hs. reflexivity.
  - intros x Hx. apply in_app_iff in Hx as [Hx|[<-|[]]]; [apply Hn, Hx|].
    rewrite He. reflexivity.
Qed.

Section Services.

Variable HashPassword : jsstring -> N -> jsstring.
Variable VerifyPassword : jsstring -> jsstring -> bool.
Variable GenerateAccessToken : Guid -> jsstring -> N -> jsstring.
Variable RefreshTokenExpirationDays : N.

Local Abbreviation Store := (StoreRefreshTokenAsync RefreshTokenExpirationDays).
Local Abbreviation issue := (issue GenerateAccessToken RefreshTokenExpirationDays).
Local Abbreviation RefreshTokenAsync :=
  (RefreshTokenAsync GenerateAccessToken RefreshTokenExpirationDays).
Local Abbreviation LoginAsync :=
  (LoginAsync VerifyPassword GenerateAccessToken RefreshTokenExpirationDays).
Local Abbreviation RegisterAsync :=
  (RegisterAsync HashPassword GenerateAccessToken RefreshTokenExpirationDays).
Local Abbreviation GoogleLoginAsync :=
  (GoogleLoginAsync GenerateAccessToken RefreshTokenExpirationDays).
Local Abbreviation after :=
  (after HashPassword VerifyPassword GenerateAccessToken RefreshTokenExpirationDays).
Local Abbreviation after_all :=
  (after_all HashPassword VerifyPassword GenerateAccessToken RefreshTokenExpirationDays).
Local Abbreviation row := (row RefreshTokenExpirationDays).
Local Abbreviation add_row := (add_row RefreshTokenExpirationDays).

Lemma store_some (users users' : list User) now guid userId token :
  Store users now guid userId token = Some users' ->
  users' = update_user users userId (add_row now guid userId token)
  /\ (existsb (fun u => user_Id u =? userId) users = true ->
      token_stored token users = false).
Proof.
  unfold StoreRefreshTokenAsync.
  destruct (existsb _ users) eqn:Ex; destruct (token_stored token users) eqn:Et;
    cbn [andb]; intros [= <-]; split; auto; discriminate.
Qed.

Lemma spent_store (T : jsstring) (users users' : list User) now guid userId token :
  spent T users -> Store users now guid userId token = Some users' -> spent T users'.
Proof.
  intros Hs H. apply store_some in H as [-> Hf].
  destruct (existsb (fun u => user_Id u =? userId) users) eqn:Ex.
  - assert (Hne : jsstring_eqb token T = false).
    { destruct (jsstring_eqb token T) eqn:E; [|reflexivity].
      apply jsstring_eqb_eq in E. subst token.
      destruct Hs as [Hs _]. rewrite (Hf eq_refl) in Hs. discriminate. }
    apply spent_update; [| |exact Hs]; intros u; unfold add_row;
      cbn [with_tokens RefreshTokens].
    + rewrite has_app. unfold has at 2. cbn [existsb]. unfold named.
      cbn [row Token]. rewrite Hne. rewrite !orb_false_r. reflexivity.
    + intros Hl. rewrite live_app, Hl. unfold live. cbn [existsb]. unfold named.
      cbn [row Token]. rewrite Hne. reflexivity.
  - rewrite update_user_absent by exact Ex. exact Hs.
Qed.

Lemma spent_issue (T : jsstring) (saved kept : list User) user now guid token :
  spent T saved -> spent T kept ->
  spent T (snd (issue saved kept user now guid token)).
Proof.
  intros Hs Hk. unfold CSharp.issue.
  destruct (Store saved now guid (user_Id user) token) as [users'|] eqn:E;
    cbn [snd]; [apply (spent_store T _ _ _ _ _ _ Hs E) | exact Hk].
Qed.

(** A refresh with a spent token is refused and changes nothing. *)
Lemma refresh_spent (T : jsstring) (users : list User) now guid token :
  spent T users ->
  RefreshTokenAsync users now guid token T
  = (inl (UnauthorizedException ErrorMessages.InvalidToken), users).
Proof.
  intros [_ Hn]. unfold CSharp.RefreshTokenAsync.
  replace (filter _ users) with (@nil User); [reflexivity|].
  symmetry. induction users as [|u users IH]; [reflexivity|].
  cbn [filter]. rewrite (usable_live T now _ (Hn u (or_introl eq_refl))).
  apply IH. intros x Hx. apply Hn. right. exact Hx.
Qed.

(** Every call on the service keeps a spent token spent. *)
Lemma spent_after (T : jsstring) (users : list User) (c : call) :
  spent T users -> spent T (after users c).
Proof.
  intros Hs. destruct c; cbn [CSharp.after].
  - unfold CSharp.RegisterAsync.
    destruct (EmailExistsAsync users email); [exact Hs|].
    apply spent_issue; apply spent_app; auto.
  - unfold CSharp.LoginAsync.
    destruct (GetByEmailAsync users email) as [user|]; [|exact Hs].
    destruct (PasswordHash user) as [[|c h]|]; try exact Hs.
    destruct (VerifyPassword password (c :: h)); cbn [negb]; [|exact Hs].
    apply spent_issue; exact Hs.
  - unfold CSharp.RefreshTokenAsync.
    destruct (filter _ users) as [|user ?]; [exact Hs|].
    apply spent_issue; [|exact Hs].
    apply spent_update; [| |exact Hs]; intros u; cbn [with_tokens RefreshTokens].
    + apply has_revoke_first.
    + apply live_revoke_first.
  - unfold CSharp.GoogleLoginAsync.
    destruct (GetByGoogleIdAsync users googleId) as [user|].
    + apply spent_issue; exact Hs.
    + destruct (GetByEmailAsync users email) as [user|].
      * assert (spent T (update_user users (user_Id user) (link_google googleId now))).
        { apply spent_update; [| |exact Hs]; intros u; cbn [link_google RefreshTokens]; auto. }
        apply spent_issue; assumption.
      * apply spent_issue; apply spent_app; auto.
  - unfold LogoutAsync.
    apply spent_update; [| |exact Hs]; intros u; cbn [with_tokens RefreshTokens].
    + apply has_map_revoke.
    + intros _. apply live_map_revoke.
Qed.

Lemma spent_after_all (T : jsstring) (calls : list call) (users : list User) :
  spent T users -> spent T (after_all users calls).
Proof.
  revert users. induction calls as [|c calls IH]; intros users Hs; [exact Hs|].
  cbn [CSharp.after_all fold_left]. apply IH, spent_after, Hs.
Qed.

End Services.
End RotationFacts.

(** * The example values are what the code computes *)

Lemma sealed_milk_eq :
  Crypto.encrypt Example.env 0x0102030405060708090a0b0c (js "buy milk") = inr Example.sealed_milk.
Proof. vm_compute. reflexivity. Qed.

Lemma milk_digest_eq : Hash.computeSHA256 (js "buy milk") = Example.milk_digest.
Proof. vm_compute. reflexivity. Qed.

(** * The read path *)

Lemma verifyIntegrity_true (content storedHash : jsstring) :
  Hash.verifyIntegrity content storedHash = true <-> storedHash = Hash.computeSHA256 content.
Proof.
  unfold Hash.verifyIntegrity. rewrite jsstring_eqb_eq. split; congruence.
Qed.

Lemma verifyIntegrity_false (content storedHash : jsstring) :
  Hash.verifyIntegrity content storedHash = false <-> storedHash <> Hash.computeSHA256 content.
Proof.
  rewrite <- verifyIntegrity_true. destruct (Hash.verifyIntegrity content storedHash);
    split; congruence.
Qed.

(** A stored tag that is not what GCM computes over the stored nonce and
    ciphertext makes [decrypt] throw. *)
Lemma decrypt_wrong_tag (env : Env) (key : buffer) (c i t : jsstring) :
  Crypto.getEncryptionKey env = inr key ->
  Base64.decode t
    <> firstn (length (Base64.decode t))
              (Gcm.tag (Aes.encrypt_block key) (Base64.decode i) (Base64.decode c)) ->
  exists message, Crypto.decrypt env c i t = inl message.
Proof.
  intros Hk Ht. unfold Crypto.decrypt. rewrite Hk.
  destruct (negb (Crypto.valid_iv_length _)); [eauto|].
  destruct (negb (Crypto.valid_tag_length _)); [eauto|].
  destruct (Gcm.open _ _ _ _) as [p|] eqn:E; [|eauto].
  apply open_checks_tag in E as [E _]. contradiction.
Qed.

(** C2: the read path puts every stored record into exactly one of three
    classes.  When [decrypt] throws (and it throws whenever the stored tag
    does not verify) the answer is the corrupted-content marker, flagged
    and carrying the message.  When [decrypt] returns text whose SHA-256
    differs from the stored digest the answer is the tamper marker, and the
    text itself is not in the answer.  When both checks pass the answer is
    the text, with tampered = false.  The C# DecryptTodoAsync classifies the
    same way, whatever CryptoService it was constructed with. *)
Theorem read_classifies (env : Env) (todo : Todo.t) :
  let outcome :=
    Crypto.decrypt env (Todo.encryptedContent todo) (Todo.iv todo) (Todo.authTag todo) in
  let v := TodoController.read_one env todo in
  (forall message, outcome = inl message ->
     TodoController.content v = TodoController.decryption_failed
     /\ TodoController.tampered v = Some true
     /\ TodoController.error v = Some message)
  /\ (forall key,
        Crypto.getEncryptionKey env = inr key ->
        Base64.decode (Todo.authTag todo)
          <> firstn (length (Base64.decode (Todo.authTag todo)))
                    (Gcm.tag (Aes.encrypt_block key) (Base64.decode (Todo.iv todo))
                             (Base64.decode (Todo.encryptedContent todo))) ->
        TodoController.content v = TodoController.decryption_failed
        /\ TodoController.tampered v = Some true)
  /\ (forall plaintext, outcome = inr plaintext ->
        Hash.computeSHA256 plaintext <> Todo.integrityHash todo ->
        TodoController.content v = TodoController.integrity_violation
        /\ TodoController.tampered v = Some true
        /\ TodoController.error v = None)
  /\ (forall plaintext, outcome = inr plaintext ->
        Hash.computeSHA256 plaintext = Todo.integrityHash todo ->
        TodoController.content v = plaintext
        /\ TodoController.tampered v = Some false
        /\ TodoController.error v = None)
  /\ (forall (Decrypt : jsstring -> jsstring -> jsstring -> jsstring + jsstring)
             (row : CSharp.Todo),
        let dto := CSharp.DecryptTodoAsync Decrypt row in
        match Decrypt (CSharp.EncryptedContent row) (CSharp.IV row) (CSharp.AuthTag row) with
        | inl _ =>
            CSharp.Content dto = js "[DECRYPTION FAILED - Content is corrupted]"
            /\ CSharp.Tampered dto = true
        | inr plaintext =>
            if CSharp.HashService.VerifyIntegrity plaintext (CSharp.IntegrityHash row)
            then CSharp.Content dto = plaintext /\ CSharp.Tampered dto = false
            else CSharp.Content dto
                 = js "[INTEGRITY VIOLATION - Content may have been tampered with]"
                 /\ CSharp.Tampered dto = true
        end).
Proof.
  cbv zeta. unfold TodoController.read_one.
  split; [|split; [|split; [|split]]].
  - intros message E. rewrite E. repeat split.
  - intros key Hk Ht. destruct (decrypt_wrong_tag env key _ _ _ Hk Ht) as [m ->].
    split; reflexivity.
  - intros plaintext E Hd. rewrite E.
    rewrite (proj2 (verifyIntegrity_false _ _)) by congruence. repeat split.
  - intros plaintext E Hd. rewrite E.
    rewrite (proj2 (verifyIntegrity_true _ _)) by congruence. repeat split.
  - intros Decrypt row. unfold CSharp.DecryptTodoAsync.
    destruct (Decrypt _ _ _) as [m|p]; [split; reflexivity|].
    destruct (CSharp.HashService.VerifyIntegrity p _); split; reflexivity.
Qed.

(** Three stored records: the stored 'buy milk' reads back
    clean, reads as corrupted once its tag is replaced, and reads as
    tampered once its digest is replaced. *)
Lemma read_classifies_witness :
  TodoController.content (TodoController.read_one Example.env Example.milk) = js "buy milk"
  /\ TodoController.content (TodoController.read_one Example.env Example.milk_bad_tag)
     = TodoController.decryption_failed
  /\ TodoController.content (TodoController.read_one Example.env Example.milk_capitals)
     = TodoController.integrity_violation.
Proof.
  split; [|split].
  - apply (proj1 (proj2 (proj2 (proj2 (read_classifies Example.env Example.milk))))
             (js "buy milk")); vm_compute; reflexivity.
  - apply (proj1 (proj2 (read_classifies Example.env Example.milk_bad_tag)) Example.key).
    + vm_compute; reflexivity.
    + vm_compute. discriminate.
  - apply (proj1 (proj2 (proj2 (read_classifies Example.env Example.milk_capitals)))
             (js "buy milk")).
    + vm_compute; reflexivity.
    + vm_compute. discriminate.
Defined.

(** C5: a batch read answers with exactly one entry per record it was
    given, in order, and each entry is what the record alone determines: a
    record that fails to decrypt or to verify gets its marker and its flag
    and the records around it are read as if it were not there.  No record
    makes [getTodos] answer anything but 200 with the whole list. *)
Theorem batch_read_is_per_record (env : Env) (store : list Todo.t) (userId : ObjectId.t) :
  let todos := Todo.find_by_user store userId in
  TodoController.getTodos env store userId
  = {| TodoController.status := 200;
       TodoController.payload := TodoController.Todos (map (TodoController.read_one env) todos) |}
  /\ length (TodoController.read_all env todos) = length todos
  /\ (forall before todo rest,
        TodoController.read_all env (before ++ todo :: rest)
        = TodoController.read_all env before
            ++ TodoController.read_one env todo :: TodoController.read_all env rest)
  /\ (forall todo,
        TodoController.tampered (TodoController.read_one env todo) = Some true ->
        TodoController.content (TodoController.read_one env todo)
          = TodoController.decryption_failed
        \/ TodoController.content (TodoController.read_one env todo)
          = TodoController.integrity_violation).
Proof.
  cbv zeta. repeat split.
  - unfold TodoController.getTodos. rewrite read_all_map. reflexivity.
  - rewrite read_all_map. apply length_map.
  - intros before todo rest. rewrite !read_all_map, map_app. reflexivity.
  - intros todo. unfold TodoController.read_one.
    destruct (Crypto.decrypt _ _ _ _) as [m|p]; [left; reflexivity|].
    destruct (Hash.verifyIntegrity _ _); cbn [negb TodoController.tampered
      TodoController.content]; [discriminate | right; reflexivity].
Qed.

(** A corrupted record between two good ones: three answers, the middle
    one the marker, the outer ones the text. *)
Lemma batch_read_is_per_record_witness :
  map TodoController.content
      (TodoController.read_all Example.env
         [Example.milk; Example.milk_bad_tag; Example.milk])
  = [js "buy milk"; TodoController.decryption_failed; js "buy milk"].
Proof.
  pose proof (proj1 (proj2 (proj2 (batch_read_is_per_record Example.env [] Example.alice)))
                [Example.milk] Example.milk_bad_tag [Example.milk]) as H.
  cbn [app] in H. rewrite H. vm_compute. reflexivity.
Defined.

(** * Key configuration *)

Lemma key_configuration_aux (env : Env) :
  ((truthy (AES_KEY env) = false
    \/ exists k, AES_KEY env = Some k /\ length (Base64.decode k) <> 32%nat) ->
   exists message, Crypto.getEncryptionKey env = inl message)
  /\ (forall k, AES_KEY env = Some k -> length (Base64.decode k) = 32%nat ->
        Crypto.getEncryptionKey env = inr (Base64.decode k)
        /\ Crypto.verifyKeyConfiguration env
           = {| Crypto.configured := true; Crypto.keyLength := Some 32%nat;
                Crypto.valid := Some true; Crypto.error := None |}).
Proof.
  split.
  - intros H. unfold Crypto.getEncryptionKey. destruct H as [H|(k & Hk & Hl)].
    + destruct (AES_KEY env) as [[|c s]|]; try discriminate H; eauto.
    + rewrite Hk. destruct k as [|c s]; [eauto|].
      destruct (Nat.eqb_spec (length (Base64.decode (c :: s))) 32); [contradiction|eauto].
  - intros k Hk Hl.
    assert (Crypto.getEncryptionKey env = inr (Base64.decode k)) as Hg.
    { unfold Crypto.getEncryptionKey. rewrite Hk. destruct k as [|c s]; [discriminate Hl|].
      rewrite Hl. reflexivity. }
    split; [exact Hg|]. unfold Crypto.verifyKeyConfiguration. rewrite Hg, Hl. reflexivity.
Qed.

(** C6: when AES_KEY is unset or empty, or decodes to anything but 32
    bytes, loading the key throws; then every [encrypt] and every [decrypt]
    throws with that message, and [verifyKeyConfiguration], where it is
    called, reports the key as not configured, with the message and
    without a [valid] flag.  No part of the application calls it, so
    the fault shows when a request needs the key and not before:
    [createTodo] answers 500 and stores nothing, and a read shows every
    stored record as one that could not be decrypted.  With a key of 32
    bytes the key loads and the check reports it configured and valid. *)
Theorem key_configuration (env : Env) :
  ((truthy (AES_KEY env) = false
    \/ exists k, AES_KEY env = Some k /\ length (Base64.decode k) <> 32%nat) ->
   exists message,
     Crypto.getEncryptionKey env = inl message
     /\ (forall entropy plaintext,
           Crypto.encrypt env entropy plaintext = inl (js "Encryption failed: " ++ message))
     /\ (forall c i t,
           Crypto.decrypt env c i t = inl (js "Decryption failed: " ++ message))
     /\ Crypto.verifyKeyConfiguration env
        = {| Crypto.configured := false; Crypto.keyLength := None;
             Crypto.valid := None; Crypto.error := Some message |}
     /\ (forall store now fresh entropy userId content,
           TodoController.createTodo env store now fresh entropy userId content
           = ({| TodoController.status := 500;
                 TodoController.payload :=
                   TodoController.Failure (js "Failed to create todo")
                     (Some (js "Encryption failed: " ++ message)) |}, store))
     /\ (forall todo,
           TodoController.read_one env todo
           = {| TodoController.id := Todo._id todo;
                TodoController.content := TodoController.decryption_failed;
                TodoController.tampered := Some true;
                TodoController.error := Some (js "Decryption failed: " ++ message);
                TodoController.createdAt := Todo.createdAt todo;
                TodoController.updatedAt := Todo.updatedAt todo |}))
  /\ (forall k, AES_KEY env = Some k -> length (Base64.decode k) = 32%nat ->
        Crypto.getEncryptionKey env = inr (Base64.decode k)
        /\ Crypto.verifyKeyConfiguration env
           = {| Crypto.configured := true; Crypto.keyLength := Some 32%nat;
                Crypto.valid := Some true; Crypto.error := None |}).
Proof.
  split.
  - intros H. destruct (proj1 (key_configuration_aux env) H) as [message Hm].
    exists message.
    unfold TodoController.createTodo, TodoController.read_one,
      Crypto.encrypt, Crypto.decrypt, Crypto.verifyKeyConfiguration.
    rewrite Hm. repeat split.
  - apply (proj2 (key_configuration_aux env)).
Qed.

(** Without AES_KEY nothing is encrypted, and a to-do sent to such a server
    is answered 500; with a key of 16 bytes the key does not load either;
    with the 32 bytes of the example it does. *)
Lemma key_configuration_witness :
  (exists message,
     Crypto.getEncryptionKey
       {| AES_KEY := None; JWT_SECRET := None; JWT_REFRESH_SECRET := None;
          JWT_EXPIRES_IN := None; JWT_REFRESH_EXPIRES_IN := None |} = inl message
     /\ TodoController.createTodo
          {| AES_KEY := None; JWT_SECRET := None; JWT_REFRESH_SECRET := None;
             JWT_EXPIRES_IN := None; JWT_REFRESH_EXPIRES_IN := None |}
          Example.store 1700000005000 Example.second_id 5 Example.alice (js "call mum")
        = ({| TodoController.status := 500;
              TodoController.payload :=
                TodoController.Failure (js "Failed to create todo")
                  (Some (js "Encryption failed: " ++ message)) |}, Example.store))
  /\ (exists message,
        Crypto.getEncryptionKey
          {| AES_KEY := Some (Base64.encode (repeat zero 16)); JWT_SECRET := None;
             JWT_REFRESH_SECRET := None; JWT_EXPIRES_IN := None;
             JWT_REFRESH_EXPIRES_IN := None |} = inl message)
  /\ Crypto.getEncryptionKey Example.env = inr Example.key.
Proof.
  split; [|split].
  - destruct (proj1 (key_configuration
                       {| AES_KEY := None; JWT_SECRET := None; JWT_REFRESH_SECRET := None;
                          JWT_EXPIRES_IN := None; JWT_REFRESH_EXPIRES_IN := None |}))
      as (m & Hm & _ & _ & _ & Hc & _); [left; reflexivity|].
    exists m. split; [exact Hm | apply Hc].
  - destruct (proj1 (key_configuration
                       {| AES_KEY := Some (Base64.encode (repeat zero 16)); JWT_SECRET := None;
                          JWT_REFRESH_SECRET := None; JWT_EXPIRES_IN := None;
                          JWT_REFRESH_EXPIRES_IN := None |}))
      as (m & Hm & _); [|exists m; exact Hm].
    right. eexists. split; [reflexivity|]. vm_compute. discriminate.
  - apply (proj2 (key_configuration Example.env) (Base64.encode Example.key));
      vm_compute; reflexivity.
Defined.

(** * Passwords *)

(** C7: for a user without a password digest (unset, or empty)
    [comparePassword] answers false for every candidate and every bcrypt,
    without calling bcrypt; and a password login that finds such a user is
    answered 401 and issues no token. *)
Theorem federated_user_has_no_password (lib : bcrypt) (env : Env) (users : list User.t)
        (now : N) (user : User.t) (email candidate : jsstring) :
  truthy (User.passwordHash user) = false ->
  User.comparePassword lib user candidate = false
  /\ (User.findOne_email users email = Some user ->
      AuthController.login lib env users now email candidate
      = {| AuthController.status := 401;
           AuthController.cookie := None;
           AuthController.payload :=
             AuthController.Failure
               (js "This account uses Google Sign-In. Please login with Google.") None |}).
Proof.
  intros H. split.
  - unfold User.comparePassword. rewrite H. reflexivity.
  - intros Hf. unfold AuthController.login. rewrite Hf, H. reflexivity.
Qed.

Lemma federated_user_has_no_password_witness :
  User.comparePassword Example.lenient Example.google_user (js "Passw0rd1") = false
  /\ AuthController.status
       (AuthController.login Example.lenient Example.env [Example.google_user]
          1700000000000 (js "bob@example.com") (js "Passw0rd1")) = 401.
Proof.
  destruct (federated_user_has_no_password Example.lenient Example.env
              [Example.google_user] 1700000000000 Example.google_user
              (js "bob@example.com") (js "Passw0rd1") eq_refl) as [H1 H2].
  split; [exact H1|]. rewrite (H2 eq_refl). reflexivity.
Defined.

(** * Integrity digests *)

Lemma lower_upper_digit (n : N) :
  n < 16 -> Hex.lower_char (Hex.upper_digit n) = Hex.digit n.
Proof.
  intros H. unfold Hex.lower_char, Hex.upper_digit, Hex.digit.
  destruct (N.ltb_spec n 10); decide_tests; cbn [andb]; lia.
Qed.

Lemma to_lower_encode_upper (bs : buffer) :
  Hex.to_lower (Hex.encode_upper bs) = Hex.encode bs.
Proof.
  unfold Hex.to_lower, Hex.encode_upper, Hex.encode.
  induction bs as [|b bs IH]; [reflexivity|].
  pose proof (N_of_byte_bound b).
  cbn [flat_map app map]. rewrite !lower_upper_digit, IH by lia. reflexivity.
Qed.

(** The two ports compute the same digest text. *)
Lemma ComputeSHA256_eq (content : jsstring) :
  CSharp.HashService.ComputeSHA256 content = Hash.computeSHA256 content.
Proof. apply to_lower_encode_upper. Qed.

Lemma upper_char_idempotent (c : N) : Hex.upper_char (Hex.upper_char c) = Hex.upper_char c.
Proof.
  unfold Hex.upper_char.
  destruct ((97 <=? c) && (c <=? 122)) eqn:E; [|rewrite E; reflexivity].
  read_tests. decide_tests. reflexivity.
Qed.

Lemma to_upper_idempotent (s : jsstring) : Hex.to_upper (Hex.to_upper s) = Hex.to_upper s.
Proof.
  unfold Hex.to_upper. rewrite map_map. apply map_ext, upper_char_idempotent.
Qed.

(** C10: [verifyIntegrity] compares the stored text with the lower-case
    hexadecimal SHA-256 of the content, character for character: it is true
    exactly for that text of 64 characters 0-9a-f.  So the same digest
    written in capitals, wherever that is a different text, fails the check
    and a record that stores it reads as tampered; the C# VerifyIntegrity
    accepts it. *)
Theorem integrity_compare_is_exact (content storedHash : jsstring) :
  (Hash.verifyIntegrity content storedHash = true
   <-> storedHash = Hex.encode (Sha256.digest (Utf8.encode content)))
  /\ forallb lower_hex_char (Hash.computeSHA256 content) = true
  /\ length (Hash.computeSHA256 content) = 64%nat
  /\ CSharp.HashService.VerifyIntegrity content (Hex.to_upper (Hash.computeSHA256 content))
     = true
  /\ (Hex.to_upper (Hash.computeSHA256 content) <> Hash.computeSHA256 content ->
      Hash.verifyIntegrity content (Hex.to_upper (Hash.computeSHA256 content)) = false
      /\ forall env todo,
           Crypto.decrypt env (Todo.encryptedContent todo) (Todo.iv todo)
                          (Todo.authTag todo) = inr content ->
           Todo.integrityHash todo = Hex.to_upper (Hash.computeSHA256 content) ->
           TodoController.content (TodoController.read_one env todo)
             = TodoController.integrity_violation
           /\ TodoController.tampered (TodoController.read_one env todo) = Some true).
Proof.
  split; [|split; [|split; [|split]]].
  - apply verifyIntegrity_true.
  - apply hex_encode_lower.
  - unfold Hash.computeSHA256. rewrite hex_encode_length, digest_length. reflexivity.
  - unfold CSharp.HashService.VerifyIntegrity, CSharp.equals_ignore_case.
    rewrite ComputeSHA256_eq, to_upper_idempotent. apply jsstring_eqb_refl.
  - intros Hne. split.
    + apply verifyIntegrity_false. exact Hne.
    + intros env todo Hd Hh. unfold TodoController.read_one. rewrite Hd, Hh.
      rewrite (proj2 (verifyIntegrity_false _ _) Hne). split; reflexivity.
Qed.

Lemma integrity_compare_is_exact_witness :
  Hash.verifyIntegrity (js "buy milk") (Hex.to_upper (Hash.computeSHA256 (js "buy milk")))
  = false
  /\ TodoController.tampered (TodoController.read_one Example.env Example.milk_capitals)
     = Some true.
Proof.
  destruct (proj2 (proj2 (proj2 (proj2
              (integrity_compare_is_exact (js "buy milk") [])))))
    as [H1 H2]; [vm_compute; discriminate|].
  split; [exact H1|].
  apply (H2 Example.env Example.milk_capitals); vm_compute; reflexivity.
Defined.

(** * Encryption *)

(** C3, as the code has it: under a key of 32 bytes, and whatever nonce is
    drawn, [encrypt] returns a triple and [decrypt] of that triple returns
    the plaintext, for every plaintext in which each surrogate is half of
    a pair. *)
Theorem decrypt_inverts_encrypt (env : Env) (k : jsstring) (entropy : N)
        (plaintext : jsstring) :
  AES_KEY env = Some k -> length (Base64.decode k) = 32%nat ->
  Utf8.well_formed plaintext = true ->
  exists e,
    Crypto.encrypt env entropy plaintext = inr e
    /\ Crypto.decrypt env (Crypto.encryptedContent e) (Crypto.iv e) (Crypto.authTag e)
       = inr plaintext.
Proof.
  intros Hk Hl Hw.
  destruct (proj2 (key_configuration_aux env) k Hk Hl) as [Hg _].
  assert (exists e, Crypto.encrypt env entropy plaintext = inr e) as [e He].
  { unfold Crypto.encrypt. rewrite Hg. destruct (Gcm.seal _ _ _). eauto. }
  exists e. split; [exact He|]. apply (decrypt_encrypt env entropy plaintext e Hw He).
Qed.

Lemma decrypt_inverts_encrypt_witness :
  exists e,
    Crypto.encrypt Example.env 7 (js "buy milk" ++ [0xD83D; 0xDE00]) = inr e
    /\ Crypto.decrypt Example.env (Crypto.encryptedContent e) (Crypto.iv e)
                      (Crypto.authTag e)
       = inr (js "buy milk" ++ [0xD83D; 0xDE00]).
Proof.
  apply (decrypt_inverts_encrypt Example.env (Base64.encode Example.key));
    vm_compute; reflexivity.
Defined.

(** A plaintext that is one unpaired surrogate comes back as U+FFFD. *)
Lemma lone_surrogate_is_replaced :
  is_jsstring [0xD800] = true
  /\ exists e,
       Crypto.encrypt Example.env 7 [0xD800] = inr e
       /\ Crypto.decrypt Example.env (Crypto.encryptedContent e) (Crypto.iv e)
                         (Crypto.authTag e)
          = inr [0xFFFD]
       /\ Crypto.decrypt Example.env (Crypto.encryptedContent e) (Crypto.iv e)
                         (Crypto.authTag e)
          <> inr [0xD800].
Proof.
  split; [reflexivity|]. eexists. split; [vm_compute; reflexivity|].
  split; [vm_compute; reflexivity | vm_compute; discriminate].
Qed.

(** * Ownership *)

Lemma id_is_key (store : list Todo.t) (a b : Todo.t) :
  NoDup (map Todo._id store) -> In a store -> In b store ->
  Todo._id a = Todo._id b -> a = b.
Proof.
  intros Hk Ha Hb E. induction store as [|x store IH]; [contradiction|].
  simpl in Hk. inversion Hk as [|? ? Hx Hk']; subst.
  destruct Ha as [->|Ha], Hb as [->|Hb]; auto.
  - exfalso. apply Hx. rewrite E. apply in_map, Hb.
  - exfalso. apply Hx. rewrite <- E. apply in_map, Ha.
Qed.

Lemma update_not_found env store now entropy caller todoId oid content :
  ObjectId.parse todoId = Some oid ->
  Todo.findOne store oid caller = None ->
  TodoController.updateTodo env store now entropy caller todoId content = (not_found, store).
Proof. intros Hp Hf. unfold TodoController.updateTodo. rewrite Hp, Hf. reflexivity. Qed.

Lemma delete_not_found store caller todoId oid :
  ObjectId.parse todoId = Some oid ->
  Todo.findOne store oid caller = None ->
  TodoController.deleteTodo store caller todoId = (not_found, store).
Proof.
  intros Hp Hf. unfold TodoController.deleteTodo.
  rewrite Hp, (deleteOne_none _ _ _ Hf). reflexivity.
Qed.

Lemma update_frame env store now entropy caller todoId content :
  NoDup (map Todo._id store) ->
  filter (foreign caller)
         (snd (TodoController.updateTodo env store now entropy caller todoId content))
  = filter (foreign caller) store.
Proof.
  intros Hk. unfold TodoController.updateTodo.
  destruct (ObjectId.parse todoId) as [oid|]; [|reflexivity].
  destruct (Todo.findOne store oid caller) as [todo|] eqn:Ef; [|reflexivity].
  destruct (Crypto.encrypt env entropy content) as [m|e]; [reflexivity|].
  destruct (Todo.validate _); [reflexivity|].
  cbn [snd]. apply findOne_some in Ef as (Hin & Hid & Ho).
  apply (save_foreign store caller todo); auto.
Qed.

Lemma delete_frame store caller todoId :
  filter (foreign caller) (snd (TodoController.deleteTodo store caller todoId))
  = filter (foreign caller) store.
Proof.
  unfold TodoController.deleteTodo.
  destruct (ObjectId.parse todoId) as [oid|]; [|reflexivity].
  destruct (Todo.findOne store oid caller) as [d|] eqn:Ef.
  - pose proof (findOne_some _ _ _ _ Ef) as (_ & _ & Ho).
    destruct (deleteOne_some _ _ _ _ Ef) as (before & rest & -> & ->).
    cbn [Nat.eqb snd]. apply filter_remove_owned, Ho.
  - rewrite (deleteOne_none _ _ _ Ef). reflexivity.
Qed.

(** C4: with the ids of the stored records distinct, a call made for one
    owner never shows, changes or removes a record of another owner.  A
    batch read answers only from the caller's records; an update and a
    delete leave the records of all other owners exactly as they were; aimed
    at the id of another owner's record they answer 404 and leave the whole
    store as it was.  A delete of an id that is not stored answers 404, a
    delete of the caller's own record answers 200 and removes that record
    only. *)
Theorem ownership_is_enforced (env : Env) (store : list Todo.t) (caller : ObjectId.t) :
  NoDup (map Todo._id store) ->
  (forall v, In v (TodoController.read_all env (Todo.find_by_user store caller)) ->
     exists d, In d store /\ Todo.userId d = caller /\ v = TodoController.read_one env d)
  /\ (forall now entropy todoId content,
        filter (foreign caller)
               (snd (TodoController.updateTodo env store now entropy caller todoId content))
        = filter (foreign caller) store)
  /\ (forall todoId,
        filter (foreign caller) (snd (TodoController.deleteTodo store caller todoId))
        = filter (foreign caller) store)
  /\ (forall d todoId,
        In d store -> Todo.userId d <> caller ->
        ObjectId.parse todoId = Some (Todo._id d) ->
        (forall now entropy content,
           TodoController.updateTodo env store now entropy caller todoId content
           = (not_found, store))
        /\ TodoController.deleteTodo store caller todoId = (not_found, store))
  /\ (forall todoId oid,
        ObjectId.parse todoId = Some oid ->
        (forall d, In d store -> Todo._id d <> oid) ->
        TodoController.deleteTodo store caller todoId = (not_found, store))
  /\ (forall d todoId,
        In d store -> Todo.userId d = caller ->
        ObjectId.parse todoId = Some (Todo._id d) ->
        exists before rest,
          store = before ++ d :: rest
          /\ TodoController.deleteTodo store caller todoId
             = ({| TodoController.status := 200;
                   TodoController.payload :=
                     TodoController.Done (js "Todo deleted successfully") |},
                before ++ rest)).
Proof.
  intros Hk. split; [|split; [|split; [|split; [|split]]]].
  - intros v Hv. rewrite read_all_map in Hv. apply in_map_iff in Hv as (d & <- & Hd).
    apply in_find_by_user in Hd as [Hd Ho]. exists d. auto.
  - intros. apply update_frame, Hk.
  - intros. apply delete_frame.
  - intros d todoId Hd Ho Hp.
    pose proof (foreign_id_not_found store (Todo._id d) caller d Hk Hd eq_refl Ho) as Hf.
    split; [intros|]; [apply (update_not_found _ _ _ _ _ _ _ _ Hp Hf)
                      | apply (delete_not_found _ _ _ _ Hp Hf)].
  - intros todoId oid Hp Hn. apply (delete_not_found _ _ _ _ Hp).
    apply findOne_none. intros d Hd Hi. exfalso. exact (Hn d Hd Hi).
  - intros d todoId Hd Ho Hp.
    destruct (Todo.findOne store (Todo._id d) caller) as [d'|] eqn:Ef.
    + pose proof (findOne_some _ _ _ _ Ef) as (Hd' & Hi' & _).
      assert (d' = d) by (apply (id_is_key store); auto). subst d'.
      destruct (deleteOne_some _ _ _ _ Ef) as (before & rest & Es & Ed).
      exists before, rest. split; [exact Es|].
      unfold TodoController.deleteTodo. rewrite Hp, Ed. reflexivity.
    + exfalso. rewrite findOne_none in Ef. exact (Ef d Hd eq_refl Ho).
Qed.

(** Alice aims an update and a delete at Bob's record: 404 both times and
    the store as before; her own record she deletes. *)
Lemma ownership_is_enforced_witness :
  TodoController.updateTodo Example.env Example.store 1700000009000 9 Example.alice
    (ObjectId.toString Example.second_id) (js "mine now")
  = (not_found, Example.store)
  /\ TodoController.deleteTodo Example.store Example.alice
       (ObjectId.toString Example.second_id)
     = (not_found, Example.store)
  /\ snd (TodoController.deleteTodo Example.store Example.alice
            (ObjectId.toString Example.first_id))
     = [Example.bobs].
Proof.
  assert (Hk : NoDup (map Todo._id Example.store)).
  { repeat constructor; cbn [In map Example.store]; intros H; vm_compute in H;
    intuition discriminate. }
  pose proof (ownership_is_enforced Example.env Example.store Example.alice Hk)
    as (_ & _ & _ & Hforeign & _ & _).
  destruct (Hforeign Example.bobs (ObjectId.toString Example.second_id))
    as [Hu Hd]; [right; left; reflexivity | vm_compute; discriminate | reflexivity |].
  split; [apply Hu | split; [exact Hd|]].
  vm_compute. reflexivity.
Defined.

(** * Tokens of the Node.js application *)

Lemma access_claims_userId env now uid :
  Json.get (js "userId") (access_claims env now uid) = Some (Json.Str (ObjectId.toString uid)).
Proof. reflexivity. Qed.

Lemma access_claims_type env now uid :
  Json.get (js "type") (access_claims env now uid) = None.
Proof. reflexivity. Qed.

Lemma refresh_claims_userId env now uid :
  Json.get (js "userId") (refresh_claims env now uid) = Some (Json.Str (ObjectId.toString uid)).
Proof. reflexivity. Qed.

Lemma refresh_claims_type env now uid :
  Json.get (js "type") (refresh_claims env now uid) = Some (Json.Str (js "refresh")).
Proof. reflexivity. Qed.

(** C9: [verifyRefreshToken] is [jwt.verify] under the refresh secret, or
    under JWT_SECRET when no refresh secret is set: signature and expiry,
    nothing else.  So when the two secrets are the same, an access token
    that has not expired and names a stored user verifies as a refresh
    token although it has no 'type' claim, and [refresh] answers it with
    200 and a new access token for that user. *)
Theorem access_token_passes_as_refresh_token (env : Env) (users : list User.t)
        (issued later : N) (u : User.t) :
  truthy (JWT_SECRET env) = true ->
  or_else (JWT_REFRESH_SECRET env) (JWT_SECRET env) = JWT_SECRET env ->
  ObjectId.valid (User._id u) = true ->
  find (fun x => ObjectId.eqb (User._id x) (User._id u)) users = Some u ->
  later / 1000 < issued / 1000 + or_span (JWT_EXPIRES_IN env) 3600 ->
  (forall now token,
     Auth.verifyRefreshToken env now token
     = Jwt.verify token (or_else (JWT_REFRESH_SECRET env) (JWT_SECRET env)) now)
  /\ exists accessToken newToken,
       Auth.generateAccessToken env issued (User._id u) = inr accessToken
       /\ Auth.verifyRefreshToken env later accessToken
          = inr (access_claims env issued (User._id u))
       /\ Json.get (js "type") (access_claims env issued (User._id u)) = None
       /\ Auth.generateAccessToken env later (User._id u) = inr newToken
       /\ AuthController.refresh env users later (Some accessToken) = refreshed newToken.
Proof.
  intros Hs Hc Hv Hf Hl. split; [reflexivity|].
  destruct (generateAccessToken_ok env issued (User._id u) Hs) as (c & k & Ek & Ea).
  assert (Hr : or_else (JWT_REFRESH_SECRET env) (JWT_SECRET env) = Some (c :: k))
    by congruence.
  pose proof (access_claims_plain env issued (User._id u)) as Hp.
  pose proof (claims_exp [Auth.user_claim (User._id u)]
                (or_span (JWT_EXPIRES_IN env) 3600) issued) as He.
  destruct (refresh_accepts env users later _ c k (User._id u) _ u Hr Hs Hp He
              (access_claims_userId env issued (User._id u)) Hv Hf Hl)
    as (newToken & En & Er).
  exists (token_of_claims (access_claims env issued (User._id u)) (c :: k)), newToken.
  split; [exact Ea|]. split; [|split; [reflexivity|split; [exact En|exact Er]]].
  unfold Auth.verifyRefreshToken. rewrite Hr.
  rewrite (verify_token _ c k later _ Hp He).
  replace (_ <=? _) with false by (symmetry; apply N.leb_gt; lia). reflexivity.
Qed.

(** With the example configuration, which sets no refresh secret, the
    access token issued to Alice refreshes a minute later. *)
Lemma access_token_passes_as_refresh_token_witness :
  exists accessToken newToken,
    Auth.generateAccessToken Example.env 1700000000000 Example.alice = inr accessToken
    /\ AuthController.refresh Example.env [Example.alice_user] 1700000060000
                              (Some accessToken)
       = refreshed newToken.
Proof.
  destruct (proj2 (access_token_passes_as_refresh_token Example.env [Example.alice_user]
                     1700000000000 1700000060000 Example.alice_user
                     eq_refl eq_refl eq_refl eq_refl eq_refl))
    as (a & n & H1 & _ & _ & _ & H5).
  exists a, n. split; assumption.
Defined.

(** * Refresh tokens of the Node.js application *)

Lemma issue_ok (env : Env) (now : N) (u : User.t) :
  truthy (JWT_SECRET env) = true ->
  exists accessToken refreshToken,
    AuthController.issue env now u = inr (accessToken, refreshToken)
    /\ Auth.generateAccessToken env now (User._id u) = inr accessToken
    /\ Auth.generateRefreshToken env now (User._id u) = inr refreshToken.
Proof.
  intros Hs.
  destruct (generateAccessToken_ok env now (User._id u) Hs) as (c & k & _ & Ea).
  destruct (generateRefreshToken_ok env now (User._id u)
              (or_else_truthy _ _ Hs)) as (c' & k' & _ & Er).
  do 2 eexists. unfold AuthController.issue. rewrite Ea, Er. repeat split.
Qed.

Lemma issue_inr (env : Env) (now : N) (u : User.t) (a r : jsstring) :
  AuthController.issue env now u = inr (a, r) ->
  Auth.generateRefreshToken env now (User._id u) = inr r.
Proof.
  unfold AuthController.issue.
  destruct (Auth.generateAccessToken _ _ _); [discriminate|].
  destruct (Auth.generateRefreshToken _ _ _); [discriminate|].
  intros [= _ <-]. reflexivity.
Qed.

Lemma create_inr (lib : bcrypt) (users : list User.t) (now : N) (fresh : ObjectId.t)
      (salt : N) (email username password : jsstring) (u : User.t) (users' : list User.t) :
  User.create lib users now fresh salt email username password = inr (u, users') ->
  u = registered lib now fresh salt email username password
  /\ users' = users ++ [u]
  /\ User.validate_username (User.cast_username username) = None
  /\ User.validate_email (User.cast_email email) = None.
Proof.
  unfold User.create, User.validate. cbn [User.username User.email].
  destruct (User.validate_username _); destruct (User.validate_email _);
    try discriminate.
  intros [= <- <-]. repeat split.
Qed.

Lemma create_id (lib : bcrypt) (users : list User.t) (now : N) (fresh : ObjectId.t)
      (salt : N) (email username password : jsstring) (u : User.t) (users' : list User.t) :
  User.create lib users now fresh salt email username password = inr (u, users') ->
  User._id u = fresh.
Proof. intros H. apply create_inr in H as (-> & _). reflexivity. Qed.

Lemma issue_secret (env : Env) (now : N) (u : User.t) (a r : jsstring) :
  AuthController.issue env now u = inr (a, r) -> truthy (JWT_SECRET env) = true.
Proof.
  unfold AuthController.issue, Auth.generateAccessToken, Jwt.sign.
  destruct (JWT_SECRET env) as [[|c k]|]; try discriminate. reflexivity.
Qed.

(** A registration that was answered 201: what it returned, what it
    stored, and what that says about the input. *)
Lemma register_created (lib : bcrypt) (env : Env) (users : list User.t) (now : N)
      (fresh : ObjectId.t) (salt : N) (email username password : jsstring) :
  AuthController.status
    (fst (AuthController.register lib env users now fresh salt email username password))
  = 201 ->
  exists accessToken refreshToken,
    AuthController.register lib env users now fresh salt email username password
    = ({| AuthController.status := 201;
          AuthController.cookie := Some accessToken;
          AuthController.payload :=
            AuthController.Tokens (js "User registered successfully")
              (AuthController.view (registered lib now fresh salt email username password))
              accessToken refreshToken |},
       users ++ [registered lib now fresh salt email username password])
    /\ AuthController.issue env now (registered lib now fresh salt email username password)
       = inr (accessToken, refreshToken)
    /\ truthy (JWT_SECRET env) = true
    /\ User.findOne_email users email = None
    /\ User.validate_username (User.cast_username username) = None
    /\ User.validate_email (User.cast_email email) = None.
Proof.
  unfold AuthController.register.
  destruct (User.findOne_email users email); [discriminate|].
  destruct (User.create _ _ _ _ _ _ _ _) as [m|[u users']] eqn:Ec; [discriminate|].
  apply create_inr in Ec as (-> & -> & Hu & He).
  destruct (AuthController.issue env now _) as [m|[a r]] eqn:Ei; [discriminate|].
  intros _. exists a, r. repeat split; try assumption.
  apply (issue_secret env now _ a r Ei).
Qed.

(** What a refresh token of this application is: the signed token for the
    claims userId, type, iat and exp. *)
Lemma refresh_token_is_signed (env : Env) (now : N) (userId : ObjectId.t) (token : jsstring) :
  Auth.generateRefreshToken env now userId = inr token ->
  exists c k,
    or_else (JWT_REFRESH_SECRET env) (JWT_SECRET env) = Some (c :: k)
    /\ token = token_of_claims (refresh_claims env now userId) (c :: k).
Proof.
  unfold Auth.generateRefreshToken.
  destruct (or_else (JWT_REFRESH_SECRET env) (JWT_SECRET env)) as [[|c k]|];
    try discriminate.
  rewrite sign_eq. intros [= <-]. eauto.
Qed.

Lemma refresh_token_verifies (env : Env) (now later : N) (userId : ObjectId.t)
      (token : jsstring) :
  Auth.generateRefreshToken env now userId = inr token ->
  later / 1000 < now / 1000 + or_span (JWT_REFRESH_EXPIRES_IN env) 604800 ->
  Auth.verifyRefreshToken env later token = inr (refresh_claims env now userId).
Proof.
  intros Hg Hl. destruct (refresh_token_is_signed env now userId token Hg)
    as (c & k & Es & ->).
  unfold Auth.verifyRefreshToken. rewrite Es.
  rewrite (verify_token _ c k later _ (refresh_claims_plain env now userId)
             (claims_exp _ _ _)).
  replace (_ <=? _) with false by (symmetry; apply N.leb_gt; lia). reflexivity.
Qed.

(** C8, as the code has it: a refresh token of the Node.js application is
    no opaque random string.  What [generateRefreshToken] returns is the
    HS256 token for the claims userId, type = 'refresh', iat and exp: three
    runs of base64url characters between two dots, fixed by the user, the
    secret, the second of issue and the life span, and it verifies under
    the refresh secret until it expires.  Registration and login hand out
    exactly that token; the refresh operation hands out no refresh token. *)
Theorem refresh_tokens_are_signed_tokens (lib : bcrypt) (env : Env) (users : list User.t)
        (now : N) :
  (forall userId token,
     Auth.generateRefreshToken env now userId = inr token ->
     Jwt.jwt_shaped token = true
     /\ (exists c k,
           or_else (JWT_REFRESH_SECRET env) (JWT_SECRET env) = Some (c :: k)
           /\ token = token_of_claims (refresh_claims env now userId) (c :: k))
     /\ Json.get (js "type") (refresh_claims env now userId) = Some (Json.Str (js "refresh"))
     /\ forall later,
          later / 1000 < now / 1000 + or_span (JWT_REFRESH_EXPIRES_IN env) 604800 ->
          Auth.verifyRefreshToken env later token = inr (refresh_claims env now userId))
  /\ (forall fresh salt email username password message user accessToken refreshToken,
        AuthController.payload
          (fst (AuthController.register lib env users now fresh salt email username password))
        = AuthController.Tokens message user accessToken refreshToken ->
        Auth.generateRefreshToken env now fresh = inr refreshToken)
  /\ (forall email password message user accessToken refreshToken,
        AuthController.payload (AuthController.login lib env users now email password)
        = AuthController.Tokens message user accessToken refreshToken ->
        Auth.generateRefreshToken env now (AuthController.view_id user) = inr refreshToken)
  /\ (forall token message user accessToken refreshToken,
        AuthController.payload (AuthController.refresh env users now token)
        <> AuthController.Tokens message user accessToken refreshToken).
Proof.
  split; [|split; [|split]].
  - intros userId token Hg.
    pose proof (refresh_token_is_signed env now userId token Hg) as (c & k & Es & Et).
    split; [|split; [|split]].
    + rewrite Et. apply token_shaped, refresh_claims_plain.
    + eauto.
    + reflexivity.
    + intros later Hl. apply (refresh_token_verifies env now later userId token Hg Hl).
  - intros fresh salt email username password message user a r.
    unfold AuthController.register.
    destruct (User.findOne_email users email); [discriminate|].
    destruct (User.create _ _ _ _ _ _ _ _) as [m|[u users']] eqn:Ec; [discriminate|].
    destruct (AuthController.issue env now _) as [m|[a' r']] eqn:Ei; [discriminate|].
    cbn [fst AuthController.payload]. intros [= _ _ _ <-].
    apply issue_inr in Ei. rewrite (create_id _ _ _ _ _ _ _ _ _ _ Ec) in Ei. exact Ei.
  - intros email password message user a r. unfold AuthController.login.
    destruct (User.findOne_email users email) as [u|]; [|discriminate].
    destruct (negb (truthy _)); [discriminate|].
    destruct (negb (User.comparePassword _ _ _)); [discriminate|].
    destruct (AuthController.issue env now u) as [m|[a' r']] eqn:Ei; [discriminate|].
    cbn [AuthController.payload]. intros [= _ <- _ <-].
    apply issue_inr in Ei. exact Ei.
  - intros token message user a r. unfold AuthController.refresh.
    destruct token as [[|c t]|]; try discriminate.
    destruct (Auth.verifyRefreshToken _ _ _); [discriminate|].
    destruct (User.findById _ _) as [m|[u|]]; try discriminate.
    destruct (Auth.generateAccessToken _ _ _); discriminate.
Qed.

Lemma refresh_tokens_are_signed_tokens_witness :
  exists token,
    Auth.generateRefreshToken Example.env 1700000000000 Example.alice = inr token
    /\ Jwt.jwt_shaped token = true.
Proof.
  destruct (issue_ok Example.env 1700000000000 Example.alice_user eq_refl)
    as (a & r & _ & _ & Hr).
  exists r. split; [exact Hr|].
  pose proof (refresh_tokens_are_signed_tokens Example.lenient Example.env [] 1700000000000)
    as [Hsigned _].
  apply (Hsigned Example.alice r Hr).
Defined.

(** The refresh token registration hands to Alice has the shape of a
    signed token and verifies as one. *)
Lemma refresh_token_is_jwt_shaped :
  exists token claims,
    Auth.generateRefreshToken Example.env 1700000000000 Example.alice = inr token
    /\ Jwt.jwt_shaped token = true
    /\ Jwt.verify token (JWT_SECRET Example.env) 1700000060000 = inr claims
    /\ Json.get (js "type") claims = Some (Json.Str (js "refresh")).
Proof.
  do 2 eexists. split; [vm_compute; reflexivity|].
  split; [vm_compute; reflexivity|]. split; vm_compute; reflexivity.
Qed.

(** * Rotation in the C# AuthService *)

Module Issued.
Import CSharp Rotation RotationFacts.

Lemma in_update_user (users : list User) (id : Guid) (f : User -> User) (u : User) :
  In u (update_user users id f) ->
  exists u0, In u0 users /\ u = (if user_Id u0 =? id then f u0 else u0).
Proof.
  unfold update_user. intros H. apply in_map_iff in H as (u0 & <- & H0). eauto.
Qed.

Lemma update_user_in (users : list User) (id : Guid) (f : User -> User) (u0 : User) :
  In u0 users -> In (if user_Id u0 =? id then f u0 else u0) (update_user users id f).
Proof.
  intros H. unfold update_user.
  apply (in_map (fun u => if user_Id u =? id then f u else u)), H.
Qed.

Lemma not_stored_has (T : jsstring) (users : list User) (u : User) :
  token_stored T users = false -> In u users -> has T (RefreshTokens u) = false.
Proof.
  rewrite token_stored_has. intros H Hu.
  destruct (has T (RefreshTokens u)) eqn:E; [|reflexivity].
  assert (existsb (fun u => has T (RefreshTokens u)) users = true)
    by (apply existsb_exists; eauto). congruence.
Qed.

Lemma exists_user (users : list User) (u : User) :
  In u users -> existsb (fun x => user_Id x =? user_Id u) users = true.
Proof. intros H. apply existsb_exists. exists u. split; [exact H|apply N.eqb_refl]. Qed.

Section Services.

Variable HashPassword : jsstring -> N -> jsstring.
Variable VerifyPassword : jsstring -> jsstring -> bool.
Variable GenerateAccessToken : Guid -> jsstring -> N -> jsstring.
Variable RefreshTokenExpirationDays : N.

Local Abbreviation Store := (StoreRefreshTokenAsync RefreshTokenExpirationDays).
Local Abbreviation issue := (issue GenerateAccessToken RefreshTokenExpirationDays).
Local Abbreviation respond := (respond GenerateAccessToken).
Local Abbreviation RefreshTokenAsync :=
  (RefreshTokenAsync GenerateAccessToken RefreshTokenExpirationDays).
Local Abbreviation LoginAsync :=
  (LoginAsync VerifyPassword GenerateAccessToken RefreshTokenExpirationDays).
Local Abbreviation RegisterAsync :=
  (RegisterAsync HashPassword GenerateAccessToken RefreshTokenExpirationDays).
Local Abbreviation after_all :=
  (after_all HashPassword VerifyPassword GenerateAccessToken RefreshTokenExpirationDays).
Local Abbreviation row := (row RefreshTokenExpirationDays).
Local Abbreviation add_row := (add_row RefreshTokenExpirationDays).
Local Abbreviation just_issued := (just_issued RefreshTokenExpirationDays).

Lemma issue_succeeded (saved kept : list User) (user : User) now guid T dto users1 :
  In user saved ->
  issue saved kept user now guid T = (inr dto, users1) ->
  dto = respond user now T /\ just_issued T (user_Id user) now users1.
Proof.
  intros Hin. unfold CSharp.issue.
  destruct (Store saved now guid (user_Id user) T) as [users'|] eqn:Es; [|discriminate].
  intros [= <- <-]. split; [reflexivity|].
  apply store_some in Es as [-> Hf].
  specialize (Hf (exists_user saved user Hin)).
  split.
  - intros u Hu. apply in_update_user in Hu as (u0 & Hu0 & ->).
    pose proof (not_stored_has T saved u0 Hf Hu0) as Hn.
    destruct (N.eqb_spec (user_Id u0) (user_Id user)) as [E|E].
    + unfold Rotation.add_row. cbn [with_tokens RefreshTokens user_Id].
      rewrite count_app, (has_false_count T _ Hn). split; [|auto].
      unfold count. cbn [filter]. destruct (named T _); simpl; lia.
    + rewrite Hn, (has_false_count T _ Hn). split; [lia|discriminate].
  - exists (add_row now guid (user_Id user) T user). split.
    + pose proof (update_user_in saved (user_Id user)
                    (add_row now guid (user_Id user) T) user Hin) as H.
      rewrite N.eqb_refl in H. exact H.
    + intros later Hl. unfold Rotation.add_row. cbn [with_tokens RefreshTokens].
      rewrite existsb_app. apply orb_true_iff. right.
      cbn [existsb]. unfold usable. cbn [Rotation.row Token IsRevoked ExpiresAt].
      rewrite jsstring_eqb_refl. cbn [negb andb].
      replace (later <? _) with true by (symmetry; apply N.ltb_lt; lia). reflexivity.
Qed.


Lemma login_issues users0 now0 guid0 T email password dto users1 :
  LoginAsync users0 now0 guid0 T email password = (inr dto, users1) ->
  exists user, dto = respond user now0 T /\ just_issued T (user_Id user) now0 users1.
Proof.
  unfold CSharp.LoginAsync, GetByEmailAsync.
  destruct (find (same_email email) users0) as [user|] eqn:Ef; [|discriminate].
  apply find_some in Ef as [Hin _].
  destruct (PasswordHash user) as [[|c h]|]; try discriminate.
  destruct (VerifyPassword password (c :: h)); cbn [negb]; [|discriminate].
  intros H. exists user. apply (issue_succeeded users0 users0 user now0 guid0 T dto users1 Hin H).
Qed.


End Services.
End Issued.

(** * Refresh tokens: used once in the port, until they expire in Node.js *)

Lemma find_registered (users more : list User.t) (user : User.t) :
  existsb (fun u => ObjectId.eqb (User._id u) (User._id user)) users = false ->
  find (fun x => ObjectId.eqb (User._id x) (User._id user)) (users ++ [user] ++ more)
  = Some user.
Proof.
  induction users as [|u users IH]; cbn [existsb app find]; intros H.
  - rewrite objectid_eqb_refl. reflexivity.
  - apply orb_false_iff in H as [H1 H2]. rewrite H1. apply IH, H2.
Qed.




(** * The [authenticate] middleware *)

Lemma token_of_bearer (c : N) (t : jsstring) (ck : option (option jsstring)) :
  Middleware.token_of
    {| Middleware.authorization := Some (js "Bearer " ++ c :: t);
       Middleware.cookies := ck |}
  = Some (c :: t).
Proof. reflexivity. Qed.

Lemma token_of_cookie (c : N) (t : jsstring) :
  Middleware.token_of
    {| Middleware.authorization := None;
       Middleware.cookies := Some (Some (c :: t)) |}
  = Some (c :: t).
Proof. reflexivity. Qed.

Lemma token_of_claims_cons (claims : Json.object) (secret : jsstring) :
  exists c t, token_of_claims claims secret = c :: t.
Proof.
  unfold token_of_claims.
  destruct (Jwt.segment Jwt.header) as [|c t] eqn:E.
  - exfalso. revert E. apply segment_nonempty. reflexivity.
  - exists c. eexists. cbn [app]. reflexivity.
Qed.

(** What [authenticate] does with a token this application signed under
    JWT_SECRET, whatever its claims are. *)
Lemma authenticate_signed (env : Env) (users : list User.t) (later : N)
      (req : Middleware.request) (claims : Json.object) (c : N) (k : jsstring) (exp : N) :
  JWT_SECRET env = Some (c :: k) ->
  plain_object claims = true ->
  Json.get (js "exp") claims = Some (Json.Num exp) ->
  Middleware.token_of req = Some (token_of_claims claims (c :: k)) ->
  Middleware.authenticate env users later req
  = if exp <=? later / 1000
    then Middleware.Reply 401 (js "Token expired. Please login again.")
    else match User.findById users (Json.get (js "userId") claims) with
         | inl _ => Middleware.Reply 500 (js "Authentication failed.")
         | inr None => Middleware.Reply 401 (js "User not found.")
         | inr (Some user) => Middleware.Next user
         end.
Proof.
  intros Hs Hp He Ht. unfold Middleware.authenticate. rewrite Ht.
  destruct (token_of_claims_cons claims (c :: k)) as (c0 & t0 & E). rewrite E.
  rewrite <- E, Hs, (verify_token claims c k later exp Hp He).
  destruct (exp <=? later / 1000); reflexivity.
Qed.

Lemma cookie_token_authenticates (env : Env) (users : list User.t)
      (issued later : N) (u : User.t) :
  truthy (JWT_SECRET env) = true ->
  ObjectId.valid (User._id u) = true ->
  find (fun x => ObjectId.eqb (User._id x) (User._id u)) users = Some u ->
  later / 1000 < issued / 1000 + or_span (JWT_EXPIRES_IN env) 3600 ->
  exists token,
    Auth.generateAccessToken env issued (User._id u) = inr token
    /\ Middleware.authenticate env users later
         {| Middleware.authorization := None;
            Middleware.cookies := Some (Some token) |}
       = Middleware.Next u.
Proof.
  intros Hs Hv Hf Hl.
  destruct (generateAccessToken_ok env issued (User._id u) Hs) as (c & k & Ek & Eg).
  eexists. split; [exact Eg|].
  destruct (token_of_claims_cons (access_claims env issued (User._id u)) (c :: k))
    as (c0 & t0 & E).
  rewrite (authenticate_signed env users later _ (access_claims env issued (User._id u))
             c k _ Ek (access_claims_plain env issued (User._id u)) (claims_exp _ _ _)).
  - replace (_ <=? _) with false by (symmetry; apply N.leb_gt; exact Hl).
    rewrite access_claims_userId, (findById_stored users (User._id u) Hv), Hf.
    reflexivity.
  - rewrite E. apply token_of_cookie.
Qed.

(** X1.  An access token opens the door for its user, by header or by cookie,
    until the second it expires, and from that second on it is answered
    with 401 'Token expired'.  A bearer token in the header is the one
    that counts: whatever cookie comes with it is not looked at. *)
Theorem access_token_authenticates_until_expiry (env : Env) (users : list User.t)
        (issued later : N) (u : User.t) (ck : option (option jsstring)) :
  truthy (JWT_SECRET env) = true ->
  ObjectId.valid (User._id u) = true ->
  find (fun x => ObjectId.eqb (User._id x) (User._id u)) users = Some u ->
  exists token,
    Auth.generateAccessToken env issued (User._id u) = inr token
    /\ let by_header :=
         {| Middleware.authorization := Some (js "Bearer " ++ token);
            Middleware.cookies := ck |} in
       let by_cookie :=
         {| Middleware.authorization := None;
            Middleware.cookies := Some (Some token) |} in
       let expiry := issued / 1000 + or_span (JWT_EXPIRES_IN env) 3600 in
       (later / 1000 < expiry ->
        Middleware.authenticate env users later by_header = Middleware.Next u
        /\ Middleware.authenticate env users later by_cookie = Middleware.Next u)
       /\ (expiry <= later / 1000 ->
           Middleware.authenticate env users later by_header
           = Middleware.Reply 401 (js "Token expired. Please login again.")
           /\ Middleware.authenticate env users later by_cookie
              = Middleware.Reply 401 (js "Token expired. Please login again.")).
Proof.
  intros Hs Hv Hf.
  destruct (generateAccessToken_ok env issued (User._id u) Hs) as (c & k & Ek & Eg).
  eexists. split; [exact Eg|]. cbv zeta.
  destruct (token_of_claims_cons (access_claims env issued (User._id u)) (c :: k))
    as (c0 & t0 & E).
  assert (Hh : forall req,
             Middleware.token_of req
             = Some (token_of_claims (access_claims env issued (User._id u)) (c :: k)) ->
             Middleware.authenticate env users later req
             = if issued / 1000 + or_span (JWT_EXPIRES_IN env) 3600 <=? later / 1000
               then Middleware.Reply 401 (js "Token expired. Please login again.")
               else Middleware.Next u).
  { intros req Hreq.
    rewrite (authenticate_signed env users later req _ c k _ Ek
               (access_claims_plain env issued (User._id u)) (claims_exp _ _ _) Hreq).
    rewrite access_claims_userId, (findById_stored users (User._id u) Hv), Hf.
    reflexivity. }
  assert (H1 : Middleware.token_of
                 {| Middleware.authorization :=
                      Some (js "Bearer "
                              ++ token_of_claims (access_claims env issued (User._id u))
                                                 (c :: k));
                    Middleware.cookies := ck |}
               = Some (token_of_claims (access_claims env issued (User._id u)) (c :: k))).
  { rewrite E. apply token_of_bearer. }
  assert (H2 : Middleware.token_of
                 {| Middleware.authorization := None;
                    Middleware.cookies :=
                      Some (Some (token_of_claims (access_claims env issued (User._id u))
                                                  (c :: k))) |}
               = Some (token_of_claims (access_claims env issued (User._id u)) (c :: k))).
  { rewrite E. apply token_of_cookie. }
  split; intros Hl; rewrite (Hh _ H1), (Hh _ H2).
  - replace (_ <=? _) with false by (symmetry; apply N.leb_gt; exact Hl). split; reflexivity.
  - replace (_ <=? _) with true by (symmetry; apply N.leb_le; exact Hl). split; reflexivity.
Qed.

Lemma access_token_authenticates_until_expiry_witness :
  exists token,
    Auth.generateAccessToken Example.env 1700000000000 (User._id Example.alice_user)
    = inr token
    /\ Middleware.authenticate Example.env [Example.alice_user] 1700003599999
         {| Middleware.authorization := Some (js "Bearer " ++ token);
            Middleware.cookies := Some (Some (js "stale")) |}
       = Middleware.Next Example.alice_user
    /\ Middleware.authenticate Example.env [Example.alice_user] 1700003600000
         {| Middleware.authorization := Some (js "Bearer " ++ token);
            Middleware.cookies := Some (Some (js "stale")) |}
       = Middleware.Reply 401 (js "Token expired. Please login again.").
Proof.
  destruct (access_token_authenticates_until_expiry
              Example.env [Example.alice_user] 1700000000000 1700003599999
              Example.alice_user (Some (Some (js "stale"))) eq_refl eq_refl eq_refl)
    as (token & Eg & Hlive & _).
  destruct (access_token_authenticates_until_expiry
              Example.env [Example.alice_user] 1700000000000 1700003600000
              Example.alice_user (Some (Some (js "stale"))) eq_refl eq_refl eq_refl)
    as (token' & Eg' & _ & Hdead).
  assert (token' = token) by congruence. subst token'.
  exists token. split; [exact Eg|]. split.
  - apply Hlive. vm_compute. reflexivity.
  - apply Hdead. vm_compute. discriminate.
Defined.

(** X2.  [authenticate] does not look at the 'type' claim either: where no
    separate refresh secret is configured, a refresh token presented as a
    bearer token opens the door for its user for as long as the refresh
    token lives. *)
Theorem refresh_token_passes_as_access_token (env : Env) (users : list User.t)
        (issued later : N) (u : User.t) (ck : option (option jsstring)) :
  truthy (JWT_SECRET env) = true ->
  or_else (JWT_REFRESH_SECRET env) (JWT_SECRET env) = JWT_SECRET env ->
  ObjectId.valid (User._id u) = true ->
  find (fun x => ObjectId.eqb (User._id x) (User._id u)) users = Some u ->
  later / 1000 < issued / 1000 + or_span (JWT_REFRESH_EXPIRES_IN env) 604800 ->
  exists refreshToken,
    Auth.generateRefreshToken env issued (User._id u) = inr refreshToken
    /\ Middleware.authenticate env users later
         {| Middleware.authorization := Some (js "Bearer " ++ refreshToken);
            Middleware.cookies := ck |}
       = Middleware.Next u.
Proof.
  intros Hs Hsame Hv Hf Hl.
  assert (Ht : truthy (or_else (JWT_REFRESH_SECRET env) (JWT_SECRET env)) = true)
    by (rewrite Hsame; exact Hs).
  destruct (generateRefreshToken_ok env issued (User._id u) Ht) as (c & k & Ek & Eg).
  rewrite Hsame in Ek.
  eexists. split; [exact Eg|].
  destruct (token_of_claims_cons (refresh_claims env issued (User._id u)) (c :: k))
    as (c0 & t0 & E).
  rewrite (authenticate_signed env users later _ (refresh_claims env issued (User._id u))
             c k _ Ek (refresh_claims_plain env issued (User._id u)) (claims_exp _ _ _)).
  - replace (_ <=? _) with false by (symmetry; apply N.leb_gt; exact Hl).
    rewrite refresh_claims_userId, (findById_stored users (User._id u) Hv), Hf.
    reflexivity.
  - rewrite E. apply token_of_bearer.
Qed.

Lemma refresh_token_passes_as_access_token_witness :
  exists refreshToken,
    Auth.generateRefreshToken Example.env 1700000000000 (User._id Example.alice_user)
    = inr refreshToken
    /\ Middleware.authenticate Example.env [Example.alice_user] 1700500000000
         {| Middleware.authorization := Some (js "Bearer " ++ refreshToken);
            Middleware.cookies := None |}
       = Middleware.Next Example.alice_user.
Proof.
  apply (refresh_token_passes_as_access_token
           Example.env [Example.alice_user] 1700000000000 1700500000000
           Example.alice_user None); vm_compute; reflexivity.
Defined.

(** X3.  A token outlives its user only on paper: once no stored user has the
    id it names, an access token that has not expired is answered with
    401 'User not found.' *)
Theorem token_of_removed_user_is_refused (env : Env) (users : list User.t)
        (issued later : N) (uid : ObjectId.t) (ck : option (option jsstring)) :
  truthy (JWT_SECRET env) = true ->
  ObjectId.valid uid = true ->
  existsb (fun x => ObjectId.eqb (User._id x) uid) users = false ->
  later / 1000 < issued / 1000 + or_span (JWT_EXPIRES_IN env) 3600 ->
  exists token,
    Auth.generateAccessToken env issued uid = inr token
    /\ Middleware.authenticate env users later
         {| Middleware.authorization := Some (js "Bearer " ++ token);
            Middleware.cookies := ck |}
       = Middleware.Reply 401 (js "User not found.").
Proof.
  intros Hs Hv Hn Hl.
  destruct (generateAccessToken_ok env issued uid Hs) as (c & k & Ek & Eg).
  eexists. split; [exact Eg|].
  destruct (token_of_claims_cons (access_claims env issued uid) (c :: k)) as (c0 & t0 & E).
  rewrite (authenticate_signed env users later _ (access_claims env issued uid)
             c k _ Ek (access_claims_plain env issued uid) (claims_exp _ _ _)).
  - replace (_ <=? _) with false by (symmetry; apply N.leb_gt; exact Hl).
    rewrite access_claims_userId, (findById_stored users uid Hv).
    destruct (find _ users) as [x|] eqn:Ef; [|reflexivity].
    apply find_some in Ef as [Hin Hx].
    assert (existsb (fun x => ObjectId.eqb (User._id x) uid) users = true)
      by (apply existsb_exists; eauto).
    congruence.
  - rewrite E. apply token_of_bearer.
Qed.

Lemma token_of_removed_user_is_refused_witness :
  exists token,
    Auth.generateAccessToken Example.env 1700000000000 Example.bob = inr token
    /\ Middleware.authenticate Example.env [Example.alice_user] 1700000060000
         {| Middleware.authorization := Some (js "Bearer " ++ token);
            Middleware.cookies := None |}
       = Middleware.Reply 401 (js "User not found.").
Proof.
  apply (token_of_removed_user_is_refused
           Example.env [Example.alice_user] 1700000000000 1700000060000
           Example.bob None); vm_compute; reflexivity.
Defined.

(** X4.  Without a token there is no way in, whatever the store holds: no
    Authorization header, one that does not start with 'Bearer ', or one
    that is 'Bearer ' and nothing more, together with no cookie or an
    empty one, is answered with 401 before any token is verified. *)
Theorem no_token_is_refused (env : Env) (users : list User.t) (now : N)
        (req : Middleware.request) :
  (Middleware.authorization req = None
   \/ exists h, Middleware.authorization req = Some h
                /\ (Middleware.startsWith h (js "Bearer ") = false \/ h = js "Bearer ")) ->
  (Middleware.cookies req = None \/ Middleware.cookies req = Some None
   \/ Middleware.cookies req = Some (Some [])) ->
  Middleware.authenticate env users now req
  = Middleware.Reply 401 (js "Authentication required. No token provided.").
Proof.
  intros Hh Hc. unfold Middleware.authenticate.
  assert (Hb : Middleware.bearer req = None \/ Middleware.bearer req = Some []).
  { unfold Middleware.bearer.
    destruct Hh as [->|(h & -> & [Hs| ->])]; [left; reflexivity| |right; reflexivity].
    destruct h as [|c h]; [left; reflexivity|]. rewrite Hs. left; reflexivity. }
  assert (Ht : Middleware.token_of req = None \/ Middleware.token_of req = Some []).
  { unfold Middleware.token_of.
    destruct Hb as [-> | ->]; cbn [truthy negb];
      destruct Hc as [-> | [-> | ->]]; auto. }
  destruct Ht as [-> | ->]; reflexivity.
Qed.

Lemma no_token_is_refused_witness :
  Middleware.authenticate Example.env [Example.alice_user] 1700000000000
    {| Middleware.authorization := Some (js "Basic YWxpY2U6cHc=");
       Middleware.cookies := Some None |}
  = Middleware.Reply 401 (js "Authentication required. No token provided.").
Proof.
  apply no_token_is_refused; cbn [Middleware.authorization Middleware.cookies].
  - right. eexists. split; [reflexivity|]. left. vm_compute. reflexivity.
  - right. left. reflexivity.
Defined.

(** * The life of a to-do in the Node.js application *)

Lemma base64_encode_length (bs : buffer) :
  length (Base64.encode bs) = (4 * ((length bs + 2) / 3))%nat.
Proof.
  induction bs as [| a | a b | a b c rest IH] using list_ind3; try reflexivity.
  change (Base64.encode (a :: b :: c :: rest))
    with (Base64.digit Base64.alphabet
            ((N_of_byte a * 65536 + N_of_byte b * 256 + N_of_byte c) / 262144)
          :: Base64.digit Base64.alphabet
               (((N_of_byte a * 65536 + N_of_byte b * 256 + N_of_byte c) / 4096) mod 64)
          :: Base64.digit Base64.alphabet
               (((N_of_byte a * 65536 + N_of_byte b * 256 + N_of_byte c) / 64) mod 64)
          :: Base64.digit Base64.alphabet
               ((N_of_byte a * 65536 + N_of_byte b * 256 + N_of_byte c) mod 64)
          :: Base64.encode rest).
  cbn [length]. rewrite IH.
  replace (S (S (S (length rest))) + 2)%nat with (1 * 3 + (length rest + 2))%nat by lia.
  rewrite Nat.div_add_l by lia. lia.
Qed.

Lemma encrypt_inv (env : Env) (entropy : N) (plaintext : jsstring) (e : Crypto.encrypted) :
  Crypto.encrypt env entropy plaintext = inr e ->
  exists key,
    Crypto.getEncryptionKey env = inr key
    /\ let iv := randomBytes 12 entropy in
       let c := Gcm.gctr (Aes.encrypt_block key)
                         (Gcm.inc32 (Gcm.j0 (Aes.encrypt_block key) iv))
                         (Utf8.encode plaintext) in
       e = {| Crypto.encryptedContent := Base64.encode c;
              Crypto.iv := Base64.encode iv;
              Crypto.authTag := Base64.encode (Gcm.tag (Aes.encrypt_block key) iv c) |}.
Proof.
  unfold Crypto.encrypt.
  destruct (Crypto.getEncryptionKey env) as [m|key]; [discriminate|].
  intros [= <-]. exists key. split; reflexivity.
Qed.

Lemma bytes_of_cons (cp : N) : exists b l, Utf8.bytes_of cp = b :: l.
Proof.
  unfold Utf8.bytes_of.
  destruct (cp <? 0x80); [eauto|]. destruct (cp <? 0x800); [eauto|].
  destruct (cp <? 0x10000); eauto.
Qed.

Lemma encode_nonempty (s : jsstring) : s <> [] -> Utf8.encode s <> [].
Proof.
  destruct s as [|u rest]; [congruence|]. intros _ H.
  apply (f_equal (@length _)) in H. unfold Utf8.encode in H.
  rewrite length_map in H. cbn [Utf8.encode_units length] in H.
  destruct (Utf8.is_high u).
  - destruct rest as [|v rest'].
    + destruct (bytes_of_cons Utf8.replacement) as (b & l & E). rewrite E in H.
      discriminate H.
    + destruct (Utf8.is_low v);
        match type of H with
        | context [Utf8.bytes_of ?cp] =>
            destruct (bytes_of_cons cp) as (b & l & E); rewrite E in H; discriminate H
        end.
  - destruct (Utf8.is_low u);
      match type of H with
      | context [Utf8.bytes_of ?cp] =>
          destruct (bytes_of_cons cp) as (b & l & E); rewrite E in H; discriminate H
      end.
Qed.

Lemma required_filled (path value : jsstring) :
  length value <> 0%nat -> Todo.required path value = [].
Proof. destruct value; [intros H; contradiction H; reflexivity | reflexivity]. Qed.

(** What the schema says to the document [createTodo] and [updateTodo]
    build from what [encrypt] returned: it passes unless the content was
    the empty string, whose ciphertext is the empty string. *)
Lemma validate_sealed (env : Env) (entropy : N) (content : jsstring) (e : Crypto.encrypted)
      (id owner : ObjectId.t) (created updated : N) :
  Crypto.encrypt env entropy content = inr e ->
  Todo.validate
    {| Todo._id := id; Todo.userId := owner;
       Todo.encryptedContent := Crypto.encryptedContent e;
       Todo.iv := Crypto.iv e; Todo.authTag := Crypto.authTag e;
       Todo.integrityHash := Hash.computeSHA256 content;
       Todo.createdAt := created; Todo.updatedAt := updated |}
  = match content with
    | [] => Some (js "Todo validation failed: encryptedContent: Path `encryptedContent` is required.")
    | _ :: _ => None
    end.
Proof.
  intros He. destruct (encrypt_inv env entropy content e He) as (key & _ & ->).
  cbv zeta. unfold Todo.validate.
  cbn [Todo.encryptedContent Todo.iv Todo.authTag Todo.integrityHash
       Crypto.encryptedContent Crypto.iv Crypto.authTag].
  rewrite (required_filled (js "iv"))
    by (rewrite base64_encode_length, randomBytes_length; discriminate).
  rewrite (required_filled (js "authTag"))
    by (rewrite base64_encode_length, tag_length; discriminate).
  rewrite (required_filled (js "integrityHash"))
    by (unfold Hash.computeSHA256; rewrite hex_encode_length, digest_length; discriminate).
  destruct content as [|c content'] eqn:Ec.
  - reflexivity.
  - rewrite required_filled; [reflexivity|].
    rewrite base64_encode_length, gctr_length.
    assert (Hn : Utf8.encode (c :: content') <> []) by (apply encode_nonempty; discriminate).
    destruct (Utf8.encode (c :: content')) as [|b l]; [contradiction Hn; reflexivity|].
    cbn [length]. replace (S (length l) + 2)%nat with (1 * 3 + length l)%nat by lia.
    rewrite Nat.div_add_l by lia. lia.
Qed.

Lemma encrypt_ok (env : Env) (entropy : N) (plaintext : jsstring) :
  key_ok env -> exists e, Crypto.encrypt env entropy plaintext = inr e.
Proof.
  intros [key Hk]. unfold Crypto.encrypt. rewrite Hk.
  destruct (Gcm.seal _ _ _). eauto.
Qed.

Lemma read_one_sealed (env : Env) (entropy : N) (content : jsstring) (e : Crypto.encrypted)
      (id owner : ObjectId.t) (created updated : N) :
  Utf8.well_formed content = true ->
  Crypto.encrypt env entropy content = inr e ->
  TodoController.read_one env
    {| Todo._id := id; Todo.userId := owner;
       Todo.encryptedContent := Crypto.encryptedContent e;
       Todo.iv := Crypto.iv e; Todo.authTag := Crypto.authTag e;
       Todo.integrityHash := Hash.computeSHA256 content;
       Todo.createdAt := created; Todo.updatedAt := updated |}
  = {| TodoController.id := id; TodoController.content := content;
       TodoController.tampered := Some false; TodoController.error := None;
       TodoController.createdAt := created; TodoController.updatedAt := updated |}.
Proof.
  intros Hw He. unfold TodoController.read_one.
  cbn [Todo.encryptedContent Todo.iv Todo.authTag Todo.integrityHash Todo._id
       Todo.createdAt Todo.updatedAt].
  rewrite (decrypt_encrypt env entropy content e Hw He).
  replace (Hash.verifyIntegrity content (Hash.computeSHA256 content)) with true
    by (symmetry; apply verifyIntegrity_true; reflexivity).
  reflexivity.
Qed.

Lemma find_by_user_other (store : list Todo.t) (d : Todo.t) (other : ObjectId.t) :
  Todo.userId d <> other ->
  Todo.find_by_user (store ++ [d]) other = Todo.find_by_user store other.
Proof.
  intros Hne. unfold Todo.find_by_user. rewrite filter_app. cbn [filter].
  destruct (Todo.owned_by other d) eqn:E.
  - apply owned_by_eq in E. contradiction.
  - rewrite app_nil_r. reflexivity.
Qed.

Lemma in_getTodos (env : Env) (store : list Todo.t) (owner : ObjectId.t) (d : Todo.t) :
  In d store -> Todo.userId d = owner ->
  exists views,
    TodoController.getTodos env store owner
    = {| TodoController.status := 200;
         TodoController.payload := TodoController.Todos views |}
    /\ In (TodoController.read_one env d) views.
Proof.
  intros Hin Ho. eexists. split; [reflexivity|].
  rewrite read_all_map. apply in_map, in_find_by_user. split; assumption.
Qed.

(** X5.  What [createTodo] stores reads back as what was sent.  With a key
    in place, content that is well-formed text and not the empty string
    is answered 201 with the content; exactly one document is added for
    the caller at the end of the store, and a read by the caller then
    lists that document clean (tampered = false) with the same content,
    while what every other user reads is what it was.  The empty string
    is not stored: its ciphertext is the empty string, which the schema
    refuses, so the call answers 500 and leaves the store as it was. *)
Theorem created_todo_reads_back (env : Env) (store : list Todo.t) (now : N)
        (fresh : ObjectId.t) (entropy : N) (userId : ObjectId.t) (content : jsstring) :
  key_ok env ->
  (exists message,
     TodoController.createTodo env store now fresh entropy userId []
     = ({| TodoController.status := 500;
           TodoController.payload :=
             TodoController.Failure (js "Failed to create todo") (Some message) |},
        store))
  /\ (Utf8.well_formed content = true ->
      content <> [] ->
      exists todo views,
        TodoController.createTodo env store now fresh entropy userId content
        = ({| TodoController.status := 201;
              TodoController.payload :=
                TodoController.Saved (js "Todo created successfully")
                  {| TodoController.id := fresh; TodoController.content := content;
                     TodoController.tampered := None; TodoController.error := None;
                     TodoController.createdAt := now; TodoController.updatedAt := now |} |},
           store ++ [todo])
        /\ Todo._id todo = fresh /\ Todo.userId todo = userId
        /\ TodoController.getTodos env (store ++ [todo]) userId
           = {| TodoController.status := 200;
                TodoController.payload := TodoController.Todos views |}
        /\ In {| TodoController.id := fresh; TodoController.content := content;
                 TodoController.tampered := Some false; TodoController.error := None;
                 TodoController.createdAt := now; TodoController.updatedAt := now |} views
        /\ length views = S (length (Todo.find_by_user store userId))
        /\ forall other, other <> userId ->
             TodoController.getTodos env (store ++ [todo]) other
             = TodoController.getTodos env store other).
Proof.
  intros Hk. split.
  - destruct (encrypt_ok env entropy [] Hk) as [e He].
    unfold TodoController.createTodo. rewrite He.
    rewrite (validate_sealed env entropy [] e fresh userId now now He). eauto.
  - intros Hw Hne. destruct (encrypt_ok env entropy content Hk) as [e He].
    unfold TodoController.createTodo. rewrite He.
    rewrite (validate_sealed env entropy content e fresh userId now now He).
    destruct content as [|c0 content0] eqn:Ec; [contradiction Hne; reflexivity|].
    rewrite <- Ec in *. clear Ec.
    eexists. eexists. split; [reflexivity|].
    split; [reflexivity|]. split; [reflexivity|]. split; [reflexivity|].
    split; [|split].
    + rewrite read_all_map.
      rewrite <- (read_one_sealed env entropy content e fresh userId now now Hw He).
      apply in_map, in_find_by_user. split; [|reflexivity].
      apply in_or_app. right. left. reflexivity.
    + rewrite read_all_map, length_map. unfold Todo.find_by_user.
      rewrite !newest_first_length, filter_app, length_app. cbn [filter].
      replace (Todo.owned_by userId _) with true
        by (symmetry; apply owned_by_eq; reflexivity).
      cbn [length]. lia.
    + intros other Hne'. unfold TodoController.getTodos.
      rewrite find_by_user_other; [reflexivity|]. cbn [Todo.userId]. congruence.
Qed.

Lemma created_todo_reads_back_witness :
  exists todo views,
    snd (TodoController.createTodo Example.env Example.store 1700000005000
           Example.second_id 5 Example.alice (js "call mum"))
    = Example.store ++ [todo]
    /\ TodoController.getTodos Example.env (Example.store ++ [todo]) Example.alice
       = {| TodoController.status := 200;
            TodoController.payload := TodoController.Todos views |}
    /\ In (js "call mum") (map TodoController.content views).
Proof.
  destruct (created_todo_reads_back Example.env Example.store 1700000005000
              Example.second_id 5 Example.alice (js "call mum")) as [_ H].
  - exists Example.key. vm_compute. reflexivity.
  - destruct H as (todo & views & Ec & _ & _ & Eg & Hin & _);
      [reflexivity | discriminate |].
    exists todo, views. rewrite Ec. split; [reflexivity|]. split; [exact Eg|].
    apply (in_map TodoController.content) in Hin. exact Hin.
Defined.

(** X6.  When the key is missing or unusable nothing is written: [createTodo]
    answers 500 and leaves the store as it was, and so does [updateTodo]
    on a document the caller owns. *)
Theorem failed_encryption_stores_nothing (env : Env) (store : list Todo.t) (now entropy : N)
        (userId : ObjectId.t) (content : jsstring) (message : jsstring) :
  Crypto.getEncryptionKey env = inl message ->
  (forall fresh,
     TodoController.createTodo env store now fresh entropy userId content
     = ({| TodoController.status := 500;
           TodoController.payload :=
             TodoController.Failure (js "Failed to create todo")
                                    (Some (js "Encryption failed: " ++ message)) |},
        store))
  /\ (forall todoId d,
        ObjectId.parse todoId = Some (Todo._id d) ->
        In d store -> Todo.userId d = userId ->
        TodoController.updateTodo env store now entropy userId todoId content
        = ({| TodoController.status := 500;
              TodoController.payload :=
                TodoController.Failure (js "Failed to update todo")
                                       (Some (js "Encryption failed: " ++ message)) |},
           store)).
Proof.
  intros Hk.
  assert (He : Crypto.encrypt env entropy content = inl (js "Encryption failed: " ++ message))
    by (unfold Crypto.encrypt; rewrite Hk; reflexivity).
  split.
  - intros fresh. unfold TodoController.createTodo. rewrite He. reflexivity.
  - intros todoId d Hp Hin Ho. unfold TodoController.updateTodo. rewrite Hp.
    destruct (Todo.findOne store (Todo._id d) userId) as [x|] eqn:Ef.
    + rewrite He. reflexivity.
    + exfalso. rewrite findOne_none in Ef. apply (Ef d Hin eq_refl Ho).
Qed.

Lemma failed_encryption_stores_nothing_witness :
  snd (TodoController.createTodo
         {| AES_KEY := None; JWT_SECRET := None; JWT_REFRESH_SECRET := None;
            JWT_EXPIRES_IN := None; JWT_REFRESH_EXPIRES_IN := None |}
         Example.store 1700000005000 Example.second_id 5 Example.alice (js "call mum"))
  = Example.store.
Proof.
  rewrite (proj1 (failed_encryption_stores_nothing
                    {| AES_KEY := None; JWT_SECRET := None; JWT_REFRESH_SECRET := None;
                       JWT_EXPIRES_IN := None; JWT_REFRESH_EXPIRES_IN := None |}
                    Example.store 1700000005000 5 Example.alice (js "call mum")
                    (js "AES_KEY environment variable is not set") eq_refl)).
  reflexivity.
Defined.

Lemma read_one_id (env : Env) (d : Todo.t) :
  TodoController.id (TodoController.read_one env d) = Todo._id d.
Proof.
  unfold TodoController.read_one.
  destruct (Crypto.decrypt _ _ _ _); [reflexivity|].
  destruct (negb _); reflexivity.
Qed.

Lemma read_one_createdAt (env : Env) (d : Todo.t) :
  TodoController.createdAt (TodoController.read_one env d) = Todo.createdAt d.
Proof.
  unfold TodoController.read_one.
  destruct (Crypto.decrypt _ _ _ _); [reflexivity|].
  destruct (negb _); reflexivity.
Qed.

Lemma findOne_own (store : list Todo.t) (d : Todo.t) :
  NoDup (map Todo._id store) -> In d store ->
  Todo.findOne store (Todo._id d) (Todo.userId d) = Some d.
Proof.
  intros Hn Hin.
  destruct (Todo.findOne store (Todo._id d) (Todo.userId d)) as [x|] eqn:Ef.
  - apply findOne_some in Ef as (Hx & Hid & _).
    f_equal. apply (id_is_key store x d Hn Hx Hin Hid).
  - rewrite findOne_none in Ef. exfalso. apply (Ef d Hin eq_refl eq_refl).
Qed.

Lemma save_split (before rest : list Todo.t) (d d' : Todo.t) :
  NoDup (map Todo._id (before ++ d :: rest)) ->
  Todo._id d' = Todo._id d ->
  Todo.save (before ++ d :: rest) d' = before ++ d' :: rest.
Proof.
  intros Hn Hid. induction before as [|x before IH]; cbn [app Todo.save].
  - rewrite Hid, objectid_eqb_refl. reflexivity.
  - cbn [app map] in Hn. inversion Hn as [|? ? Hx Hn']; subst.
    destruct (ObjectId.eqb (Todo._id x) (Todo._id d')) eqn:E.
    + exfalso. apply objectid_eqb_eq in E. apply Hx. rewrite E, Hid.
      apply in_map, in_or_app. right. left. reflexivity.
    + f_equal. apply IH, Hn'.
Qed.

Lemma nodup_id_middle (before rest : list Todo.t) (d x : Todo.t) :
  NoDup (map Todo._id (before ++ d :: rest)) ->
  In x (before ++ rest) -> Todo._id x <> Todo._id d.
Proof.
  intros Hn Hin Heq. rewrite map_app in Hn. cbn [map] in Hn.
  apply NoDup_remove_2 in Hn. apply Hn. rewrite <- Heq, <- map_app.
  apply in_map, Hin.
Qed.

(** X7.  What [updateTodo] writes reads back as what was sent.  On a
    document the caller owns, with a key in place, content that is
    well-formed text and not the empty string is answered 200; the
    document keeps its id, owner and creation time, gets the time of the
    call as its update time, and reads back clean with the new content;
    the store holds the same ids as before and the old version of the
    document is no longer in it.  The empty string is not written: the
    schema refuses its empty ciphertext, the call answers 500, and the
    document stays as it was. *)
Theorem updated_todo_reads_back (env : Env) (store : list Todo.t) (now entropy : N)
        (caller : ObjectId.t) (todoId content : jsstring) (d : Todo.t) :
  NoDup (map Todo._id store) ->
  key_ok env ->
  In d store -> Todo.userId d = caller ->
  ObjectId.parse todoId = Some (Todo._id d) ->
  (exists message,
     TodoController.updateTodo env store now entropy caller todoId []
     = ({| TodoController.status := 500;
           TodoController.payload :=
             TodoController.Failure (js "Failed to update todo") (Some message) |},
        store))
  /\ (Utf8.well_formed content = true ->
      content <> [] ->
      exists d' before rest,
        store = before ++ d :: rest
        /\ TodoController.updateTodo env store now entropy caller todoId content
           = ({| TodoController.status := 200;
                 TodoController.payload :=
                   TodoController.Saved (js "Todo updated successfully")
                     {| TodoController.id := Todo._id d; TodoController.content := content;
                        TodoController.tampered := None; TodoController.error := None;
                        TodoController.createdAt := Todo.createdAt d;
                        TodoController.updatedAt := now |} |},
              before ++ d' :: rest)
        /\ Todo._id d' = Todo._id d /\ Todo.userId d' = caller
        /\ TodoController.read_one env d'
           = {| TodoController.id := Todo._id d; TodoController.content := content;
                TodoController.tampered := Some false; TodoController.error := None;
                TodoController.createdAt := Todo.createdAt d;
                TodoController.updatedAt := now |}
        /\ In (TodoController.read_one env d')
              (TodoController.read_all env (Todo.find_by_user (before ++ d' :: rest) caller))
        /\ forall x, In x (before ++ d' :: rest) -> Todo._id x = Todo._id d -> x = d').
Proof.
  intros Hn Hk Hin Ho Hp. split.
  - destruct (encrypt_ok env entropy [] Hk) as [e He].
    unfold TodoController.updateTodo. rewrite Hp, <- Ho, (findOne_own _ d Hn Hin), He.
    rewrite (validate_sealed env entropy [] e _ _ _ now He). eauto.
  - intros Hw Hne.
    destruct (encrypt_ok env entropy content Hk) as [e He].
    destruct (in_split d store Hin) as (before & rest & Es). subst store.
    unfold TodoController.updateTodo. rewrite Hp, <- Ho, (findOne_own _ d Hn Hin), He.
    rewrite (validate_sealed env entropy content e _ _ _ now He).
    destruct content as [|c0 content0] eqn:Ec; [contradiction Hne; reflexivity|].
    rewrite <- Ec in *. clear Ec.
    eexists. exists before, rest. split; [reflexivity|].
    split; [rewrite (save_split before rest d _ Hn); reflexivity|].
    split; [reflexivity|]. split; [reflexivity|].
    split; [apply (read_one_sealed env entropy content e _ _ _ _ Hw He)|].
    split.
    + rewrite read_all_map. apply in_map, in_find_by_user.
      split; [apply in_or_app; right; left; reflexivity | reflexivity].
    + intros x Hx Hid. apply in_app_or in Hx as [Hx|[Hx|Hx]]; [|symmetry; exact Hx|];
        exfalso; apply (nodup_id_middle before rest d x Hn); auto using in_or_app.
Qed.

Lemma updated_todo_reads_back_witness :
  map TodoController.content
      (TodoController.read_all Example.env
         (Todo.find_by_user
            (snd (TodoController.updateTodo Example.env Example.store 1700000009000 9
                    Example.alice (ObjectId.toString Example.first_id) (js "buy oat milk")))
            Example.alice))
  = [js "buy oat milk"].
Proof.
  destruct (updated_todo_reads_back Example.env Example.store 1700000009000 9
              Example.alice (ObjectId.toString Example.first_id) (js "buy oat milk")
              Example.milk) as [_ H].
  - vm_compute. repeat constructor; cbn; intuition discriminate.
  - exists Example.key. vm_compute. reflexivity.
  - left. reflexivity.
  - reflexivity.
  - reflexivity.
  - destruct H as (d' & before & rest & Es & Eu & _); [reflexivity | discriminate |].
    vm_compute. reflexivity.
Defined.

(** X8.  Deleting is final and is told apart from not finding: on a document
    the caller owns [deleteTodo] answers 200 and removes that document
    and no other; the same call made again answers 404 and changes
    nothing, and no read by the caller lists the id any more. *)
Theorem deleted_todo_is_gone (env : Env) (store : list Todo.t) (caller : ObjectId.t)
        (todoId : jsstring) (d : Todo.t) :
  NoDup (map Todo._id store) ->
  In d store -> Todo.userId d = caller ->
  ObjectId.parse todoId = Some (Todo._id d) ->
  exists before rest,
    store = before ++ d :: rest
    /\ TodoController.deleteTodo store caller todoId
       = ({| TodoController.status := 200;
             TodoController.payload := TodoController.Done (js "Todo deleted successfully") |},
          before ++ rest)
    /\ TodoController.deleteTodo (before ++ rest) caller todoId
       = (not_found, before ++ rest)
    /\ forall v,
         In v (TodoController.read_all env (Todo.find_by_user (before ++ rest) caller)) ->
         TodoController.id v <> Todo._id d.
Proof.
  intros Hn Hin Ho Hp.
  pose proof (findOne_own store d Hn Hin) as Hf. rewrite Ho in Hf.
  destruct (deleteOne_some store (Todo._id d) caller d Hf) as (before & rest & Es & Ed).
  exists before, rest. split; [exact Es|]. subst store.
  split; [|split].
  - unfold TodoController.deleteTodo. rewrite Hp, Ed. reflexivity.
  - apply (delete_not_found _ caller todoId (Todo._id d) Hp).
    apply findOne_none. intros x Hx Hid _.
    apply (nodup_id_middle before rest d x Hn Hx Hid).
  - intros v Hv. rewrite read_all_map in Hv. apply in_map_iff in Hv as (x & <- & Hx).
    apply in_find_by_user in Hx as [Hx _]. rewrite read_one_id.
    apply (nodup_id_middle before rest d x Hn Hx).
Qed.

Lemma deleted_todo_is_gone_witness :
  TodoController.deleteTodo
    (snd (TodoController.deleteTodo Example.store Example.alice
            (ObjectId.toString Example.first_id)))
    Example.alice (ObjectId.toString Example.first_id)
  = (not_found, [Example.bobs]).
Proof.
  destruct (deleted_todo_is_gone Example.env Example.store Example.alice
              (ObjectId.toString Example.first_id) Example.milk)
    as (before & rest & Es & Ed & Eagain & _).
  - vm_compute. repeat constructor; cbn; intuition discriminate.
  - left. reflexivity.
  - reflexivity.
  - reflexivity.
  - rewrite Ed. cbn [snd].
    assert (E : before ++ rest = [Example.bobs]).
    { assert (H : snd (TodoController.deleteTodo Example.store Example.alice
                         (ObjectId.toString Example.first_id)) = [Example.bobs])
        by (vm_compute; reflexivity).
      rewrite Ed in H. exact H. }
    rewrite <- E. exact Eagain.
Defined.

(** ** Newest first *)

Lemma insert_newest_perm (d : Todo.t) (l : list Todo.t) :
  Permutation (Todo.insert_newest d l) (d :: l).
Proof.
  induction l as [|x l IH]; cbn [Todo.insert_newest]; [reflexivity|].
  destruct (Todo.createdAt x <=? Todo.createdAt d); [reflexivity|].
  rewrite IH. apply perm_swap.
Qed.

Lemma newest_first_perm (l : list Todo.t) : Permutation (Todo.newest_first l) l.
Proof.
  induction l as [|x l IH]; cbn [Todo.newest_first fold_right]; [reflexivity|].
  fold (Todo.newest_first l). rewrite insert_newest_perm, IH. reflexivity.
Qed.

Lemma insert_newest_sorted (d : Todo.t) (l : list Todo.t) :
  StronglySorted not_older l -> StronglySorted not_older (Todo.insert_newest d l).
Proof.
  induction 1 as [|x l Hs IH Hx]; cbn [Todo.insert_newest].
  - repeat constructor.
  - destruct (Todo.createdAt x <=? Todo.createdAt d) eqn:E.
    + apply N.leb_le in E. constructor; [constructor; assumption|].
      constructor; [exact E|].
      rewrite Forall_forall in *. intros y Hy. specialize (Hx y Hy).
      unfold not_older in *. lia.
    + apply N.leb_gt in E. constructor; [exact IH|].
      rewrite Forall_forall in *. intros y Hy.
      apply (Permutation_in _ (insert_newest_perm d l)) in Hy as [<-|Hy].
      * unfold not_older. lia.
      * apply Hx, Hy.
Qed.

Lemma newest_first_sorted (l : list Todo.t) : StronglySorted not_older (Todo.newest_first l).
Proof.
  induction l as [|x l IH]; cbn [Todo.newest_first fold_right]; [constructor|].
  apply insert_newest_sorted, IH.
Qed.

Lemma StronglySorted_map {A B : Type} (R : A -> A -> Prop) (S : B -> B -> Prop)
      (f : A -> B) (l : list A) :
  (forall a b, R a b -> S (f a) (f b)) ->
  StronglySorted R l -> StronglySorted S (map f l).
Proof.
  intros HRS. induction 1 as [|x l Hs IH Hx]; cbn [map]; constructor; [exact IH|].
  rewrite Forall_forall in *. intros y Hy. apply in_map_iff in Hy as (a & <- & Ha).
  apply HRS, Hx, Ha.
Qed.

(** X9.  A read lists the caller's documents, each exactly once, newest first:
    the answer of [getTodos] is a rearrangement of what the caller's
    documents read as, and no entry is followed, anywhere later in the
    list, by one created after it. *)
Theorem todos_come_newest_first (env : Env) (store : list Todo.t) (userId : ObjectId.t) :
  exists views,
    TodoController.getTodos env store userId
    = {| TodoController.status := 200;
         TodoController.payload := TodoController.Todos views |}
    /\ Permutation views
         (map (TodoController.read_one env) (filter (Todo.owned_by userId) store))
    /\ StronglySorted
         (fun a b => TodoController.createdAt b <= TodoController.createdAt a) views.
Proof.
  eexists. split; [reflexivity|]. rewrite read_all_map. split.
  - apply Permutation_map, newest_first_perm.
  - apply (StronglySorted_map not_older); [|apply newest_first_sorted].
    intros a b H. rewrite !read_one_createdAt. exact H.
Qed.

(** * Registration and login in the Node.js application *)

Lemma findOne_email_app (users : list User.t) (user : User.t) (e : jsstring) :
  User.findOne_email users e = None ->
  User.email user = User.cast_email e ->
  User.findOne_email (users ++ [user]) e = Some user.
Proof.
  unfold User.findOne_email. intros Hn He.
  induction users as [|u users IH]; cbn [app find] in *.
  - rewrite He, jsstring_eqb_refl. reflexivity.
  - destruct (jsstring_eqb (User.email u) (User.cast_email e)); [discriminate|].
    apply IH, Hn.
Qed.

Lemma findOne_email_cast (users : list User.t) (e e' : jsstring) :
  User.cast_email e' = User.cast_email e ->
  User.findOne_email users e' = User.findOne_email users e.
Proof. intros H. unfold User.findOne_email. rewrite H. reflexivity. Qed.

(** X10.  Registering and then logging in.  A registration that was answered
    201, for an email of ASCII characters, has stored one new user: the
    username trimmed, the email trimmed and in lower case, the digest of
    the password and never the password as sent.  From then on [login]
    with that email, in any case of its letters and with any white space
    around it, answers 200 with tokens for that user for every password
    bcrypt accepts against the stored digest, and 401 'Invalid email or
    password' for every password it rejects. *)
Theorem registered_user_logs_in (lib : bcrypt) (env : Env) (users : list User.t)
        (now later : N) (fresh : ObjectId.t) (salt : N)
        (email username password : jsstring) :
  AuthController.status
    (fst (AuthController.register lib env users now fresh salt email username password))
  = 201 ->
  ascii_text email = true ->
  bcrypt_hash lib password salt <> [] ->
  let user :=
    {| User._id := fresh; User.username := trim username;
       User.email := toLowerCase (trim email);
       User.passwordHash := Some (bcrypt_hash lib password salt);
       User.googleId := None; User.createdAt := now |} in
  let users' :=
    snd (AuthController.register lib env users now fresh salt email username password) in
  users' = users ++ [user]
  /\ forall email' candidate,
       ascii_text email' = true ->
       toLowerCase (trim email') = toLowerCase (trim email) ->
       if bcrypt_compare lib candidate (bcrypt_hash lib password salt)
       then exists accessToken refreshToken,
              AuthController.login lib env users' later email' candidate
              = {| AuthController.status := 200;
                   AuthController.cookie := Some accessToken;
                   AuthController.payload :=
                     AuthController.Tokens (js "Login successful")
                       {| AuthController.view_id := fresh;
                          AuthController.view_email := toLowerCase (trim email);
                          AuthController.view_username := trim username |}
                       accessToken refreshToken |}
              /\ Auth.generateAccessToken env later fresh = inr accessToken
       else AuthController.login lib env users' later email' candidate
            = AuthController.fail 401 (js "Invalid email or password") None.
Proof.
  intros Hc _ Hh. cbv zeta.
  destruct (register_created lib env users now fresh salt email username password Hc)
    as (a & r & Er & _ & Hs & Hf & _).
  rewrite Er. cbn [snd]. split; [reflexivity|]. intros email' candidate _ Hsame.
  unfold AuthController.login.
  rewrite (findOne_email_cast _ email email' Hsame).
  rewrite (findOne_email_app users
             (registered lib now fresh salt email username password) email Hf eq_refl).
  unfold User.comparePassword, registered, AuthController.view.
  cbn [User.passwordHash User._id User.email User.username].
  destruct (bcrypt_hash lib password salt) as [|c h] eqn:Eh; [contradiction|].
  cbn [truthy negb].
  destruct (bcrypt_compare lib candidate (c :: h)); cbn [negb]; [|reflexivity].
  match goal with
  | |- context [AuthController.issue env later ?u] =>
      destruct (issue_ok env later u Hs) as (a' & r' & Ei & Ea & _)
  end.
  exists a', r'. rewrite Ei. split; [reflexivity | exact Ea].
Qed.

Lemma registered_user_logs_in_witness :
  AuthController.status
    (AuthController.login strict Example.env
       (snd (AuthController.register strict Example.env [] 1700000000000 Example.alice 0
               (js " Alice@Example.com") (js "alice") (js "Passw0rd1")))
       1700000060000 (js "alice@EXAMPLE.com") (js "Passw0rd1")) = 200
  /\ AuthController.login strict Example.env
       (snd (AuthController.register strict Example.env [] 1700000000000 Example.alice 0
               (js " Alice@Example.com") (js "alice") (js "Passw0rd1")))
       1700000060000 (js "alice@EXAMPLE.com") (js "passw0rd1")
     = AuthController.fail 401 (js "Invalid email or password") None.
Proof.
  destruct (registered_user_logs_in strict Example.env [] 1700000000000 1700000060000
              Example.alice 0 (js " Alice@Example.com") (js "alice") (js "Passw0rd1"))
    as [_ H].
  - vm_compute. reflexivity.
  - reflexivity.
  - vm_compute. discriminate.
  - split.
    + pose proof (H (js "alice@EXAMPLE.com") (js "Passw0rd1") eq_refl eq_refl) as H1.
      replace (bcrypt_compare strict (js "Passw0rd1")
                 (bcrypt_hash strict (js "Passw0rd1") 0)) with true in H1
        by (vm_compute; reflexivity).
      destruct H1 as (a & r & -> & _). reflexivity.
    + pose proof (H (js "alice@EXAMPLE.com") (js "passw0rd1") eq_refl eq_refl) as H2.
      replace (bcrypt_compare strict (js "passw0rd1")
                 (bcrypt_hash strict (js "Passw0rd1") 0)) with false in H2
        by (vm_compute; reflexivity).
      exact H2.
Defined.

(** X11.  One account per email.  Once a registration with an email was
    answered 201, [register] with that email answers 400, whatever else
    is sent, issues no token and leaves the store as it is; for emails
    of ASCII characters the same holds for every spelling that differs
    only in the case of its letters or in white space around it. *)
Theorem email_registers_once (lib : bcrypt) (env : Env) (users : list User.t)
        (now : N) (fresh : ObjectId.t) (salt : N) (email username password : jsstring) :
  AuthController.status
    (fst (AuthController.register lib env users now fresh salt email username password))
  = 201 ->
  let users' :=
    snd (AuthController.register lib env users now fresh salt email username password) in
  forall later fresh' salt' email' username' password',
    email' = email
    \/ (ascii_text email = true /\ ascii_text email' = true
        /\ toLowerCase (trim email') = toLowerCase (trim email)) ->
    AuthController.register lib env users' later fresh' salt' email' username' password'
    = (AuthController.fail 400 (js "User with this email already exists") None, users').
Proof.
  intros Hc. cbv zeta.
  destruct (register_created lib env users now fresh salt email username password Hc)
    as (a & r & Er & _ & _ & Hf & _).
  rewrite Er. cbn [snd]. intros later fresh' salt' email' username' password' Hsame.
  assert (Hcast : User.cast_email email' = User.cast_email email).
  { destruct Hsame as [->|(_ & _ & H)]; [reflexivity | exact H]. }
  unfold AuthController.register.
  rewrite (findOne_email_cast _ email email' Hcast).
  rewrite (findOne_email_app users
             (registered lib now fresh salt email username password) email Hf eq_refl).
  reflexivity.
Qed.

Lemma email_registers_once_witness :
  AuthController.status
    (fst (AuthController.register Example.lenient Example.env
            (snd Scenario.registration) 1700000060000 Example.bob 1
            (js "ALICE@example.com ") (js "mallory") (js "Another1"))) = 400.
Proof.
  unfold Scenario.registration.
  rewrite (email_registers_once Example.lenient Example.env [] 1700000000000
             Example.alice 0 (js "alice@example.com") (js "alice") (js "Passw0rd1")).
  - reflexivity.
  - vm_compute. reflexivity.
  - right. repeat split; reflexivity.
Defined.

(** X12.  [login] does not tell an unknown email from a wrong password: both
    are answered with the same 401, the same body and no cookie.  (An
    account without a password is told apart: it gets the Google
    Sign-In message.) *)
Theorem login_failures_look_alike (lib : bcrypt) (env : Env) (users : list User.t)
        (now : N) (known unknown password : jsstring) (user : User.t) :
  User.findOne_email users unknown = None ->
  User.findOne_email users known = Some user ->
  truthy (User.passwordHash user) = true ->
  User.comparePassword lib user password = false ->
  AuthController.login lib env users now unknown password
  = AuthController.login lib env users now known password
  /\ AuthController.login lib env users now known password
     = {| AuthController.status := 401; AuthController.cookie := None;
          AuthController.payload :=
            AuthController.Failure (js "Invalid email or password") None |}.
Proof.
  intros Hu Hk Ht Hc. unfold AuthController.login.
  rewrite Hu, Hk, Ht, Hc. split; reflexivity.
Qed.

Lemma login_failures_look_alike_witness :
  AuthController.login strict Example.env [Example.alice_user] 1700000000000
    (js "nobody@example.com") (js "guess")
  = AuthController.login strict Example.env [Example.alice_user] 1700000000000
      (js "alice@example.com") (js "guess").
Proof.
  apply (login_failures_look_alike strict Example.env [Example.alice_user] 1700000000000
           (js "alice@example.com") (js "nobody@example.com") (js "guess")
           Example.alice_user); vm_compute; reflexivity.
Defined.

(** * The to-do routes *)

Lemma hex_digit_has_value (c : N) :
  Validation.is_hex_digit c = true -> exists v, ObjectId.hex_value c = Some v.
Proof.
  unfold Validation.is_hex_digit, ObjectId.hex_value. intros H.
  destruct ((48 <=? c) && (c <=? 57)); [eauto|].
  destruct ((97 <=? c) && (c <=? 102)); [eauto|].
  destruct ((65 <=? c) && (c <=? 70)); [eauto|discriminate].
Qed.

Lemma hex_digits_are_bytes (n : nat) :
  forall s, length s = (2 * n)%nat -> forallb Validation.is_hex_digit s = true ->
            exists bs, ObjectId.bytes_of_hex s = Some bs /\ length bs = n.
Proof.
  induction n as [|n IH]; intros s Hl Hs.
  - destruct s; [|discriminate]. exists []. split; reflexivity.
  - destruct s as [|hi [|lo rest]]; try (cbn in Hl; lia).
    cbn [forallb] in Hs. apply andb_prop in Hs as [Hhi Hs].
    apply andb_prop in Hs as [Hlo Hs].
    destruct (hex_digit_has_value hi Hhi) as [h Eh].
    destruct (hex_digit_has_value lo Hlo) as [l El].
    destruct (IH rest) as (bs & Eb & Hb); [cbn [length] in Hl; lia | exact Hs |].
    exists (byte_of_N (16 * h + l) :: bs). cbn [ObjectId.bytes_of_hex].
    rewrite Eh, El, Eb. split; [reflexivity | cbn [length]; lia].
Qed.

(** An id that passes the pattern of [validateObjectId] is one the cast
    to ObjectId takes. *)
Lemma pattern_parses (id : jsstring) :
  Validation.object_id_pattern id = true ->
  exists oid, ObjectId.parse id = Some oid /\ ObjectId.valid oid = true.
Proof.
  unfold Validation.object_id_pattern, ObjectId.parse, ObjectId.valid.
  intros H. apply andb_prop in H as [Hl Hs]. rewrite Hl.
  apply Nat.eqb_eq in Hl.
  destruct (hex_digits_are_bytes 12 id Hl Hs) as (bs & Eb & Hb).
  exists bs. split; [exact Eb|]. rewrite Hb. reflexivity.
Qed.

Lemma authenticate_next_stored (env : Env) (users : list User.t) (now : N)
      (req : Middleware.request) (user : User.t) :
  Middleware.authenticate env users now req = Middleware.Next user -> In user users.
Proof.
  unfold Middleware.authenticate.
  destruct (Middleware.token_of req) as [[|c t]|]; try discriminate.
  destruct (Jwt.verify _ _ _) as [[m|m]|decoded]; try discriminate.
  unfold User.findById.
  destruct (Json.get _ decoded) as [[s|n]|]; try discriminate.
  destruct (ObjectId.parse s) as [oid|]; [|discriminate].
  destruct (find _ users) as [u|] eqn:Ef; [|discriminate].
  intros [= <-]. apply find_some in Ef as [Hin _]. exact Hin.
Qed.

(** X13.  DELETE /api/todos/:id never reaches the store without a user and
    never with an id that does not cast.  A request [authenticate] turns
    away is answered by it and changes nothing; for an admitted user an
    id that is not 24 hexadecimal digits is answered with the validation
    error and changes nothing; otherwise the controller answers 200 or
    404, never 500, and no document of another user is touched. *)
Theorem delete_route_is_guarded (env : Env) (users : list User.t) (store : list Todo.t)
        (now : N) (req : Middleware.request) (id : jsstring) :
  match Middleware.authenticate env users now req with
  | Middleware.Reply status error =>
      TodoRoutes.delete env users store now req id
      = (TodoRoutes.Rejected status error, store)
  | Middleware.Next user =>
      In user users
      /\ if Validation.object_id_pattern id
         then exists r store',
                TodoRoutes.delete env users store now req id
                = (TodoRoutes.Handled r, store')
                /\ (TodoController.status r = 200 \/ TodoController.status r = 404)
                /\ filter (foreign (User._id user)) store'
                   = filter (foreign (User._id user)) store
         else TodoRoutes.delete env users store now req id
              = (TodoRoutes.ValidationFailed
                   [{| Validation.field := js "id";
                       Validation.message := js "Invalid ID format" |}], store)
  end.
Proof.
  unfold TodoRoutes.delete.
  destruct (Middleware.authenticate env users now req) as [user|status error] eqn:Ea;
    [|reflexivity].
  split; [apply (authenticate_next_stored env users now req user Ea)|].
  unfold Validation.validateObjectId.
  destruct (Validation.object_id_pattern id) eqn:Ep; [|reflexivity].
  cbn [TodoRoutes.validate].
  pose proof (delete_frame store (User._id user) id) as Hframe.
  destruct (pattern_parses id Ep) as (oid & Eo & _).
  destruct (TodoController.deleteTodo store (User._id user) id) as [r store'] eqn:Ed.
  exists r, store'. split; [reflexivity|]. split; [|exact Hframe].
  unfold TodoController.deleteTodo in Ed. rewrite Eo in Ed.
  destruct (Todo.deleteOne store oid (User._id user)) as [n s].
  destruct (Nat.eqb n 0); inversion Ed; subst; cbn [TodoController.status]; auto.
Qed.

(** X14.  GET /api/todos shows a caller nothing of anybody else: the route
    either answers as [authenticate] does, or answers 200 with a list in
    which every entry is what a stored document of the admitted user,
    who is a stored user, reads as. *)
Theorem get_route_shows_own_todos_only (env : Env) (users : list User.t)
        (store : list Todo.t) (now : N) (req : Middleware.request) :
  match TodoRoutes.get env users store now req with
  | TodoRoutes.Rejected status error =>
      Middleware.authenticate env users now req = Middleware.Reply status error
  | TodoRoutes.Handled r =>
      exists user views,
        Middleware.authenticate env users now req = Middleware.Next user
        /\ In user users
        /\ r = {| TodoController.status := 200;
                  TodoController.payload := TodoController.Todos views |}
        /\ forall v, In v views ->
             exists d, In d store /\ Todo.userId d = User._id user
                       /\ v = TodoController.read_one env d
  | TodoRoutes.ValidationFailed _ => False
  end.
Proof.
  unfold TodoRoutes.get.
  destruct (Middleware.authenticate env users now req) as [user|status error] eqn:Ea;
    [|reflexivity].
  exists user. eexists. split; [reflexivity|].
  split; [apply (authenticate_next_stored env users now req user Ea)|].
  split; [reflexivity|].
  intros v Hv. rewrite read_all_map in Hv. apply in_map_iff in Hv as (d & <- & Hd).
  apply in_find_by_user in Hd as [Hin Ho]. exists d. auto.
Qed.

(** * What [encrypt] hands to the store, and what [decrypt] takes back *)

(** X15.  The three fields [encrypt] returns have the sizes the schema counts
    on, for every plaintext and every draw of the nonce: the nonce is the
    12 bytes drawn, written as 16 characters; the tag is 16 bytes, written
    as 24 characters; and the ciphertext has exactly as many bytes as the
    UTF-8 form of the plaintext. *)
Theorem encrypted_fields_have_their_sizes (env : Env) (entropy : N)
        (plaintext : jsstring) (e : Crypto.encrypted) :
  Crypto.encrypt env entropy plaintext = inr e ->
  Base64.decode (Crypto.iv e) = randomBytes Crypto.IV_LENGTH entropy
  /\ length (Base64.decode (Crypto.iv e)) = Crypto.IV_LENGTH
  /\ length (Crypto.iv e) = 16%nat
  /\ length (Base64.decode (Crypto.authTag e)) = Crypto.AUTH_TAG_LENGTH
  /\ length (Crypto.authTag e) = 24%nat
  /\ length (Base64.decode (Crypto.encryptedContent e)) = length (Utf8.encode plaintext)
  /\ length (Crypto.encryptedContent e)
     = (4 * ((length (Utf8.encode plaintext) + 2) / 3))%nat.
Proof.
  intros He. destruct (encrypt_inv env entropy plaintext e He) as (key & _ & ->).
  cbv zeta. cbn [Crypto.iv Crypto.authTag Crypto.encryptedContent].
  rewrite !base64_decode_encode, !base64_encode_length.
  rewrite randomBytes_length, tag_length, gctr_length.
  repeat split; reflexivity.
Qed.

Lemma encrypted_fields_have_their_sizes_witness :
  length (Crypto.iv Example.sealed_milk) = 16%nat
  /\ length (Crypto.authTag Example.sealed_milk) = 24%nat
  /\ length (Base64.decode (Crypto.encryptedContent Example.sealed_milk)) = 8%nat.
Proof.
  destruct (encrypted_fields_have_their_sizes Example.env 0x0102030405060708090a0b0c
              (js "buy milk") Example.sealed_milk sealed_milk_eq)
    as (_ & _ & Hiv & _ & Htag & Hc & _).
  split; [exact Hiv|]. split; [exact Htag|]. rewrite Hc. reflexivity.
Defined.

(** X16.  [decrypt] checks as much of the tag as it is given.  For a triple
    that [encrypt] made, a tag field decodes to an accepted length (4, 8
    or 12 to 16 bytes) and to the leading bytes of the tag [encrypt]
    returned exactly when [decrypt] returns the plaintext; with any
    other tag field it throws.  So the first four bytes of the tag open
    the record as well as all sixteen. *)
Theorem decrypt_takes_a_prefix_of_the_tag (env : Env) (entropy : N)
        (plaintext : jsstring) (e : Crypto.encrypted) :
  Utf8.well_formed plaintext = true ->
  Crypto.encrypt env entropy plaintext = inr e ->
  (forall given,
     let t := Base64.decode given in
     if Crypto.valid_tag_length (length t)
        && buffer_eqb t (firstn (length t) (Base64.decode (Crypto.authTag e)))
     then Crypto.decrypt env (Crypto.encryptedContent e) (Crypto.iv e) given
          = inr plaintext
     else exists message,
            Crypto.decrypt env (Crypto.encryptedContent e) (Crypto.iv e) given
            = inl message)
  /\ forall n,
       Crypto.valid_tag_length n = true ->
       Crypto.decrypt env (Crypto.encryptedContent e) (Crypto.iv e)
                      (Base64.encode (firstn n (Base64.decode (Crypto.authTag e))))
       = inr plaintext.
Proof.
  intros Hw He. destruct (encrypt_inv env entropy plaintext e He) as (key & Hk & ->).
  cbv zeta. cbn [Crypto.iv Crypto.authTag Crypto.encryptedContent].
  set (E := Aes.encrypt_block key). set (iv := randomBytes 12 entropy).
  set (c := Gcm.gctr E (Gcm.inc32 (Gcm.j0 E iv)) (Utf8.encode plaintext)).
  assert (Hd : forall given,
             Crypto.decrypt env (Base64.encode c) (Base64.encode iv) given
             = if negb (Crypto.valid_tag_length (length (Base64.decode given)))
               then inl (js "Decryption failed: Invalid authentication tag length: "
                           ++ Decimal10.print (N.of_nat (length (Base64.decode given))))
               else if buffer_eqb (Base64.decode given)
                                  (firstn (length (Base64.decode given)) (Gcm.tag E iv c))
                    then inr plaintext
                    else inl (js "Decryption failed: Unsupported state or unable to authenticate data")).
  { intros given. unfold Crypto.decrypt. rewrite Hk, !base64_decode_encode.
    unfold iv at 1. rewrite randomBytes_length.
    cbn [Crypto.valid_iv_length Nat.leb andb negb].
    destruct (negb (Crypto.valid_tag_length _)); [reflexivity|].
    fold E. unfold Gcm.open. destruct (buffer_eqb _ _); [|reflexivity].
    unfold c. rewrite gctr_involutive, utf8_decode_encode by exact Hw. reflexivity. }
  split.
  - intros given. rewrite Hd, base64_decode_encode.
    destruct (Crypto.valid_tag_length _); cbn [negb andb]; [|eauto].
    destruct (buffer_eqb _ _); eauto.
  - intros n Hn. rewrite Hd, !base64_decode_encode.
    assert (Hle : (n <= 16)%nat).
    { unfold Crypto.valid_tag_length in Hn.
      apply orb_prop in Hn as [Hn|Hn]; [apply orb_prop in Hn as [Hn|Hn]|].
      - apply Nat.eqb_eq in Hn. lia.
      - apply Nat.eqb_eq in Hn. lia.
      - apply andb_prop in Hn as [_ Hn]. apply Nat.leb_le in Hn. exact Hn. }
    rewrite length_firstn, tag_length, (Nat.min_l n 16 Hle), Hn. cbn [negb].
    replace (buffer_eqb _ _) with true; [reflexivity|].
    symmetry. apply buffer_eqb_eq. reflexivity.
Qed.

Lemma decrypt_takes_a_prefix_of_the_tag_witness :
  Crypto.decrypt Example.env (Crypto.encryptedContent Example.sealed_milk)
                 (Crypto.iv Example.sealed_milk)
                 (Base64.encode
                    (firstn 4 (Base64.decode (Crypto.authTag Example.sealed_milk))))
  = inr (js "buy milk").
Proof.
  apply (proj2 (decrypt_takes_a_prefix_of_the_tag Example.env 0x0102030405060708090a0b0c
                  (js "buy milk") Example.sealed_milk eq_refl sealed_milk_eq) 4%nat).
  reflexivity.
Defined.

(** * CryptoService, and the two implementations side by side *)

Lemma sextet_digit (s : N) :
  s < 64 ->
  CryptoService.sextet (Base64.digit Base64.alphabet s) = Some s
  /\ CryptoService.is_white (Base64.digit Base64.alphabet s) = false
  /\ (Base64.digit Base64.alphabet s =? Base64.pad) = false.
Proof.
  intros H.
  assert (E : forallb (fun k =>
                         let d := Base64.digit Base64.alphabet (N.of_nat k) in
                         match CryptoService.sextet d with
                         | Some v => (v =? N.of_nat k) && negb (CryptoService.is_white d)
                                     && negb (d =? Base64.pad)
                         | None => false
                         end) (seq 0 64) = true) by (vm_compute; reflexivity).
  rewrite forallb_forall in E.
  specialize (E (N.to_nat s)). rewrite N2Nat.id in E. cbv zeta in E.
  destruct (CryptoService.sextet _) as [v|].
  - assert (Hin : In (N.to_nat s) (seq 0 64)) by (apply in_seq; lia).
    apply E in Hin. apply andb_prop in Hin as [Hin Hp]. apply andb_prop in Hin as [Hv Hw].
    apply N.eqb_eq in Hv. apply negb_true_iff in Hw, Hp. subst v. auto.
  - discriminate E. apply in_seq. lia.
Qed.

Lemma sextet_unbase64 (c v : N) :
  CryptoService.sextet c = Some v -> Base64.unbase64 c = Some v.
Proof.
  unfold CryptoService.sextet, Base64.unbase64.
  destruct ((65 <=? c) && (c <=? 90)); [auto|].
  destruct ((97 <=? c) && (c <=? 122)); [auto|].
  destruct ((48 <=? c) && (c <=? 57)); [auto|].
  destruct (c =? 43); [auto|].
  destruct (N.eqb_spec c 47) as [->|]; [auto | discriminate].
Qed.

Lemma sextet_not_pad (c v : N) :
  CryptoService.sextet c = Some v -> (c =? Base64.pad) = false.
Proof.
  intros H. destruct (N.eqb_spec c Base64.pad) as [->|]; [discriminate H | reflexivity].
Qed.

Ltac digit_facts x :=
  let H := fresh in
  assert (H : x < 64) by lia;
  destruct (sextet_digit x H) as (? & ? & ?); clear H.

Lemma encode_no_white (bs : buffer) :
  filter (fun c => negb (CryptoService.is_white c)) (Base64.encode bs) = Base64.encode bs.
Proof.
  assert (Hp : CryptoService.is_white Base64.pad = false) by reflexivity.
  induction bs as [|a|a b|a b c l IH] using list_ind3; [reflexivity| | |].
  - pose proof (N_of_byte_bound a).
    change (Base64.encode [a])
      with [Base64.digit Base64.alphabet (N_of_byte a / 4);
            Base64.digit Base64.alphabet (N_of_byte a mod 4 * 16);
            Base64.pad; Base64.pad].
    digit_facts (N_of_byte a / 4). digit_facts (N_of_byte a mod 4 * 16).
    cbn [filter]. repeat match goal with H : CryptoService.is_white _ = false |- _ =>
                           rewrite H; clear H end.
    reflexivity.
  - pose proof (N_of_byte_bound a). pose proof (N_of_byte_bound b).
    remember (N_of_byte a * 256 + N_of_byte b) as n eqn:En.
    change (Base64.encode [a; b])
      with [Base64.digit Base64.alphabet ((N_of_byte a * 256 + N_of_byte b) / 1024);
            Base64.digit Base64.alphabet (((N_of_byte a * 256 + N_of_byte b) / 16) mod 64);
            Base64.digit Base64.alphabet ((N_of_byte a * 256 + N_of_byte b) mod 16 * 4);
            Base64.pad].
    rewrite <- En.
    digit_facts (n / 1024). digit_facts ((n / 16) mod 64). digit_facts (n mod 16 * 4).
    cbn [filter]. repeat match goal with H : CryptoService.is_white _ = false |- _ =>
                           rewrite H; clear H end.
    reflexivity.
  - pose proof (N_of_byte_bound a). pose proof (N_of_byte_bound b).
    pose proof (N_of_byte_bound c).
    remember (N_of_byte a * 65536 + N_of_byte b * 256 + N_of_byte c) as n eqn:En.
    change (Base64.encode (a :: b :: c :: l))
      with (Base64.digit Base64.alphabet
              ((N_of_byte a * 65536 + N_of_byte b * 256 + N_of_byte c) / 262144)
            :: Base64.digit Base64.alphabet
                 (((N_of_byte a * 65536 + N_of_byte b * 256 + N_of_byte c) / 4096) mod 64)
            :: Base64.digit Base64.alphabet
                 (((N_of_byte a * 65536 + N_of_byte b * 256 + N_of_byte c) / 64) mod 64)
            :: Base64.digit Base64.alphabet
                 ((N_of_byte a * 65536 + N_of_byte b * 256 + N_of_byte c) mod 64)
            :: Base64.encode l).
    rewrite <- En.
    digit_facts (n / 262144). digit_facts ((n / 4096) mod 64).
    digit_facts ((n / 64) mod 64). digit_facts (n mod 64).
    cbn [filter]. repeat match goal with H : CryptoService.is_white _ = false |- _ =>
                           rewrite H; clear H end.
    cbn [negb]. rewrite IH. reflexivity.
Qed.

Lemma encode_cons (x : byte) (l : buffer) :
  exists d r, Base64.encode (x :: l) = d :: r.
Proof. destruct l as [|y [|z l]]; eexists; eexists; reflexivity. Qed.

Lemma quads_step (a b c d x : N) (rest : jsstring) :
  CryptoService.quads (a :: b :: c :: d :: x :: rest)
  = match CryptoService.sextet a, CryptoService.sextet b, CryptoService.sextet c,
          CryptoService.sextet d, CryptoService.quads (x :: rest) with
    | Some x, Some y, Some z, Some w, Some bs =>
        let n := ((x * 64 + y) * 64 + z) * 64 + w in
        Some (byte_of_N (n / 65536) :: byte_of_N ((n / 256) mod 256)
                :: byte_of_N (n mod 256) :: bs)
    | _, _, _, _, _ => None
    end.
Proof. reflexivity. Qed.

Lemma quads_encode (bs : buffer) : CryptoService.quads (Base64.encode bs) = Some bs.
Proof.
  induction bs as [|a|a b|a b c l IH] using list_ind3; [reflexivity| | |].
  - pose proof (N_of_byte_bound a).
    change (Base64.encode [a])
      with [Base64.digit Base64.alphabet (N_of_byte a / 4);
            Base64.digit Base64.alphabet (N_of_byte a mod 4 * 16);
            Base64.pad; Base64.pad].
    digit_facts (N_of_byte a / 4). digit_facts (N_of_byte a mod 4 * 16).
    cbn [CryptoService.quads]. unfold CryptoService.last_quad.
    repeat match goal with H : CryptoService.sextet _ = Some _ |- _ =>
             rewrite H; clear H end.
    rewrite N.eqb_refl. repeat (f_equal; try (apply byte_of_N_eq; lia)).
  - pose proof (N_of_byte_bound a). pose proof (N_of_byte_bound b).
    remember (N_of_byte a * 256 + N_of_byte b) as n eqn:En.
    change (Base64.encode [a; b])
      with [Base64.digit Base64.alphabet ((N_of_byte a * 256 + N_of_byte b) / 1024);
            Base64.digit Base64.alphabet (((N_of_byte a * 256 + N_of_byte b) / 16) mod 64);
            Base64.digit Base64.alphabet ((N_of_byte a * 256 + N_of_byte b) mod 16 * 4);
            Base64.pad].
    rewrite <- En.
    digit_facts (n / 1024). digit_facts ((n / 16) mod 64). digit_facts (n mod 16 * 4).
    cbn [CryptoService.quads]. unfold CryptoService.last_quad.
    repeat match goal with H : CryptoService.sextet _ = Some _ |- _ =>
             rewrite H; clear H end.
    rewrite N.eqb_refl.
    repeat match goal with H : (_ =? Base64.pad) = false |- _ => rewrite H; clear H end.
    repeat (f_equal; try (apply byte_of_N_eq; lia)).
  - pose proof (N_of_byte_bound a). pose proof (N_of_byte_bound b).
    pose proof (N_of_byte_bound c).
    remember (N_of_byte a * 65536 + N_of_byte b * 256 + N_of_byte c) as n eqn:En.
    change (Base64.encode (a :: b :: c :: l))
      with (Base64.digit Base64.alphabet
              ((N_of_byte a * 65536 + N_of_byte b * 256 + N_of_byte c) / 262144)
            :: Base64.digit Base64.alphabet
                 (((N_of_byte a * 65536 + N_of_byte b * 256 + N_of_byte c) / 4096) mod 64)
            :: Base64.digit Base64.alphabet
                 (((N_of_byte a * 65536 + N_of_byte b * 256 + N_of_byte c) / 64) mod 64)
            :: Base64.digit Base64.alphabet
                 ((N_of_byte a * 65536 + N_of_byte b * 256 + N_of_byte c) mod 64)
            :: Base64.encode l).
    rewrite <- En.
    digit_facts (n / 262144). digit_facts ((n / 4096) mod 64).
    digit_facts ((n / 64) mod 64). digit_facts (n mod 64).
    destruct l as [|x l].
    + change (Base64.encode []) with (@nil N).
      cbn [CryptoService.quads]. unfold CryptoService.last_quad.
      repeat match goal with H : CryptoService.sextet _ = Some _ |- _ =>
               rewrite H; clear H end.
      repeat match goal with H : (_ =? Base64.pad) = false |- _ => rewrite H; clear H end.
      repeat (f_equal; try (apply byte_of_N_eq; lia)).
    + destruct (encode_cons x l) as (d & r & Ed). rewrite Ed in *.
      rewrite quads_step.
      repeat match goal with H : CryptoService.sextet _ = Some _ |- _ =>
               rewrite H; clear H end.
      rewrite IH. cbv zeta. repeat (f_equal; try (apply byte_of_N_eq; lia)).
Qed.

Lemma FromBase64String_encode (bs : buffer) :
  CryptoService.FromBase64String (Base64.encode bs) = Some bs.
Proof.
  unfold CryptoService.FromBase64String. rewrite encode_no_white. apply quads_encode.
Qed.

Lemma sextets_cons (c v : N) (rest : jsstring) :
  CryptoService.sextet c = Some v ->
  Base64.sextets (c :: rest) = v :: Base64.sextets rest.
Proof.
  intros H. cbn [Base64.sextets].
  rewrite (sextet_not_pad c v H), (sextet_unbase64 c v H). reflexivity.
Qed.

Lemma sextets_pad (rest : jsstring) : Base64.sextets (Base64.pad :: rest) = [].
Proof. reflexivity. Qed.

Lemma last_quad_decode (a b c d : N) (bs : buffer) :
  CryptoService.last_quad a b c d = Some bs ->
  Base64.group (Base64.sextets [a; b; c; d]) = bs.
Proof.
  unfold CryptoService.last_quad.
  destruct (CryptoService.sextet a) as [x|] eqn:Ea; [|discriminate].
  destruct (CryptoService.sextet b) as [y|] eqn:Eb; [|discriminate].
  rewrite (sextets_cons a x _ Ea), (sextets_cons b y _ Eb).
  destruct (N.eqb_spec d Base64.pad) as [->|Hd].
  - destruct (N.eqb_spec c Base64.pad) as [->|Hc].
    + intros [= <-]. reflexivity.
    + destruct (CryptoService.sextet c) as [z|] eqn:Ec; [|discriminate].
      intros [= <-]. rewrite (sextets_cons c z _ Ec). reflexivity.
  - destruct (CryptoService.sextet c) as [z|] eqn:Ec; [|discriminate].
    destruct (CryptoService.sextet d) as [w|] eqn:Ed; [|discriminate].
    intros [= <-]. rewrite (sextets_cons c z _ Ec), (sextets_cons d w _ Ed). reflexivity.
Qed.

Lemma quads_decode (n : nat) :
  forall t bs, (length t <= n)%nat -> CryptoService.quads t = Some bs ->
               Base64.group (Base64.sextets t) = bs.
Proof.
  induction n as [|n IH]; intros t bs Hl Hq.
  - destruct t; [|cbn in Hl; lia]. injection Hq as <-. reflexivity.
  - destruct t as [|a [|b [|c [|d [|e rest]]]]]; try discriminate.
    + injection Hq as <-. reflexivity.
    + apply last_quad_decode. exact Hq.
    + rewrite quads_step in Hq.
      destruct (CryptoService.sextet a) as [x|] eqn:Ea; [|discriminate].
      destruct (CryptoService.sextet b) as [y|] eqn:Eb; [|discriminate].
      destruct (CryptoService.sextet c) as [z|] eqn:Ec; [|discriminate].
      destruct (CryptoService.sextet d) as [w|] eqn:Ed; [|discriminate].
      destruct (CryptoService.quads (e :: rest)) as [bs'|] eqn:Er; [|discriminate].
      injection Hq as <-.
      rewrite (sextets_cons a x _ Ea), (sextets_cons b y _ Eb),
        (sextets_cons c z _ Ec), (sextets_cons d w _ Ed).
      cbn [Base64.group]. rewrite (IH (e :: rest) bs'); [reflexivity| |exact Er].
      cbn [length] in *. lia.
Qed.

Lemma sextets_skip_white (s : jsstring) :
  Base64.sextets (filter (fun c => negb (CryptoService.is_white c)) s) = Base64.sextets s.
Proof.
  induction s as [|c s IH]; [reflexivity|]. cbn [filter].
  destruct (CryptoService.is_white c) eqn:Ew; cbn [negb].
  - cbn [Base64.sextets]. rewrite IH.
    unfold CryptoService.is_white in Ew.
    repeat (apply orb_prop in Ew as [Ew|Ew]); apply N.eqb_eq in Ew; subst c; reflexivity.
  - cbn [Base64.sextets]. rewrite IH. reflexivity.
Qed.

(** What the C# decoder takes, Node decodes to the same bytes. *)
Lemma FromBase64String_decode (s : jsstring) (bs : buffer) :
  CryptoService.FromBase64String s = Some bs -> Base64.decode s = bs.
Proof.
  unfold CryptoService.FromBase64String, Base64.decode. intros H.
  rewrite <- sextets_skip_white. apply (quads_decode _ _ bs (Nat.le_refl _) H).
Qed.

(** X17.  The constructor of CryptoService takes a key setting only if it is
    there, is Base64 as .NET reads it, and decodes to 32 bytes; an unset
    or empty setting and a key of another length are
    InvalidOperationExceptions, anything that is not Base64 a
    FormatException.  A setting it takes is one the Node.js application
    takes too, and both hold the same 32 bytes. *)
Theorem crypto_service_key (base64Key : option jsstring) :
  (truthy base64Key = false ->
   CryptoService.create base64Key
   = inl (CryptoService.InvalidOperationException (js "AES_KEY is not configured")))
  /\ (forall c k,
        base64Key = Some (c :: k) ->
        match CryptoService.FromBase64String (c :: k) with
        | None => CryptoService.create base64Key = inl CryptoService.FormatException
        | Some key =>
            if Nat.eqb (length key) 32
            then CryptoService.create base64Key = inr key
            else exists message,
                   CryptoService.create base64Key
                   = inl (CryptoService.InvalidOperationException message)
        end)
  /\ (forall aesKey,
        CryptoService.create base64Key = inr aesKey ->
        length aesKey = 32%nat
        /\ forall env, AES_KEY env = base64Key -> Crypto.getEncryptionKey env = inr aesKey).
Proof.
  split; [|split].
  - destruct base64Key as [[|c k]|]; try discriminate; reflexivity.
  - intros c k ->. unfold CryptoService.create.
    destruct (CryptoService.FromBase64String (c :: k)) as [key|]; [|reflexivity].
    destruct (Nat.eqb (length key) 32); cbn [negb]; eauto.
  - intros aesKey. unfold CryptoService.create.
    destruct base64Key as [[|c k]|]; try discriminate.
    destruct (CryptoService.FromBase64String (c :: k)) as [key|] eqn:Ek; [|discriminate].
    destruct (Nat.eqb (length key) 32) eqn:El; cbn [negb]; [|discriminate].
    intros [= <-]. split; [apply Nat.eqb_eq, El|].
    intros env He. unfold Crypto.getEncryptionKey. rewrite He.
    rewrite (FromBase64String_decode _ _ Ek), El. reflexivity.
Qed.

Lemma crypto_service_key_witness :
  CryptoService.create (AES_KEY Example.env) = inr Example.key
  /\ CryptoService.create (Some (js "c2hvcnQ="))
     = inl (CryptoService.InvalidOperationException
              (js "AES key must be 32 bytes (256 bits), got 5 bytes"))
  /\ CryptoService.create (Some (js "not base64")) = inl CryptoService.FormatException
  /\ Crypto.getEncryptionKey Example.env = inr Example.key.
Proof.
  assert (E : CryptoService.create (AES_KEY Example.env) = inr Example.key)
    by (vm_compute; reflexivity).
  split; [exact E|]. split; [vm_compute; reflexivity|]. split; [vm_compute; reflexivity|].
  apply (proj2 (proj2 (proj2 (crypto_service_key (AES_KEY Example.env)))
                  Example.key E) Example.env eq_refl).
Defined.

Lemma Encrypt_eq (aesKey : buffer) (entropy : N) (plaintext : jsstring) :
  let iv := randomBytes 12 entropy in
  let c := Gcm.gctr (Aes.encrypt_block aesKey)
                    (Gcm.inc32 (Gcm.j0 (Aes.encrypt_block aesKey) iv))
                    (Utf8.encode plaintext) in
  CryptoService.Encrypt aesKey entropy plaintext
  = (Base64.encode c, Base64.encode iv,
     Base64.encode (Gcm.tag (Aes.encrypt_block aesKey) iv c)).
Proof. reflexivity. Qed.

Lemma Decrypt_Encrypt (aesKey : buffer) (entropy : N) (plaintext : jsstring) :
  Utf8.well_formed plaintext = true ->
  match CryptoService.Encrypt aesKey entropy plaintext with
  | (encryptedContent, iv, authTag) =>
      CryptoService.Decrypt aesKey encryptedContent iv authTag = inr plaintext
  end.
Proof.
  intros Hw. rewrite Encrypt_eq. cbv zeta. unfold CryptoService.Decrypt.
  rewrite !FromBase64String_encode, randomBytes_length, tag_length.
  cbn [CryptoService.IVLength CryptoService.AuthTagLength Nat.eqb negb].
  unfold Gcm.open. rewrite firstn_all2 by (rewrite tag_length; lia).
  replace (buffer_eqb _ _) with true by (symmetry; apply buffer_eqb_eq; reflexivity).
  rewrite gctr_involutive, utf8_decode_encode by exact Hw. reflexivity.
Qed.

(** X18.  What CryptoService seals it opens: for every key, every draw of the
    nonce and every text in which each surrogate is half of a pair,
    [Decrypt] of the three strings [Encrypt] returned is the text. *)
Theorem crypto_service_round_trip (aesKey : buffer) (entropy : N) (plaintext : jsstring) :
  Utf8.well_formed plaintext = true ->
  match CryptoService.Encrypt aesKey entropy plaintext with
  | (encryptedContent, iv, authTag) =>
      CryptoService.Decrypt aesKey encryptedContent iv authTag = inr plaintext
  end.
Proof.
  intros Hw. rewrite Encrypt_eq. cbv zeta. unfold CryptoService.Decrypt.
  rewrite !FromBase64String_encode, randomBytes_length, tag_length.
  cbn [CryptoService.IVLength CryptoService.AuthTagLength Nat.eqb negb].
  unfold Gcm.open. rewrite firstn_all2 by (rewrite tag_length; lia).
  replace (buffer_eqb _ _) with true by (symmetry; apply buffer_eqb_eq; reflexivity).
  rewrite gctr_involutive, utf8_decode_encode by exact Hw. reflexivity.
Qed.

Lemma crypto_service_round_trip_witness :
  match CryptoService.Encrypt Example.key 7 (js "buy milk") with
  | (encryptedContent, iv, authTag) =>
      CryptoService.Decrypt Example.key encryptedContent iv authTag = inr (js "buy milk")
  end.
Proof. apply (crypto_service_round_trip Example.key 7 (js "buy milk")). reflexivity. Defined.

Lemma crypto_service_tag (aesKey : buffer) (entropy : N) (plaintext : jsstring) :
  match CryptoService.Encrypt aesKey entropy plaintext with
  | (encryptedContent, iv, authTag) =>
      forall given text,
        CryptoService.Decrypt aesKey encryptedContent iv given = inr text ->
        CryptoService.FromBase64String given = Some (Base64.decode authTag)
  end.
Proof.
  rewrite Encrypt_eq. cbv zeta.
  set (E := Aes.encrypt_block aesKey). set (iv := randomBytes 12 entropy).
  set (c := Gcm.gctr E (Gcm.inc32 (Gcm.j0 E iv)) (Utf8.encode plaintext)).
  rewrite base64_decode_encode.
  intros given text. unfold CryptoService.Decrypt.
  rewrite !FromBase64String_encode.
  destruct (CryptoService.FromBase64String given) as [t|]; [|discriminate].
  destruct (negb (Nat.eqb (length iv) _)); [discriminate|].
  destruct (Nat.eqb (length t) CryptoService.AuthTagLength) eqn:El; [|discriminate].
  cbn [negb]. apply Nat.eqb_eq in El. fold E.
  destruct (Gcm.open E iv c t) as [p|] eqn:Eo; [|discriminate].
  intros _. apply open_checks_tag in Eo as [Et _].
  rewrite El in Et. change CryptoService.AuthTagLength with 16%nat in Et.
  rewrite firstn_all2 in Et by (rewrite tag_length; lia). congruence.
Qed.

(** X19.  CryptoService opens a record only with the whole tag: for what
    [Encrypt] sealed, [Decrypt] returns the text only when the tag field
    decodes to the sixteen bytes of the tag, and a tag cut to fewer bytes,
    which the Node.js [decrypt] accepts at 4, 8 and 12 to 15 bytes, is
    refused for its size. *)
Theorem crypto_service_wants_the_whole_tag (aesKey : buffer) (entropy : N)
        (plaintext : jsstring) :
  match CryptoService.Encrypt aesKey entropy plaintext with
  | (encryptedContent, iv, authTag) =>
      (forall given text,
         CryptoService.Decrypt aesKey encryptedContent iv given = inr text ->
         CryptoService.FromBase64String given = Some (Base64.decode authTag))
      /\ length (Base64.decode authTag) = 16%nat
      /\ forall n, (n < 16)%nat ->
           CryptoService.Decrypt aesKey encryptedContent iv
                                 (Base64.encode (firstn n (Base64.decode authTag)))
           = inl CryptoService.BadTagSize
  end.
Proof.
  rewrite Encrypt_eq. cbv zeta.
  set (E := Aes.encrypt_block aesKey). set (iv := randomBytes 12 entropy).
  set (c := Gcm.gctr E (Gcm.inc32 (Gcm.j0 E iv)) (Utf8.encode plaintext)).
  rewrite base64_decode_encode.
  split; [|split].
  - intros given text. unfold CryptoService.Decrypt.
    rewrite !FromBase64String_encode.
    destruct (CryptoService.FromBase64String given) as [t|]; [|discriminate].
    destruct (negb (Nat.eqb (length iv) _)); [discriminate|].
    destruct (Nat.eqb (length t) CryptoService.AuthTagLength) eqn:El; [|discriminate].
    cbn [negb]. apply Nat.eqb_eq in El. fold E.
    destruct (Gcm.open E iv c t) as [p|] eqn:Eo; [|discriminate].
    intros _. apply open_checks_tag in Eo as [Et _].
    rewrite El in Et. change CryptoService.AuthTagLength with 16%nat in Et.
    rewrite firstn_all2 in Et by (rewrite tag_length; lia). congruence.
  - apply tag_length.
  - intros n Hn. unfold CryptoService.Decrypt.
    rewrite !FromBase64String_encode. unfold iv at 1. rewrite randomBytes_length.
    rewrite length_firstn, tag_length, (Nat.min_l n 16) by lia.
    cbn [CryptoService.IVLength Nat.eqb negb].
    replace (Nat.eqb n CryptoService.AuthTagLength) with false; [reflexivity|].
    symmetry. apply Nat.eqb_neq. change CryptoService.AuthTagLength with 16%nat. lia.
Qed.

(** X20.  The two implementations write the same record and read each other's.
    Under the same key, from the same draw of the nonce and the same
    text, [encrypt] of the Node.js application and [Encrypt] of
    CryptoService return the same three strings, and the two digests are
    the same string; so a record one of them wrote reads back clean, with
    the text, through the read path of the other. *)
Theorem records_cross_over (env : Env) (aesKey : buffer) (entropy : N)
        (plaintext : jsstring) :
  Crypto.getEncryptionKey env = inr aesKey ->
  Utf8.well_formed plaintext = true ->
  exists e,
    Crypto.encrypt env entropy plaintext = inr e
    /\ CryptoService.Encrypt aesKey entropy plaintext
       = (Crypto.encryptedContent e, Crypto.iv e, Crypto.authTag e)
    /\ CSharp.HashService.ComputeSHA256 plaintext = Hash.computeSHA256 plaintext
    /\ CryptoService.Decrypt aesKey (Crypto.encryptedContent e) (Crypto.iv e)
                             (Crypto.authTag e)
       = inr plaintext
    /\ (forall id owner created updated,
          CSharp.DecryptTodoAsync (CryptoService.decrypt_for aesKey)
            {| CSharp.Id := id; CSharp.UserId := owner;
               CSharp.EncryptedContent := Crypto.encryptedContent e;
               CSharp.IV := Crypto.iv e; CSharp.AuthTag := Crypto.authTag e;
               CSharp.IntegrityHash := Hash.computeSHA256 plaintext;
               CSharp.CreatedAt := created; CSharp.UpdatedAt := updated |}
          = {| CSharp.dto_Id := id; CSharp.Content := plaintext;
               CSharp.Tampered := false;
               CSharp.dto_CreatedAt := created; CSharp.dto_UpdatedAt := updated |})
    /\ (forall id owner created updated,
          TodoController.read_one env
            {| Todo._id := id; Todo.userId := owner;
               Todo.encryptedContent := Crypto.encryptedContent e;
               Todo.iv := Crypto.iv e; Todo.authTag := Crypto.authTag e;
               Todo.integrityHash := CSharp.HashService.ComputeSHA256 plaintext;
               Todo.createdAt := created; Todo.updatedAt := updated |}
          = {| TodoController.id := id; TodoController.content := plaintext;
               TodoController.tampered := Some false; TodoController.error := None;
               TodoController.createdAt := created;
               TodoController.updatedAt := updated |}).
Proof.
  intros Hk Hw.
  destruct (encrypt_ok env entropy plaintext (ex_intro _ aesKey Hk)) as [e He].
  exists e. split; [exact He|].
  destruct (encrypt_inv env entropy plaintext e He) as (key & Hk' & Ee).
  assert (key = aesKey) by congruence. subst key.
  assert (Et : CryptoService.Encrypt aesKey entropy plaintext
               = (Crypto.encryptedContent e, Crypto.iv e, Crypto.authTag e)).
  { rewrite Encrypt_eq, Ee. reflexivity. }
  assert (Ed : CryptoService.Decrypt aesKey (Crypto.encryptedContent e) (Crypto.iv e)
                                     (Crypto.authTag e) = inr plaintext).
  { pose proof (Decrypt_Encrypt aesKey entropy plaintext Hw) as H.
    rewrite Et in H. exact H. }
  split; [exact Et|]. split; [apply ComputeSHA256_eq|]. split; [exact Ed|]. split.
  - intros id owner created updated. unfold CSharp.DecryptTodoAsync.
    cbn [CSharp.EncryptedContent CSharp.IV CSharp.AuthTag CSharp.IntegrityHash
         CSharp.Id CSharp.CreatedAt CSharp.UpdatedAt].
    unfold CryptoService.decrypt_for. rewrite Ed.
    unfold CSharp.HashService.VerifyIntegrity, CSharp.equals_ignore_case.
    rewrite ComputeSHA256_eq, jsstring_eqb_refl. reflexivity.
  - intros id owner created updated. rewrite ComputeSHA256_eq.
    apply (read_one_sealed env entropy plaintext e id owner created updated Hw He).
Qed.

Lemma records_cross_over_witness :
  CryptoService.Encrypt Example.key 0x0102030405060708090a0b0c (js "buy milk")
  = (Crypto.encryptedContent Example.sealed_milk, Crypto.iv Example.sealed_milk,
     Crypto.authTag Example.sealed_milk)
  /\ CryptoService.Decrypt Example.key (Crypto.encryptedContent Example.sealed_milk)
       (Crypto.iv Example.sealed_milk) (Crypto.authTag Example.sealed_milk)
     = inr (js "buy milk").
Proof.
  destruct (records_cross_over Example.env Example.key 0x0102030405060708090a0b0c
              (js "buy milk")) as (e & He & Et & _ & Ed & _).
  - vm_compute. reflexivity.
  - reflexivity.
  - assert (e = Example.sealed_milk)
      by (pose proof sealed_milk_eq as H; rewrite He in H; congruence).
    subst e. split; assumption.
Defined.

(** * TodoService and TodosController *)

Section Port.

Variable aesKey : buffer.
Variable Todos_AddAsync : list CSharp.Todo -> CSharp.Todo -> list CSharp.Todo.
Variable Todos_UpdateAsync : list CSharp.Todo -> CSharp.Todo -> list CSharp.Todo.
Variable Todos_DeleteAsync : list CSharp.Todo -> CSharp.Todo -> list CSharp.Todo.

Lemma GetByIdAndUserIdAsync_none (todos : list CSharp.Todo) (id userId : CSharp.Guid) :
  (forall t, In t todos -> CSharp.Id t = id -> CSharp.UserId t <> userId) ->
  TodoRepository.GetByIdAndUserIdAsync todos id userId = None.
Proof.
  intros H. unfold TodoRepository.GetByIdAndUserIdAsync.
  destruct (find _ todos) as [t|] eqn:Ef; [|reflexivity].
  apply find_some in Ef as [Hin Ht]. apply andb_prop in Ht as [Hi Hu].
  apply N.eqb_eq in Hi, Hu. exfalso. apply (H t Hin Hi Hu).
Qed.

Lemma in_insert_latest (x t : CSharp.Todo) (l : list CSharp.Todo) :
  In x (TodoRepository.insert_latest t l) <-> x = t \/ In x l.
Proof.
  induction l as [|y l IH]; cbn [TodoRepository.insert_latest].
  - cbn. intuition.
  - destruct (CSharp.CreatedAt y <=? CSharp.CreatedAt t); cbn [In]; [intuition|].
    rewrite IH. intuition.
Qed.

Lemma in_GetByUserIdAsync (todos : list CSharp.Todo) (userId : CSharp.Guid)
      (t : CSharp.Todo) :
  In t (TodoRepository.GetByUserIdAsync todos userId)
  <-> In t todos /\ CSharp.UserId t = userId.
Proof.
  unfold TodoRepository.GetByUserIdAsync.
  rewrite <- N.eqb_eq, <- (filter_In (fun t => CSharp.UserId t =? userId)).
  induction (filter _ todos) as [|y l IH]; cbn [fold_right]; [reflexivity|].
  rewrite in_insert_latest, IH. cbn [In]. intuition.
Qed.

Lemma GetAllAsync_map (todos : list CSharp.Todo) (userId : CSharp.Guid) :
  TodoService.GetAllAsync aesKey todos userId
  = map (TodoService.DecryptTodoAsync aesKey)
        (TodoRepository.GetByUserIdAsync todos userId).
Proof.
  unfold TodoService.GetAllAsync.
  generalize (TodoRepository.GetByUserIdAsync todos userId). intros l.
  assert (H : forall acc,
             fold_left (fun result todo =>
                          result ++ [TodoService.DecryptTodoAsync aesKey todo]) l acc
             = acc ++ map (TodoService.DecryptTodoAsync aesKey) l).
  { induction l as [|t l IH]; intros acc; cbn [fold_left map].
    - rewrite app_nil_r. reflexivity.
    - rewrite IH, <- app_assoc. reflexivity. }
  apply (H []).
Qed.

Lemma not_found_is_found :
  TodosController.Contains
    (TodosController.ex_Message (CSharp.NotFoundException TodoService.TodoNotFound))
    (js "not found") = true.
Proof. reflexivity. Qed.

(** X21.  The port keeps one user's to-dos from another.  For an id under which
    the caller owns no row (a row of somebody else, or no row at all),
    [GetByIdAsync] returns null and the controller answers 404;
    [UpdateAsync] and [DeleteAsync] throw NotFoundException 'Todo not
    found' before anything is encrypted or written, which the controller
    turns into 404 by the words 'not found' in the message; and every
    entry [GetAllAsync] returns is what a row of the caller reads as. *)
Theorem port_keeps_todos_apart (todos : list CSharp.Todo) (userId id : CSharp.Guid) :
  (forall t, In t todos -> CSharp.Id t = id -> CSharp.UserId t <> userId) ->
  TodoService.GetByIdAsync aesKey todos id userId = None
  /\ TodosController.GetById aesKey todos userId id
     = TodosController.FailureResult 404 (js "Todo not found")
                                     (js "The requested todo does not exist")
  /\ (forall now entropy Content,
        TodoService.UpdateAsync aesKey Todos_UpdateAsync todos now entropy id Content userId
        = (inl (CSharp.NotFoundException (js "Todo not found")), todos)
        /\ TodosController.Update aesKey Todos_UpdateAsync todos now entropy userId id Content
           = (TodosController.FailureResult 404 (js "Todo not found") (js "Todo not found"),
              todos))
  /\ TodoService.DeleteAsync Todos_DeleteAsync todos id userId
     = (inl (CSharp.NotFoundException (js "Todo not found")), todos)
  /\ TodosController.Delete Todos_DeleteAsync todos userId id
     = (TodosController.FailureResult 404 (js "Todo not found") (js "Todo not found"), todos)
  /\ forall dto,
       In dto (TodoService.GetAllAsync aesKey todos userId) ->
       exists t, In t todos /\ CSharp.UserId t = userId
                 /\ dto = TodoService.DecryptTodoAsync aesKey t.
Proof.
  intros H. pose proof (GetByIdAndUserIdAsync_none todos id userId H) as Hn.
  assert (Hu : forall now entropy Content,
             TodoService.UpdateAsync aesKey Todos_UpdateAsync todos now entropy id
                                     Content userId
             = (inl (CSharp.NotFoundException (js "Todo not found")), todos))
    by (intros; unfold TodoService.UpdateAsync; rewrite Hn; reflexivity).
  assert (Hd : TodoService.DeleteAsync Todos_DeleteAsync todos id userId
               = (inl (CSharp.NotFoundException (js "Todo not found")), todos))
    by (unfold TodoService.DeleteAsync; rewrite Hn; reflexivity).
  split; [unfold TodoService.GetByIdAsync; rewrite Hn; reflexivity|].
  split; [unfold TodosController.GetById, TodoService.GetByIdAsync; rewrite Hn; reflexivity|].
  split; [|split; [exact Hd|split]].
  - intros now entropy Content. split; [apply Hu|].
    unfold TodosController.Update. rewrite Hu. reflexivity.
  - unfold TodosController.Delete. rewrite Hd. reflexivity.
  - intros dto Hin. rewrite GetAllAsync_map in Hin.
    apply in_map_iff in Hin as (t & <- & Ht). apply in_GetByUserIdAsync in Ht as [Ht Ho].
    exists t. auto.
Qed.

(** X22.  What the port writes it reads back.  For well-formed text, the entity
    [CreateAsync] hands to the repository belongs to the caller and reads
    back, through [DecryptTodoAsync], as the very answer [CreateAsync]
    returns: the text sent, not tampered.  [UpdateAsync] on a row of the
    caller does the same with the new text, keeping the row's id, owner
    and creation time. *)
Theorem port_todo_reads_back (todos : list CSharp.Todo) (now : N) (id : CSharp.Guid)
        (entropy : N) (Content : jsstring) (userId : CSharp.Guid) :
  Utf8.well_formed Content = true ->
  (let todo := TodoService.new_todo aesKey now id entropy Content userId in
   TodoService.CreateAsync aesKey Todos_AddAsync todos now id entropy Content userId
   = (TodoService.DecryptTodoAsync aesKey todo, Todos_AddAsync todos todo)
   /\ CSharp.Content (TodoService.DecryptTodoAsync aesKey todo) = Content
   /\ CSharp.Tampered (TodoService.DecryptTodoAsync aesKey todo) = false
   /\ CSharp.Id todo = id /\ CSharp.UserId todo = userId)
  /\ forall old,
       TodoRepository.GetByIdAndUserIdAsync todos id userId = Some old ->
       exists todo',
         TodoService.UpdateAsync aesKey Todos_UpdateAsync todos now entropy id
                                 Content userId
         = (inr (TodoService.DecryptTodoAsync aesKey todo'),
            Todos_UpdateAsync todos todo')
         /\ CSharp.Content (TodoService.DecryptTodoAsync aesKey todo') = Content
         /\ CSharp.Tampered (TodoService.DecryptTodoAsync aesKey todo') = false
         /\ CSharp.dto_UpdatedAt (TodoService.DecryptTodoAsync aesKey todo') = now
         /\ CSharp.Id todo' = id /\ CSharp.UserId todo' = userId
         /\ CSharp.CreatedAt todo' = CSharp.CreatedAt old.
Proof.
  intros Hw.
  pose proof (Decrypt_Encrypt aesKey entropy Content Hw) as Hr.
  assert (Hread : forall i u c m,
             TodoService.DecryptTodoAsync aesKey
               (match CryptoService.Encrypt aesKey entropy Content with
                | (encryptedContent, iv, authTag) =>
                    {| CSharp.Id := i; CSharp.UserId := u;
                       CSharp.EncryptedContent := encryptedContent;
                       CSharp.IV := iv; CSharp.AuthTag := authTag;
                       CSharp.IntegrityHash := CSharp.HashService.ComputeSHA256 Content;
                       CSharp.CreatedAt := c; CSharp.UpdatedAt := m |}
                end)
             = {| CSharp.dto_Id := i; CSharp.Content := Content; CSharp.Tampered := false;
                  CSharp.dto_CreatedAt := c; CSharp.dto_UpdatedAt := m |}).
  { intros i u c m.
    destruct (CryptoService.Encrypt aesKey entropy Content) as [[ec iv] tag].
    unfold TodoService.DecryptTodoAsync, CSharp.DecryptTodoAsync.
    cbn [CSharp.EncryptedContent CSharp.IV CSharp.AuthTag CSharp.IntegrityHash
         CSharp.Id CSharp.CreatedAt CSharp.UpdatedAt].
    unfold CryptoService.decrypt_for. rewrite Hr.
    unfold CSharp.HashService.VerifyIntegrity, CSharp.equals_ignore_case.
    rewrite jsstring_eqb_refl. reflexivity. }
  split.
  - cbv zeta. unfold TodoService.CreateAsync, TodoService.new_todo. cbv zeta.
    rewrite Hread.
    destruct (CryptoService.Encrypt aesKey entropy Content) as [[ec iv] tag].
    repeat split.
  - intros old Ho. unfold TodoService.UpdateAsync. rewrite Ho.
    unfold TodoRepository.GetByIdAndUserIdAsync in Ho.
    apply find_some in Ho as [_ Ho]. apply andb_prop in Ho as [Hi Hu].
    apply N.eqb_eq in Hi, Hu.
    specialize (Hread (CSharp.Id old) (CSharp.UserId old) (CSharp.CreatedAt old) now).
    destruct (CryptoService.Encrypt aesKey entropy Content) as [[ec iv] tag].
    eexists. split; [rewrite Hread; reflexivity|].
    rewrite Hread. cbn. repeat split; assumption.
Qed.

End Port.

Lemma port_keeps_todos_apart_witness :
  TodosController.Delete (fun todos _ => todos)
    [{| CSharp.Id := 1; CSharp.UserId := 10; CSharp.EncryptedContent := js "AAAA";
        CSharp.IV := js "AAAA"; CSharp.AuthTag := js "AAAA"; CSharp.IntegrityHash := [];
        CSharp.CreatedAt := 5; CSharp.UpdatedAt := 5 |}] 20 1
  = (TodosController.FailureResult 404 (js "Todo not found") (js "Todo not found"),
     [{| CSharp.Id := 1; CSharp.UserId := 10; CSharp.EncryptedContent := js "AAAA";
         CSharp.IV := js "AAAA"; CSharp.AuthTag := js "AAAA"; CSharp.IntegrityHash := [];
         CSharp.CreatedAt := 5; CSharp.UpdatedAt := 5 |}]).
Proof.
  apply (port_keeps_todos_apart Example.key (fun todos _ => todos) (fun todos _ => todos)).
  intros t [<-|[]] _. cbn. discriminate.
Defined.

Lemma port_todo_reads_back_witness :
  CSharp.Content
    (TodoService.DecryptTodoAsync Example.key
       (TodoService.new_todo Example.key 1700000000000 1 7 (js "buy milk") 10))
  = js "buy milk".
Proof.
  apply (port_todo_reads_back Example.key (fun todos t => todos ++ [t])
           (fun todos _ => todos) [] 1700000000000 1 7 (js "buy milk") 10 eq_refl).
Defined.

(** * More of AuthService *)

Module SessionFacts.
Import CSharp Rotation RotationFacts Issued Sessions.

Lemma ToLower_idempotent (s : jsstring) : ToLower (ToLower s) = ToLower s.
Proof.
  unfold ToLower, Hex.to_lower. rewrite map_map. apply map_ext. intros c.
  unfold Hex.lower_char.
  destruct ((65 <=? c) && (c <=? 90)) eqn:E; [|rewrite E; reflexivity].
  apply andb_prop in E as [E1 E2]. apply N.leb_le in E1, E2.
  replace ((65 <=? c + 32) && (c + 32 <=? 90)) with false; [reflexivity|].
  symmetry. apply andb_false_iff. right. apply N.leb_gt. lia.
Qed.

Lemma logout_spends (days : N) (T : jsstring) (id : Guid) (now : N) (users : list User) :
  days <> 0 ->
  just_issued days T id now users -> spent T (LogoutAsync users id).
Proof.
  intros Hd Hj. pose proof Hj as [Hsingle _]. unfold LogoutAsync. split.
  - rewrite token_stored_update; [|intros u; apply has_map_revoke].
    rewrite token_stored_has.
    destruct Hj as [_ (u & Hin & Hu)]. apply existsb_exists. exists u.
    split; [exact Hin|]. apply (usable_has T now), Hu. lia.
  - intros u Hu. apply in_update_user in Hu as (u0 & Hin & ->).
    destruct (user_Id u0 =? id) eqn:E.
    + apply live_map_revoke.
    + apply has_false_live.
      destruct (has T (RefreshTokens u0)) eqn:Eh; [|reflexivity].
      apply (proj2 (Hsingle u0 Hin)) in Eh. apply N.eqb_neq in E. contradiction.
Qed.

Lemma named_has (T : jsstring) (rt : RefreshToken) (rts : list RefreshToken) :
  In rt rts -> named T rt = true -> has T rts = true.
Proof. intros Hin Hn. apply existsb_exists. eauto. Qed.

Lemma issued_rows_expire (GenerateAccessToken : Guid -> jsstring -> N -> jsstring)
      (days : N) (saved kept : list User) (user : User) (now : N) (guid : Guid)
      (T : jsstring) (dto : LoginResponseDto) (users1 : list User) :
  In user saved ->
  issue GenerateAccessToken days saved kept user now guid T = (inr dto, users1) ->
  expires_at T (now + days * 86400000) users1.
Proof.
  intros Hin. unfold issue.
  destruct (StoreRefreshTokenAsync days saved now guid (user_Id user) T) as [users'|] eqn:Es;
    [|discriminate].
  intros [= _ <-]. apply store_some in Es as [-> Hfresh].
  specialize (Hfresh (exists_user saved user Hin)).
  intros u rt Hu Hrt Hn. apply in_update_user in Hu as (u0 & Hu0 & ->).
  pose proof (not_stored_has T saved u0 Hfresh Hu0) as Hnone.
  destruct (user_Id u0 =? user_Id user).
  - cbn [add_row with_tokens RefreshTokens] in Hrt. apply in_app_or in Hrt as [Hrt|[<-|[]]].
    + rewrite (named_has T rt _ Hrt Hn) in Hnone. discriminate.
    + reflexivity.
  - rewrite (named_has T rt _ Hrt Hn) in Hnone. discriminate.
Qed.

Lemma expired_is_refused (GenerateAccessToken : Guid -> jsstring -> N -> jsstring)
      (days : N) (T : jsstring) (expiry : N) (users : list User) (now : N) (guid : Guid)
      (T' : jsstring) :
  expires_at T expiry users -> expiry <= now ->
  RefreshTokenAsync GenerateAccessToken days users now guid T' T
  = (inl (UnauthorizedException ErrorMessages.InvalidToken), users).
Proof.
  intros He Hl. unfold RefreshTokenAsync.
  destruct (filter _ users) as [|u found] eqn:Ef; [reflexivity|].
  assert (Hu : In u (filter (fun u => existsb (usable T now) (RefreshTokens u)) users))
    by (rewrite Ef; left; reflexivity).
  apply filter_In in Hu as [Hin Hex]. apply existsb_exists in Hex as (rt & Hrt & Hus).
  unfold usable in Hus. apply andb_prop in Hus as [Hus Hlt].
  apply andb_prop in Hus as [Hn _]. apply N.ltb_lt in Hlt.
  rewrite (He u rt Hin Hrt Hn) in Hlt. lia.
Qed.

Lemma keys_update_user (users : list User) (id : Guid) (f : User -> User) :
  keeps_email f -> map email_key (update_user users id f) = map email_key users.
Proof.
  intros Hf. unfold update_user. rewrite map_map. apply map_ext. intros u.
  destruct (user_Id u =? id); [|reflexivity]. unfold email_key.
  rewrite (proj1 (Hf u)). reflexivity.
Qed.

Lemma add_row_keeps_email (days now : N) (guid userId : Guid) (token : jsstring) :
  keeps_email (add_row days now guid userId token).
Proof. intros u. split; reflexivity. Qed.

Lemma link_google_keeps_email (googleId : jsstring) (now : N) :
  keeps_email (link_google googleId now).
Proof. intros u. split; reflexivity. Qed.

Lemma same_email_key (email : jsstring) (u : User) :
  same_email email u = jsstring_eqb (email_key u) (ToLower email).
Proof. reflexivity. Qed.

Lemma email_absent (users : list User) (email : jsstring) :
  existsb (same_email email) users = false -> ~ In (ToLower email) (map email_key users).
Proof.
  intros He Hin. apply in_map_iff in Hin as (u & Hk & Hu).
  assert (existsb (same_email email) users = true).
  { apply existsb_exists. exists u. split; [exact Hu|].
    rewrite same_email_key, Hk. apply jsstring_eqb_refl. }
  congruence.
Qed.

Lemma find_none_existsb {A} (f : A -> bool) (l : list A) :
  find f l = None -> existsb f l = false.
Proof.
  induction l as [|x l IH]; cbn [find existsb]; [reflexivity|].
  destruct (f x); [discriminate|]. exact IH.
Qed.

Lemma keys_issue (GenerateAccessToken : Guid -> jsstring -> N -> jsstring) (days : N)
      (saved kept : list User) (user : User) (now : N) (guid : Guid) (token : jsstring) :
  map email_key kept = map email_key saved ->
  map email_key (snd (issue GenerateAccessToken days saved kept user now guid token))
  = map email_key saved.
Proof.
  intros Hk. unfold issue.
  destruct (StoreRefreshTokenAsync days saved now guid (user_Id user) token)
    as [users'|] eqn:Es; cbn [snd]; [|exact Hk].
  apply store_some in Es as [-> _].
  apply keys_update_user, add_row_keeps_email.
Qed.

Lemma keys_append (users : list User) (u : User) (email : jsstring) :
  Email u = ToLower email ->
  existsb (same_email email) users = false ->
  NoDup (map email_key users) -> NoDup (map email_key (users ++ [u])).
Proof.
  intros He Hn Hd. rewrite map_app. cbn [map].
  apply NoDup_app; [exact Hd | repeat constructor; intros [] |].
  intros k Hk [<-|[]]. unfold email_key in Hk. rewrite He, ToLower_idempotent in Hk.
  apply (email_absent users email Hn Hk).
Qed.

Lemma find_update_user (users : list User) (id : Guid) (f : User -> User)
      (email : jsstring) :
  keeps_email f ->
  find (same_email email) (update_user users id f)
  = option_map (fun u => if user_Id u =? id then f u else u)
               (find (same_email email) users).
Proof.
  intros Hf. induction users as [|u users IH]; [reflexivity|].
  cbn [update_user map find].
  replace (same_email email (if user_Id u =? id then f u else u))
    with (same_email email u).
  - destruct (same_email email u); [reflexivity|]. exact IH.
  - destruct (user_Id u =? id); [|reflexivity].
    unfold same_email. rewrite (proj1 (Hf u)). reflexivity.
Qed.

Lemma find_appended (users : list User) (u : User) (email : jsstring) :
  find (same_email email) users = None ->
  same_email email u = true ->
  find (same_email email) (users ++ [u]) = Some u.
Proof.
  intros Hn Hu. induction users as [|x users IH]; cbn [app find] in *.
  - rewrite Hu. reflexivity.
  - destruct (same_email email x); [discriminate|]. apply IH, Hn.
Qed.

End SessionFacts.

(** X23.  Logging out ends every session of the user.  After a successful
    login, [LogoutAsync] for that user sets IsRevoked on each of the
    user's refresh tokens and leaves the rows of every other user as they
    are; from then on, whatever calls are made in between, the refresh
    token the login returned is refused with UnauthorizedException
    'Invalid or expired token'. *)
Theorem logout_ends_the_session
        (HashPassword : jsstring -> N -> jsstring)
        (VerifyPassword : jsstring -> jsstring -> bool)
        (GenerateAccessToken : CSharp.Guid -> jsstring -> N -> jsstring)
        (RefreshTokenExpirationDays : N)
        (users0 : list CSharp.User) (now0 : N) (guid0 : CSharp.Guid)
        (T email password : jsstring) (dto : CSharp.LoginResponseDto)
        (users1 : list CSharp.User) :
  RefreshTokenExpirationDays <> 0 ->
  CSharp.LoginAsync VerifyPassword GenerateAccessToken RefreshTokenExpirationDays
                    users0 now0 guid0 T email password = (inr dto, users1) ->
  let userId := fst (fst (fst (CSharp.UserDto dto))) in
  let users2 := CSharp.LogoutAsync users1 userId in
  CSharp.NewRefreshToken dto = T
  /\ map CSharp.user_Id users2 = map CSharp.user_Id users1
  /\ (forall u, In u users2 ->
        if CSharp.user_Id u =? userId
        then forallb CSharp.IsRevoked (CSharp.RefreshTokens u) = true
        else In u users1)
  /\ forall calls now guid T',
       let users3 :=
         CSharp.after_all HashPassword VerifyPassword GenerateAccessToken
                          RefreshTokenExpirationDays users2 calls in
       CSharp.RefreshTokenAsync GenerateAccessToken RefreshTokenExpirationDays
                                users3 now guid T' T
       = (inl (CSharp.UnauthorizedException (js "Invalid or expired token")), users3).
Proof.
  intros Hd Hl.
  destruct (Issued.login_issues HashPassword _ _ _ _ _ _ _ _ _ _ _ Hl) as (user & -> & Hj).
  cbv zeta. cbn [CSharp.respond CSharp.NewRefreshToken CSharp.UserDto fst].
  split; [reflexivity|]. split; [|split].
  - unfold CSharp.LogoutAsync, CSharp.update_user. rewrite map_map.
    apply map_ext. intros u. destruct (CSharp.user_Id u =? _); reflexivity.
  - intros u Hu. apply Issued.in_update_user in Hu as (u0 & Hin & ->).
    destruct (CSharp.user_Id u0 =? CSharp.user_Id user) eqn:E.
    + cbn [CSharp.with_tokens CSharp.user_Id CSharp.RefreshTokens]. rewrite E.
      rewrite forallb_forall. intros rt Hrt. apply in_map_iff in Hrt as (r & <- & _).
      reflexivity.
    + rewrite E. exact Hin.
  - intros calls now guid T'.
    apply RotationFacts.refresh_spent, RotationFacts.spent_after_all.
    apply (SessionFacts.logout_spends RefreshTokenExpirationDays T _ now0 users1 Hd Hj).
Qed.

Lemma logout_ends_the_session_witness :
  fst (CSharp.RefreshTokenAsync Scenario.access 7
         (CSharp.LogoutAsync (snd Scenario.login) 1) 1700000060000 12
         (js "second-token") (js "first-token"))
  = inl (CSharp.UnauthorizedException (js "Invalid or expired token")).
Proof.
  destruct (logout_ends_the_session Scenario.hashed Scenario.accept Scenario.access 7
              [Scenario.carol] 1700000000000 11 (js "first-token")
              (js "carol@example.com") (js "Passw0rd1")
              (CSharp.respond Scenario.access Scenario.carol 1700000000000
                              (js "first-token"))
              (snd Scenario.login)) as (_ & _ & _ & H).
  - discriminate.
  - reflexivity.
  - specialize (H [] 1700000060000 12 (js "second-token")). cbv zeta in H.
    cbn [CSharp.after_all fold_left CSharp.respond CSharp.UserDto fst] in H.
    change (CSharp.user_Id Scenario.carol) with 1 in H.
    rewrite H. reflexivity.
Defined.

(** X24.  A refresh token lives for the configured number of days and not a
    millisecond longer: a token returned by a successful login or
    registration is refused with UnauthorizedException 'Invalid or expired
    token' by every [RefreshTokenAsync] made at or after the instant of
    issue plus RefreshTokenExpirationDays days, and the refused call
    changes nothing. *)
Theorem refresh_token_expires
        (HashPassword : jsstring -> N -> jsstring)
        (VerifyPassword : jsstring -> jsstring -> bool)
        (GenerateAccessToken : CSharp.Guid -> jsstring -> N -> jsstring)
        (RefreshTokenExpirationDays : N)
        (users0 : list CSharp.User) (now0 : N) (guid0 : CSharp.Guid) (T : jsstring)
        (dto : CSharp.LoginResponseDto) (users1 : list CSharp.User) :
  ((exists email password,
      CSharp.LoginAsync VerifyPassword GenerateAccessToken RefreshTokenExpirationDays
                        users0 now0 guid0 T email password = (inr dto, users1))
   \/ (exists id salt username email password,
         CSharp.RegisterAsync HashPassword GenerateAccessToken RefreshTokenExpirationDays
                              users0 now0 id guid0 salt T username email password
         = (inr dto, users1))) ->
  forall now1 guid1 T1,
    now0 + RefreshTokenExpirationDays * 86400000 <= now1 ->
    CSharp.RefreshTokenAsync GenerateAccessToken RefreshTokenExpirationDays
                             users1 now1 guid1 T1 T
    = (inl (CSharp.UnauthorizedException (js "Invalid or expired token")), users1).
Proof.
  intros Hissued now1 guid1 T1 Hl.
  apply (SessionFacts.expired_is_refused GenerateAccessToken RefreshTokenExpirationDays T
           (now0 + RefreshTokenExpirationDays * 86400000)); [|exact Hl].
  destruct Hissued as [(email & password & H)|(id & salt & username & email & password & H)].
  - unfold CSharp.LoginAsync, CSharp.GetByEmailAsync in H.
    destruct (find (CSharp.same_email email) users0) as [user|] eqn:Ef; [|discriminate].
    apply find_some in Ef as [Hin _].
    destruct (CSharp.PasswordHash user) as [[|c h]|]; try discriminate.
    destruct (VerifyPassword password (c :: h)); cbn [negb] in H; [|discriminate].
    apply (SessionFacts.issued_rows_expire _ _ _ _ _ _ _ _ _ _ Hin H).
  - unfold CSharp.RegisterAsync in H.
    destruct (CSharp.EmailExistsAsync users0 email); [discriminate|].
    refine (SessionFacts.issued_rows_expire _ _ _ _ _ _ _ _ _ _ _ H).
    apply in_or_app. right. left. reflexivity.
Qed.

Lemma refresh_token_expires_witness :
  fst (CSharp.RefreshTokenAsync Scenario.access 7 (snd Scenario.login)
         (1700000000000 + 7 * 86400000) 12 (js "second-token") (js "first-token"))
  = inl (CSharp.UnauthorizedException (js "Invalid or expired token")).
Proof.
  rewrite (refresh_token_expires Scenario.hashed Scenario.accept Scenario.access 7
             [Scenario.carol] 1700000000000 11 (js "first-token")
             (CSharp.respond Scenario.access Scenario.carol 1700000000000
                             (js "first-token"))
             (snd Scenario.login)).
  - reflexivity.
  - left. exists (js "carol@example.com"), (js "Passw0rd1"). reflexivity.
  - reflexivity.
Defined.

(** X25.  No second account for an email.  If no two stored users have the same
    email when letter case is ignored, no call on AuthService (register,
    login, refresh, Google login, logout), whether it returns or throws,
    leaves two such users; and a stored user never changes email. *)
Theorem emails_stay_distinct
        (HashPassword : jsstring -> N -> jsstring)
        (VerifyPassword : jsstring -> jsstring -> bool)
        (GenerateAccessToken : CSharp.Guid -> jsstring -> N -> jsstring)
        (RefreshTokenExpirationDays : N)
        (users : list CSharp.User) (calls : list CSharp.call) :
  NoDup (map Sessions.email_key users) ->
  let users' :=
    CSharp.after_all HashPassword VerifyPassword GenerateAccessToken
                     RefreshTokenExpirationDays users calls in
  NoDup (map Sessions.email_key users')
  /\ exists added, map Sessions.email_key users' = map Sessions.email_key users ++ added.
Proof.
  cbv zeta. revert users.
  assert (Hstep : forall users c,
             NoDup (map Sessions.email_key users) ->
             let users' := CSharp.after HashPassword VerifyPassword GenerateAccessToken
                                        RefreshTokenExpirationDays users c in
             NoDup (map Sessions.email_key users')
             /\ exists added,
                  map Sessions.email_key users' = map Sessions.email_key users ++ added).
  { intros users c Hd. cbv zeta.
    assert (Hsame : forall l, map Sessions.email_key l = map Sessions.email_key users ->
                              NoDup (map Sessions.email_key l)
                              /\ exists added,
                                   map Sessions.email_key l
                                   = map Sessions.email_key users ++ added).
    { intros l ->. split; [exact Hd|]. exists []. rewrite app_nil_r. reflexivity. }
    assert (Hnew : forall u email l,
               CSharp.Email u = CSharp.ToLower email ->
               existsb (CSharp.same_email email) users = false ->
               map Sessions.email_key l = map Sessions.email_key (users ++ [u]) ->
               NoDup (map Sessions.email_key l)
               /\ exists added,
                    map Sessions.email_key l = map Sessions.email_key users ++ added).
    { intros u email l He Hn ->. split; [apply (SessionFacts.keys_append users u email He Hn Hd)|].
      exists [Sessions.email_key u]. apply map_app. }
    destruct c as [now id guid salt token username email password
                  | now guid token email password
                  | now guid token old
                  | now id guid token googleId email username
                  | userId]; cbn [CSharp.after].
    - unfold CSharp.RegisterAsync.
      destruct (CSharp.EmailExistsAsync users email) eqn:Ee; cbn [snd]; [auto|].
      eapply Hnew; [| exact Ee | apply SessionFacts.keys_issue; reflexivity]. reflexivity.
    - unfold CSharp.LoginAsync.
      destruct (CSharp.GetByEmailAsync users email) as [user|]; cbn [snd]; [|auto].
      destruct (CSharp.PasswordHash user) as [[|c h]|]; cbn [snd]; auto.
      destruct (negb (VerifyPassword password (c :: h))); cbn [snd]; [auto|].
      apply Hsame, SessionFacts.keys_issue. reflexivity.
    - unfold CSharp.RefreshTokenAsync.
      destruct (filter _ users) as [|user found]; cbn [snd]; [auto|].
      apply Hsame. rewrite SessionFacts.keys_issue.
      + apply SessionFacts.keys_update_user. intros u. split; reflexivity.
      + symmetry. apply SessionFacts.keys_update_user. intros u. split; reflexivity.
    - unfold CSharp.GoogleLoginAsync.
      destruct (CSharp.GetByGoogleIdAsync users googleId) as [user|].
      + apply Hsame, SessionFacts.keys_issue. reflexivity.
      + destruct (CSharp.GetByEmailAsync users email) as [user|] eqn:Ee.
        * apply Hsame. rewrite SessionFacts.keys_issue by reflexivity.
          apply SessionFacts.keys_update_user, SessionFacts.link_google_keeps_email.
        * eapply Hnew; [| apply SessionFacts.find_none_existsb, Ee
                        | apply SessionFacts.keys_issue; reflexivity].
          reflexivity.
    - apply Hsame. unfold CSharp.LogoutAsync.
      apply SessionFacts.keys_update_user. intros u. split; reflexivity. }
  induction calls as [|c calls IH]; intros users Hd; cbn [CSharp.after_all fold_left].
  - split; [exact Hd|]. exists []. rewrite app_nil_r. reflexivity.
  - destruct (Hstep users c Hd) as [Hd1 (added1 & E1)]. cbv zeta in Hd1, E1.
    destruct (IH _ Hd1) as [Hd2 (added2 & E2)]. unfold CSharp.after_all in Hd2, E2.
    split; [exact Hd2|]. exists (added1 ++ added2).
    rewrite E2, E1, app_assoc. reflexivity.
Qed.

Lemma emails_stay_distinct_witness :
  NoDup (map Sessions.email_key
           (CSharp.after_all Scenario.hashed Scenario.accept Scenario.access 7
              [Scenario.carol]
              [CSharp.Register 1700000000001 2 21 0 (js "t2") (js "caro")
                               (js "Carol@Example.com") (js "Passw0rd1");
               CSharp.GoogleLogin 1700000000002 3 22 (js "t3") (js "g-1")
                                  (js "dave@example.com") (js "dave")])).
Proof.
  apply (emails_stay_distinct Scenario.hashed Scenario.accept Scenario.access 7
           [Scenario.carol]).
  repeat constructor; cbn; intuition.
Defined.

(** X26.  An account made by Google sign-in cannot be entered with a
    password.  When [GoogleLoginAsync] creates the user (no stored user
    has the Google id or the email), every later [LoginAsync] with that
    email, whatever the password and whether or not the sign-in itself
    returned, throws BusinessException 'This account uses Google
    Sign-In...' and changes nothing. *)
Theorem google_account_has_no_password
        (VerifyPassword : jsstring -> jsstring -> bool)
        (GenerateAccessToken : CSharp.Guid -> jsstring -> N -> jsstring)
        (RefreshTokenExpirationDays : N)
        (users : list CSharp.User) (now : N) (id guid : CSharp.Guid)
        (token googleId email username : jsstring) :
  CSharp.GetByGoogleIdAsync users googleId = None ->
  CSharp.GetByEmailAsync users email = None ->
  let users1 :=
    snd (CSharp.GoogleLoginAsync GenerateAccessToken RefreshTokenExpirationDays
                                 users now id guid token googleId email username) in
  forall later guid' token' password,
    CSharp.LoginAsync VerifyPassword GenerateAccessToken RefreshTokenExpirationDays
                      users1 later guid' token' email password
    = (inl (CSharp.BusinessException
              (js "This account uses Google Sign-In. Please login with Google.")),
       users1).
Proof.
  intros Hg He. cbv zeta. intros later guid' token' password.
  unfold CSharp.GoogleLoginAsync. rewrite Hg, He.
  set (user := {| CSharp.user_Id := id; CSharp.Username := username;
                  CSharp.Email := CSharp.ToLower email;
                  CSharp.PasswordHash := None; CSharp.GoogleId := Some googleId;
                  CSharp.user_CreatedAt := now; CSharp.user_UpdatedAt := now;
                  CSharp.RefreshTokens := [] |}).
  assert (Hf : CSharp.GetByEmailAsync (users ++ [user]) email = Some user).
  { apply SessionFacts.find_appended; [exact He|].
    unfold CSharp.same_email, user. cbn [CSharp.Email].
    rewrite SessionFacts.ToLower_idempotent. apply jsstring_eqb_refl. }
  unfold CSharp.issue.
  destruct (CSharp.StoreRefreshTokenAsync _ _ _ _ _ _) as [users'|] eqn:Es; cbn [snd].
  - apply RotationFacts.store_some in Es as [-> _].
    unfold CSharp.LoginAsync, CSharp.GetByEmailAsync.
    rewrite SessionFacts.find_update_user by apply SessionFacts.add_row_keeps_email.
    unfold CSharp.GetByEmailAsync in Hf. rewrite Hf. cbn [option_map].
    destruct (CSharp.user_Id user =? CSharp.user_Id user); reflexivity.
  - unfold CSharp.LoginAsync. rewrite Hf. reflexivity.
Qed.

Lemma google_account_has_no_password_witness :
  fst (CSharp.LoginAsync Scenario.accept Scenario.access 7
         (snd (CSharp.GoogleLoginAsync Scenario.access 7 [Scenario.carol] 1700000000002
                 3 22 (js "t3") (js "g-1") (js "dave@example.com") (js "dave")))
         1700000000003 23 (js "t4") (js "dave@example.com") (js "anything"))
  = inl (CSharp.BusinessException
           (js "This account uses Google Sign-In. Please login with Google.")).
Proof.
  rewrite (google_account_has_no_password Scenario.accept Scenario.access 7
             [Scenario.carol] 1700000000002 3 22 (js "t3") (js "g-1")
             (js "dave@example.com") (js "dave") eq_refl eq_refl).
  reflexivity.
Defined.

(** * Tokens of the Node.js application, end to end *)

(** X27.  A refresh token of the Node.js application stops working when it
    expires: from the second named in its 'exp' claim on (seven days
    after issue unless JWT_REFRESH_EXPIRES_IN says otherwise) [refresh]
    answers 401 'Invalid or expired refresh token' and sets no cookie,
    whoever the user is and whether or not the user is still stored. *)
Theorem node_refresh_token_expires (env : Env) (users : list User.t) (issued later : N)
        (userId : ObjectId.t) (token : jsstring) :
  Auth.generateRefreshToken env issued userId = inr token ->
  issued / 1000 + or_span (JWT_REFRESH_EXPIRES_IN env) 604800 <= later / 1000 ->
  Auth.verifyRefreshToken env later token = inl (Jwt.TokenExpiredError (js "jwt expired"))
  /\ AuthController.refresh env users later (Some token)
     = AuthController.fail 401 (js "Invalid or expired refresh token") None.
Proof.
  intros Hg Hl.
  destruct (refresh_token_is_signed env issued userId token Hg) as (c & k & Es & ->).
  assert (Hv : Auth.verifyRefreshToken env later
                 (token_of_claims (refresh_claims env issued userId) (c :: k))
               = inl (Jwt.TokenExpiredError (js "jwt expired"))).
  { unfold Auth.verifyRefreshToken. rewrite Es.
    rewrite (verify_token _ c k later _ (refresh_claims_plain env issued userId)
               (claims_exp _ _ _)).
    replace (_ <=? _) with true by (symmetry; apply N.leb_le; exact Hl). reflexivity. }
  split; [exact Hv|]. unfold AuthController.refresh.
  destruct (token_of_claims_cons (refresh_claims env issued userId) (c :: k))
    as (c0 & t0 & E).
  rewrite E. rewrite <- E, Hv. reflexivity.
Qed.

Lemma node_refresh_token_expires_witness :
  AuthController.refresh Example.env (snd Scenario.registration)
                         (1700000000000 + 604800000)
                         (Some Scenario.issued_refresh_token)
  = AuthController.fail 401 (js "Invalid or expired refresh token") None.
Proof.
  apply (node_refresh_token_expires Example.env (snd Scenario.registration)
           1700000000000 (1700000000000 + 604800000) Example.alice
           Scenario.issued_refresh_token).
  - vm_compute. reflexivity.
  - vm_compute. discriminate.
Defined.

(** X28.  Registration opens the to-do routes.  When [register] has answered
    201 for an id the database had not used, the access token it put in
    the cookie is accepted by [authenticate] as the new user until it
    expires, so GET /api/todos with that cookie is answered by
    [getTodos] for the new user. *)
Theorem registration_opens_the_todo_routes (lib : bcrypt) (env : Env)
        (users : list User.t) (store : list Todo.t) (now later : N)
        (fresh : ObjectId.t) (salt : N) (email username password : jsstring) :
  AuthController.status
    (fst (AuthController.register lib env users now fresh salt email username password))
  = 201 ->
  ObjectId.valid fresh = true ->
  existsb (fun u => ObjectId.eqb (User._id u) fresh) users = false ->
  later / 1000 < now / 1000 + or_span (JWT_EXPIRES_IN env) 3600 ->
  exists accessToken,
    AuthController.cookie
      (fst (AuthController.register lib env users now fresh salt email username password))
    = Some accessToken
    /\ Auth.generateAccessToken env now fresh = inr accessToken
    /\ TodoRoutes.get env
         (snd (AuthController.register lib env users now fresh salt
                                       email username password))
         store later
         {| Middleware.authorization := None;
            Middleware.cookies := Some (Some accessToken) |}
       = TodoRoutes.Handled (TodoController.getTodos env store fresh).
Proof.
  intros Hc Hv Hn Hl.
  destruct (register_created lib env users now fresh salt email username password Hc)
    as (a & r & Er & Ei & Hs & _).
  set (user := registered lib now fresh salt email username password) in *.
  assert (Ea : Auth.generateAccessToken env now fresh = inr a).
  { revert Ei. unfold AuthController.issue. change (User._id user) with fresh.
    destruct (Auth.generateAccessToken env now fresh); [discriminate|].
    destruct (Auth.generateRefreshToken env now fresh); [discriminate|].
    intros [= <- _]. reflexivity. }
  exists a. rewrite Er. cbn [fst snd AuthController.cookie].
  split; [reflexivity|]. split; [exact Ea|].
  destruct (cookie_token_authenticates env (users ++ [user]) now later user Hs Hv)
    as (token & Et & Hk).
  - apply (find_registered users [] user). exact Hn.
  - exact Hl.
  - assert (token = a) by (change (User._id user) with fresh in Et; congruence).
    subst token. unfold TodoRoutes.get. rewrite Hk. reflexivity.
Qed.

Lemma registration_opens_the_todo_routes_witness :
  exists accessToken,
    AuthController.cookie (fst Scenario.registration) = Some accessToken
    /\ TodoRoutes.get Example.env (snd Scenario.registration) Example.store 1700000060000
         {| Middleware.authorization := None;
            Middleware.cookies := Some (Some accessToken) |}
       = TodoRoutes.Handled
           (TodoController.getTodos Example.env Example.store Example.alice).
Proof.
  destruct (registration_opens_the_todo_routes Example.lenient Example.env []
              Example.store 1700000000000 1700000060000 Example.alice 0
              (js "alice@example.com") (js "alice") (js "Passw0rd1"))
    as (a & Ec & _ & Hg);
    [vm_compute; reflexivity | reflexivity | reflexivity | reflexivity |].
  exists a. split; [exact Ec | exact Hg].
Defined.

(** ** One token, one user *)

Lemma token_of_claims_inj (c1 c2 : Json.object) (s1 s2 : jsstring) :
  plain_object c1 = true -> plain_object c2 = true ->
  token_of_claims c1 s1 = token_of_claims c2 s2 -> c1 = c2.
Proof.
  intros H1 H2 E. apply (f_equal (Jwt.split Jwt.dot)) in E.
  rewrite !split_token in E. injection E as E _.
  apply (f_equal (fun s => Json.parse (Utf8.decode (Base64.decode s)))) in E.
  rewrite !segment_decodes_utf8 in E by assumption. congruence.
Qed.

Lemma inr_inj {A B : Type} (a b : B) : @inr A B a = inr b -> a = b.
Proof. intros H. inversion H. reflexivity. Qed.

Lemma toString_inj (a b : ObjectId.t) : ObjectId.toString a = ObjectId.toString b -> a = b.
Proof.
  unfold ObjectId.toString. intros E.
  apply (f_equal ObjectId.bytes_of_hex) in E. rewrite !bytes_of_hex_encode in E.
  congruence.
Qed.

(** X29.  A token names one user.  If the same string is the access token
    issued for one user at one time and for another user at another, the
    two users are the same and the two times lie in the same second; and
    no string is both an access token and a refresh token this
    application issued. *)
Theorem token_names_one_user (env : Env) (now1 now2 : N) (u1 u2 : ObjectId.t)
        (token : jsstring) :
  Auth.generateAccessToken env now1 u1 = inr token ->
  (Auth.generateAccessToken env now2 u2 = inr token ->
   u1 = u2 /\ now1 / 1000 = now2 / 1000)
  /\ Auth.generateRefreshToken env now2 u2 <> inr token.
Proof.
  intros H1.
  assert (Hs : truthy (JWT_SECRET env) = true).
  { unfold Auth.generateAccessToken, Jwt.sign in H1.
    destruct (JWT_SECRET env) as [[|c k]|]; try discriminate. reflexivity. }
  destruct (generateAccessToken_ok env now1 u1 Hs) as (c & k & Ek & E1).
  rewrite E1 in H1. apply inr_inj in H1. subst token.
  split.
  - intros H2. destruct (generateAccessToken_ok env now2 u2 Hs) as (c' & k' & Ek' & E2).
    rewrite E2 in H2. apply inr_inj in H2.
    apply token_of_claims_inj in H2; try apply access_claims_plain.
    pose proof (f_equal (Json.get (js "userId")) H2) as Hu.
    rewrite !access_claims_userId in Hu.
    pose proof (f_equal (Json.get (js "exp")) H2) as He.
    unfold access_claims in He. rewrite !claims_exp in He.
    pose proof (f_equal (fun o => nth 1 (map snd o) (Json.Num 0)) H2) as Hi.
    cbn in Hi.
    split; [apply toString_inj|]; congruence.
  - intros H2.
    destruct (refresh_token_is_signed env now2 u2 _ H2) as (c' & k' & _ & E).
    apply token_of_claims_inj in E;
      [|apply access_claims_plain | apply refresh_claims_plain].
    apply (f_equal (@length _)) in E. discriminate E.
Qed.

Lemma token_names_one_user_witness :
  exists token,
    Auth.generateAccessToken Example.env 1700000000000 Example.alice = inr token
    /\ Auth.generateAccessToken Example.env 1700000000000 Example.bob <> inr token.
Proof.
  destruct (generateAccessToken_ok Example.env 1700000000000 Example.alice eq_refl)
    as (c & k & _ & E).
  eexists. split; [exact E|]. intros H2.
  destruct (proj1 (token_names_one_user Example.env 1700000000000 1700000000000
                     Example.alice Example.bob _ E) H2) as [Eu _].
  discriminate Eu.
Defined.

(** * A row that was changed behind the port's back *)

Lemma decrypt_other_tag (aesKey : buffer) (entropy : N) (plaintext given : jsstring) :
  match CryptoService.Encrypt aesKey entropy plaintext with
  | (encryptedContent, iv, authTag) =>
      CryptoService.FromBase64String given <> Some (Base64.decode authTag) ->
      exists why, CryptoService.Decrypt aesKey encryptedContent iv given = inl why
  end.
Proof.
  pose proof (crypto_service_tag aesKey entropy plaintext) as H.
  destruct (CryptoService.Encrypt aesKey entropy plaintext) as [[ec iv] tag].
  intros Hne.
  destruct (CryptoService.Decrypt aesKey ec iv given) as [why|text] eqn:Ed; [eauto|].
  exfalso. apply Hne. apply (H given text Ed).
Qed.

(** X30.  The port notices a row that was changed in the database.  Take the
    row [CreateAsync] built for a well-formed text.  With its tag field
    replaced by anything that does not decode to the same sixteen bytes,
    it reads as '[DECRYPTION FAILED - Content is corrupted]'; with its
    digest replaced by anything that is not the same digest up to letter
    case, it reads as '[INTEGRITY VIOLATION - ...]'; either way it is
    flagged as tampered and the text is not returned. *)
Theorem port_notices_a_changed_row (aesKey : buffer) (now : N) (id : CSharp.Guid)
        (entropy : N) (Content : jsstring) (userId : CSharp.Guid) :
  Utf8.well_formed Content = true ->
  let todo := TodoService.new_todo aesKey now id entropy Content userId in
  (forall given,
     CryptoService.FromBase64String given
     <> Some (Base64.decode (CSharp.AuthTag todo)) ->
     TodoService.DecryptTodoAsync aesKey (with_AuthTag todo given)
     = {| CSharp.dto_Id := id;
          CSharp.Content := js "[DECRYPTION FAILED - Content is corrupted]";
          CSharp.Tampered := true;
          CSharp.dto_CreatedAt := now; CSharp.dto_UpdatedAt := now |})
  /\ (forall hash,
        CSharp.equals_ignore_case (CSharp.HashService.ComputeSHA256 Content) hash = false ->
        TodoService.DecryptTodoAsync aesKey (with_IntegrityHash todo hash)
        = {| CSharp.dto_Id := id;
             CSharp.Content :=
               js "[INTEGRITY VIOLATION - Content may have been tampered with]";
             CSharp.Tampered := true;
             CSharp.dto_CreatedAt := now; CSharp.dto_UpdatedAt := now |}).
Proof.
  intros Hw. cbv zeta. unfold TodoService.new_todo, with_AuthTag, with_IntegrityHash.
  cbv zeta.
  pose proof (Decrypt_Encrypt aesKey entropy Content Hw) as Hr.
  pose proof (fun given => decrypt_other_tag aesKey entropy Content given) as Ht.
  destruct (CryptoService.Encrypt aesKey entropy Content) as [[ec iv] tag].
  cbn [CSharp.Id CSharp.UserId CSharp.EncryptedContent CSharp.IV CSharp.AuthTag
       CSharp.IntegrityHash CSharp.CreatedAt CSharp.UpdatedAt].
  split.
  - intros given Hne. destruct (Ht given Hne) as [why Ew].
    unfold TodoService.DecryptTodoAsync, CSharp.DecryptTodoAsync.
    cbn [CSharp.Id CSharp.EncryptedContent CSharp.IV CSharp.AuthTag
         CSharp.CreatedAt CSharp.UpdatedAt].
    unfold CryptoService.decrypt_for. rewrite Ew. reflexivity.
  - intros hash Hh.
    unfold TodoService.DecryptTodoAsync, CSharp.DecryptTodoAsync.
    cbn [CSharp.Id CSharp.EncryptedContent CSharp.IV CSharp.AuthTag
         CSharp.IntegrityHash CSharp.CreatedAt CSharp.UpdatedAt].
    unfold CryptoService.decrypt_for. rewrite Hr.
    unfold CSharp.HashService.VerifyIntegrity. rewrite Hh. reflexivity.
Qed.

Lemma port_notices_a_changed_row_witness :
  CSharp.Content
    (TodoService.DecryptTodoAsync Example.key
       (with_AuthTag
          (TodoService.new_todo Example.key 1700000000000 1 7 (js "buy milk") 10)
          (js "AAAAAAAAAAAAAAAAAAAAAA==")))
  = js "[DECRYPTION FAILED - Content is corrupted]".
Proof.
  rewrite (proj1 (port_notices_a_changed_row Example.key 1700000000000 1 7 (js "buy milk")
                    10 eq_refl) (js "AAAAAAAAAAAAAAAAAAAAAA==")).
  - reflexivity.
  - vm_compute. discriminate.
Defined.

